(** * PlayStation memory card reader (nbd/memory_card_reader.py)

    A shallow embedding of the host-side driver of the PS3 memory card
    adapter, and the properties of its framing layer, command set, block
    I/O layer and authentication loop.

    The source is Python 3 code: bytes are indexed to integers
    ([response[0] == 0x2b]), [hexdump] formats integers, and byte strings
    are joined with [b''.join].  The embedding follows Python 3 semantics
    throughout.

    The driver is a state and error monad over the USB device handle and a
    log of the bulk transfers and printed lines; every [while] loop takes a
    bound on its iterations and ends with [OutOfFuel] when it would pass
    it.  The definitions come first: the Python values, the driver in the
    order of the source, two simulated devices and the vocabulary of the
    statements.  The lemmas and theorems follow. *)

From Stdlib Require Import ZArith List Lia Bool Ascii String.
From Stdlib Require Import Strings.Byte.
Import ListNotations.

Open Scope Z_scope.

(** ** Python values used by the driver *)

Definition bytes := list byte.

(** The exceptions the driver can end with.  [ValueError] carries the
    constant part of its message, which is how the source tells its own
    failures apart. *)
Inductive exn : Type :=
| ValueError (msg : string)
| AssertionError
| IndexError
| TypeError
| StructError
| USBError.

(** The result of running a piece of the driver: a value, an exception, or
    [OutOfFuel] when a [while] loop was cut after the allowed number of
    iterations. *)
Inductive outcome (A : Type) : Type :=
| Ok (a : A)
| Raise (e : exn)
| OutOfFuel.

Arguments Ok {A} a.
Arguments Raise {A} e.
Arguments OutOfFuel {A}.

Definition len {A : Type} (s : list A) : Z := Z.of_nat (List.length s).

(** [s[i]] with Python's negative indices; [None] stands for IndexError. *)
Definition getitem {A : Type} (s : list A) (i : Z) : option A :=
  let j := if i <? 0 then i + len s else i in
  if (0 <=? j) && (j <? len s) then nth_error s (Z.to_nat j) else None.

Fixpoint replace_nth {A : Type} (n : nat) (v : A) (s : list A) : list A :=
  match s, n with
  | [], _ => []
  | _ :: t, O => v :: t
  | x :: t, S m => x :: replace_nth m v t
  end.

(** [s[i] = v]; [None] stands for IndexError. *)
Definition setitem {A : Type} (s : list A) (i : Z) (v : A) : option (list A) :=
  let j := if i <? 0 then i + len s else i in
  if (0 <=? j) && (j <? len s) then Some (replace_nth (Z.to_nat j) v s) else None.

(** A slice bound, clamped as Python does. *)
Definition clamp (n i : Z) : Z :=
  if i <? 0 then Z.max (i + n) 0 else Z.min i n.

(** [s[lo:hi]]; an omitted bound is [None]. *)
Definition slice {A : Type} (s : list A) (lo hi : option Z) : list A :=
  let n := len s in
  let l := match lo with Some i => clamp n i | None => 0 end in
  let h := match hi with Some i => clamp n i | None => n end in
  firstn (Z.to_nat (h - l)) (skipn (Z.to_nat l) s).

Notation "s .[ i : j ]" := (slice s (Some i) (Some j))
  (at level 1, i at level 50, j at level 50, format "s .[ i : j ]").
Notation "s .[ i :]" := (slice s (Some i) None)
  (at level 1, i at level 50, format "s .[ i :]").
Notation "s .[: j ]" := (slice s None (Some j))
  (at level 1, j at level 50, format "s .[: j ]").

Fixpoint bytes_eqb (a b : bytes) : bool :=
  match a, b with
  | [], [] => true
  | x :: a', y :: b' => Byte.eqb x y && bytes_eqb a' b'
  | _, _ => false
  end.

Definition byte_of_Z (z : Z) : byte :=
  match Byte.of_N (Z.to_N (z mod 256)) with
  | Some b => b
  | None => x00
  end.

Definition Z_of_byte (b : byte) : Z := Z.of_N (Byte.to_N b).

(** *** The [struct] formats the driver uses *)

(** [pack('<h', n)]: signed 16 bits, little-endian. *)
Definition pack_h (n : Z) : outcome bytes :=
  if (-32768 <=? n) && (n <=? 32767)
  then Ok [byte_of_Z n; byte_of_Z ((n mod 65536) / 256)]
  else Raise StructError.

(** [unpack('<h', b)[0]]. *)
Definition unpack_h (b : bytes) : outcome Z :=
  match b with
  | [lo; hi] =>
      let u := Z_of_byte lo + 256 * Z_of_byte hi in
      Ok (if u <? 32768 then u else u - 65536)
  | _ => Raise StructError
  end.

(** [pack('>H', n)]: unsigned 16 bits, big-endian. *)
Definition pack_H (n : Z) : outcome bytes :=
  if (0 <=? n) && (n <=? 65535)
  then Ok [byte_of_Z (n / 256); byte_of_Z n]
  else Raise StructError.

(** [pack('<I', n)]: unsigned 32 bits, little-endian. *)
Definition pack_I (n : Z) : outcome bytes :=
  if (0 <=? n) && (n <=? 4294967295)
  then Ok [byte_of_Z n; byte_of_Z (n / 256);
           byte_of_Z (n / 65536); byte_of_Z (n / 16777216)]
  else Raise StructError.

(** [pack('b', n)]: one signed byte. *)
Definition pack_b (n : Z) : outcome bytes :=
  if (-128 <=? n) && (n <=? 127)
  then Ok [byte_of_Z n]
  else Raise StructError.

(** *** [str] and [bytes]

    [writeFrame] and [writePage] build their command with [''.join(...)],
    a method of [str]; the items they join are [bytes].  Both kinds of
    value are kept apart here so that the join and the concatenations
    that follow it behave as they do in Python 3. *)
Inductive pyval : Type :=
| PyBytes (b : bytes)
| PyStr (s : string).

(** [sep.join(items)] for a [str] separator: every item must be a [str]. *)
Fixpoint str_join (sep : string) (items : list pyval) {struct items}
    : outcome string :=
  match items with
  | [] => Ok EmptyString
  | PyBytes _ :: _ => Raise TypeError
  | PyStr s :: rest =>
      match rest with
      | [] => Ok s
      | _ :: _ =>
          match str_join sep rest with
          | Ok t => Ok (s ++ sep ++ t)%string
          | Raise e => Raise e
          | OutOfFuel => OutOfFuel
          end
      end
  end.

(** [b''.join(items)] for a list of [bytes]. *)
Definition bytes_join (items : list bytes) : bytes := List.concat items.

(** [len(v)]. *)
Definition pylen (v : pyval) : Z :=
  match v with
  | PyBytes b => len b
  | PyStr s => Z.of_nat (String.length s)
  end.

(** [a + v] for [a : bytes]. *)
Definition bytes_add (a : bytes) (v : pyval) : outcome bytes :=
  match v with
  | PyBytes b => Ok (a ++ b)
  | PyStr _ => Raise TypeError
  end.

(** ** Constants *)

Definition BULK_WRITE_ENDPOINT : Z := 2.
Definition BULK_READ_ENDPOINT : Z := 1.
Definition BULK_READ_LENGTH : Z := 64.

Definition COMMAND_CODE : bytes := [xaa].
Definition COMMAND_TYPE_LONG : bytes := [x42].

Definition RESPONSE_CODE : bytes := [x55].
Definition RESPONSE_STATUS_SUCCES : bytes := [x5a].

Definition PS2_CARD_TYPE : Z := 2.
Definition PAGE_LENGTH : Z := 528.       (* 0x210 *)
Definition PS2_CARD_SIZE : Z := 8651280. (* 0x840210 *)

Definition PS1_CARD_TYPE : Z := 1.
Definition FRAME_LENGTH : Z := 128.      (* 0x80 *)
Definition PS1_CARD_SIZE : Z := 131072.  (* 0x20000 *)

Definition PS1_COMMAND_TAIL : bytes := repeat x00 134. (* 0x86 *)

(** [CARD_SIZE_DICT.get(card_type)]. *)
Definition _getSize (card_type : Z) : option Z :=
  if card_type =? PS1_CARD_TYPE then Some PS1_CARD_SIZE
  else if card_type =? PS2_CARD_TYPE then Some PS2_CARD_SIZE
  else None.

(** [CARD_PAGE_DICT.get(card_type)]. *)
Definition _getPageSize (card_type : Z) : option Z :=
  if card_type =? PS1_CARD_TYPE then Some FRAME_LENGTH
  else if card_type =? PS2_CARD_TYPE then Some PAGE_LENGTH
  else None.

(** ['%02x' % x]: two lowercase hexadecimal digits. *)
Definition hex_digit (n : Z) : ascii :=
  nth (Z.to_nat n) (list_ascii_of_string "0123456789abcdef") "0"%char.

Definition format_02x (x : byte) : string :=
  String (hex_digit (Z_of_byte x / 16))
    (String (hex_digit (Z_of_byte x mod 16)) EmptyString).

(** [' '.join('%02x' % x for x in data)]. *)
Definition hexdump (data : bytes) : string :=
  String.concat " " (map format_02x data).

Definition _padCommand (command : bytes) (padding : Z) : bytes :=
  command ++ repeat x00 (Z.to_nat padding).

Definition _stripResponse (response : bytes) (padding : Z) : outcome bytes :=
  let stuffing := response.[: - padding] in
  if bytes_eqb stuffing (repeat xff (List.length stuffing))
  then Ok response.[- padding :]
  else Raise AssertionError.

(** ** The world the driver runs in *)

(** What the driver does that can be observed from outside: bulk transfers
    and lines printed. *)
Inductive event : Type :=
| EvWrite (endpoint : Z) (data : bytes)
| EvRead (endpoint : Z) (length : Z) (result : bytes)
| EvPrint (line : string).

(** The USB device handle given to the constructor.  A transfer changes the
    device's state; a read that fails (no answer) is [None]. *)
Class UsbDevice (D : Type) : Type := {
  bulkWrite : Z -> bytes -> D -> D;
  bulkRead : Z -> Z -> D -> option bytes * D
}.

(** The device and the log of what the driver did so far, most recent
    event first; [trace] is the log in the order things happened. *)
Record world (D : Type) : Type := World {
  device : D;
  log : list event
}.

Arguments World {D} device log.
Arguments device {D} w.
Arguments log {D} w.

Definition trace {D : Type} (w : world D) : list event := rev (log w).

Definition M (D A : Type) : Type := world D -> outcome A * world D.

Definition ret {D A : Type} (a : A) : M D A := fun w => (Ok a, w).

Definition raise {D A : Type} (e : exn) : M D A := fun w => (Raise e, w).

Definition out_of_fuel {D A : Type} : M D A := fun w => (OutOfFuel, w).

Definition bind {D A B : Type} (m : M D A) (k : A -> M D B) : M D B :=
  fun w =>
    match m w with
    | (Ok a, w') => k a w'
    | (Raise e, w') => (Raise e, w')
    | (OutOfFuel, w') => (OutOfFuel, w')
    end.

Definition lift {D A : Type} (o : outcome A) : M D A := fun w => (o, w).

Definition from_option {D A : Type} (e : exn) (o : option A) : M D A :=
  match o with
  | Some a => ret a
  | None => raise e
  end.

(** [assert b]. *)
Definition assert_ {D : Type} (b : bool) : M D unit :=
  if b then ret tt else raise AssertionError.

Definition print {D : Type} (line : string) : M D unit :=
  fun w => (Ok tt, World (device w) (EvPrint line :: log w)).

Declare Scope py_scope.
Delimit Scope py_scope with py.
Notation "x <- m ;; k" := (bind m (fun x => k))
  (at level 100, m at next level, right associativity) : py_scope.
Notation "' p <- m ;; k" := (bind m (fun x => let p := x in k))
  (at level 100, p pattern, m at next level, right associativity) : py_scope.
Notation "m ;; k" := (bind m (fun _ => k))
  (at level 100, right associativity) : py_scope.
Open Scope py_scope.

(** ** PlayStationMemoryCardReader *)

Section Reader.

Context {D : Type} {usb_device : UsbDevice D}.

(** The authenticator given to the constructor: from the device's seed to
    the list of answers. *)
Variable authenticator : bytes -> list bytes.

(** The number of iterations allowed to each [while] loop. *)
Variable fuel : nat.

(** *** Read/write command helpers *)

Definition _usbRead : M D bytes :=
  fun w =>
    match bulkRead BULK_READ_ENDPOINT BULK_READ_LENGTH (device w) with
    | (Some result, d) =>
        (Ok result,
         World d (EvRead BULK_READ_ENDPOINT BULK_READ_LENGTH result :: log w))
    | (None, d) => (Raise USBError, World d (log w))
    end.

Definition _responseRead : M D bytes :=
  result <- _usbRead ;;
  if negb (bytes_eqb result.[0 : 1] RESPONSE_CODE)
  then raise (ValueError "Received data is not a valid response")
  else ret result.[1 :].

Fixpoint _longResponseRead_loop (n : nat) (response_length data_length : Z)
    (result : list bytes) : M D (list bytes) :=
  if data_length <? response_length then
    match n with
    | O => out_of_fuel
    | S n' =>
        response <- _usbRead ;;
        _longResponseRead_loop n' response_length
          (data_length + len response) (result ++ [response])
    end
  else ret result.

Definition _longResponseRead : M D (bytes * bytes) :=
  response <- _responseRead ;;
  let response_code := response.[0 : 1] in
  if bytes_eqb response_code RESPONSE_STATUS_SUCCES then
    response_length <- lift (unpack_h response.[1 : 3]) ;;
    let data := response.[3 :] in
    result <- _longResponseRead_loop fuel response_length (len data) [data] ;;
    ret (response_code, bytes_join result)
  else ret (response_code, bytes_join []).

Definition _usbWrite (data : bytes) : M D unit :=
  fun w =>
    (Ok tt,
     World (bulkWrite BULK_WRITE_ENDPOINT data (device w))
           (EvWrite BULK_WRITE_ENDPOINT data :: log w)).

Definition _commandWrite (data : pyval) : M D unit :=
  buffer <- lift (bytes_add COMMAND_CODE data) ;;
  _usbWrite buffer.

Definition _longCommandWrite (data : pyval) : M D unit :=
  length_prefix <- lift (pack_h (pylen data)) ;;
  buffer <- lift (bytes_add (COMMAND_TYPE_LONG ++ length_prefix) data) ;;
  _commandWrite (PyBytes buffer).

(** *** Identified commands *)

Definition getCardType : M D Z :=
  _commandWrite (PyBytes [x40]) ;;
  response <- _responseRead ;;
  assert_ (len response =? 1) ;;
  b <- from_option IndexError (getitem response 0) ;;
  ret (Z_of_byte b).

Definition isAuthenticated : M D bool :=
  _longCommandWrite (PyBytes (_padCommand [x81; x11] 2)) ;;
  ' (response_code, data) <- _longResponseRead ;;
  if bytes_eqb response_code [xaf] then ret false
  else
    assert_ (bytes_eqb response_code RESPONSE_STATUS_SUCCES) ;;
    response <- lift (_stripResponse data 2) ;;
    assert_ (bytes_eqb response [x2b; x55]) ;;
    ret true.

(** PS1 *)
Definition readFrame (frame_number : Z) : M D bytes :=
  encoded_frame_number <- lift (pack_H frame_number) ;;
  _longCommandWrite
    (PyBytes ([x81; x52; x00; x00] ++ encoded_frame_number ++ PS1_COMMAND_TAIL)) ;;
  ' (response_code, data) <- _longResponseRead ;;
  assert_ (bytes_eqb response_code RESPONSE_STATUS_SUCCES) ;;
  let data := data.[10 : -2] in
  assert_ (len data =? FRAME_LENGTH) ;;
  ret data.

Definition writeFrame (frame_number : Z) (data : bytes) : M D unit :=
  assert_ (len data =? FRAME_LENGTH) ;;
  encoded_frame_number <- lift (pack_H frame_number) ;;
  command <- lift (str_join ""
    [PyBytes [x81; x57; x5a; x5d];
     PyBytes encoded_frame_number;
     PyBytes data;
     PyBytes [x00];
     PyBytes [x5c; x5d; x47]]) ;;
  _longCommandWrite (PyStr command) ;;
  ' (response_code, response_data) <- _longResponseRead ;;
  assert_ (bytes_eqb response_code RESPONSE_STATUS_SUCCES) ;;
  assert_ (bytes_eqb response_data.[: 4] [xff; x00; x5a; x5d]) ;;
  b <- from_option IndexError (getitem response_data 4) ;;
  assert_ (Z_of_byte b =? 0) ;;
  assert_ (bytes_eqb response_data.[5 : 7] encoded_frame_number) ;;
  assert_ (bytes_eqb response_data.[7 : -3] data).

(** *** Generic and unidentified commands *)

Definition __81f0 (seq_number : Z) : M D bool :=
  seq <- lift (pack_b seq_number) ;;
  _longCommandWrite (PyBytes (_padCommand ([x81; xf0] ++ seq) 2)) ;;
  ' (response_code, data) <- _longResponseRead ;;
  let result := bytes_eqb response_code RESPONSE_STATUS_SUCCES in
  if result then
    response <- lift (_stripResponse data 2) ;;
    assert_ (bytes_eqb response [x2b; xff]) ;;
    ret result
  else ret result.

Definition __recv_81f0 (seq_number length : Z) : M D bytes :=
  let padding := length + 2 in
  seq <- lift (pack_b seq_number) ;;
  _longCommandWrite (PyBytes (_padCommand ([x81; xf0] ++ seq) padding)) ;;
  ' (response_code, data) <- _longResponseRead ;;
  assert_ (bytes_eqb response_code RESPONSE_STATUS_SUCCES) ;;
  response <- lift (_stripResponse data padding) ;;
  first <- from_option IndexError (getitem response 0) ;;
  framed <-
    (if Z_of_byte first =? 43 then
       last <- from_option IndexError (getitem response (-1)) ;;
       ret (Z_of_byte last =? 255)
     else ret false) ;;
  assert_ framed ;;
  ret response.[1 : -1].

Definition __send_81f0 (seq_number : Z) (data : bytes) : M D unit :=
  assert_ (len data =? 9) ;;
  seq <- lift (pack_b seq_number) ;;
  _longCommandWrite (PyBytes (_padCommand ([x81; xf0] ++ seq ++ data) 2)) ;;
  ' (response_code, data) <- _longResponseRead ;;
  assert_ (bytes_eqb response_code RESPONSE_STATUS_SUCCES) ;;
  response <- lift (_stripResponse data 2) ;;
  assert_ (bytes_eqb response [x2b; xff]).

Definition __8128 : M D unit :=
  _longCommandWrite (PyBytes (_padCommand [x81; x28] 3)) ;;
  ' (response_code, data) <- _longResponseRead ;;
  assert_ (bytes_eqb response_code RESPONSE_STATUS_SUCCES) ;;
  response <- lift (_stripResponse data 3) ;;
  assert_ (bytes_eqb response [x2b; xff; xff]).

Definition __8127 : M D unit :=
  _longCommandWrite (PyBytes (_padCommand [x81; x27; x55] 2)) ;;
  ' (response_code, data) <- _longResponseRead ;;
  assert_ (bytes_eqb response_code RESPONSE_STATUS_SUCCES) ;;
  response <- lift (_stripResponse data 2) ;;
  assert_ (bytes_eqb response [x2b; x55]).

Definition __8126 : M D bytes :=
  _longCommandWrite (PyBytes (_padCommand [x81; x26] 11)) ;;
  ' (response_code, data) <- _longResponseRead ;;
  assert_ (bytes_eqb response_code RESPONSE_STATUS_SUCCES) ;;
  response <- lift (_stripResponse data 11) ;;
  first <- from_option IndexError (getitem response 0) ;;
  framed <-
    (if Z_of_byte first =? 43 then
       last <- from_option IndexError (getitem response (-1)) ;;
       ret (Z_of_byte last =? 85)
     else ret false) ;;
  assert_ framed ;;
  ret response.[1 : -1].

Definition __8158 : M D unit :=
  _longCommandWrite (PyBytes [x81; x58; x00; x00; x00]) ;;
  ' (response_code, data) <- _longResponseRead ;;
  assert_ (bytes_eqb response_code [xaf]).

Definition __81f3 : M D unit :=
  _longCommandWrite (PyBytes (_padCommand [x81; xf3; x00] 2)) ;;
  ' (response_code, data) <- _longResponseRead ;;
  assert_ (bytes_eqb response_code RESPONSE_STATUS_SUCCES) ;;
  response <- lift (_stripResponse data 2) ;;
  assert_ (bytes_eqb response [x2b; xff]).

Definition __81f7 : M D unit :=
  _longCommandWrite (PyBytes (_padCommand [x81; xf7; x01] 2)) ;;
  ' (response_code, data) <- _longResponseRead ;;
  assert_ (bytes_eqb response_code RESPONSE_STATUS_SUCCES) ;;
  response <- lift (_stripResponse data 2) ;;
  assert_ (bytes_eqb response [x2b; xff]).

(** The sequence numbers are the default arguments of the source. *)
Definition getRandomNumber : M D bytes := __recv_81f0 4 9.
Definition sendAuthPart1 (data : bytes) : M D unit := __send_81f0 6 data.
Definition sendAuthPart2 (data : bytes) : M D unit := __send_81f0 7 data.
Definition sendAuthPart3 (data : bytes) : M D unit := __send_81f0 11 data.
Definition recvAuthPart1 : M D bytes := __recv_81f0 15 9.
Definition recvAuthPart2 : M D bytes := __recv_81f0 17 9.
Definition recvAuthPart3 : M D bytes := __recv_81f0 19 9.

(** *** Authentication *)

(** The body of the loop of [authenticate], once.  It ends normally at the
    [continue] of the timeout and at its last line, and with ValueError
    when the device still denies authentication. *)
Definition authenticate_body : M D unit :=
  __81f3 ;;
  __81f7 ;;
  __81f0 0 ;;
  __recv_81f0 1 9 ;;
  __recv_81f0 2 9 ;;
  __81f0 3 ;;
  seed <- getRandomNumber ;;
  let answer_list := authenticator seed in
  acknowledged <- __81f0 5 ;;
  if negb acknowledged then
    print "Auth timeout, retrying..."
  else
    answer0 <- from_option IndexError (getitem answer_list 0) ;;
    sendAuthPart1 answer0 ;;
    answer1 <- from_option IndexError (getitem answer_list 1) ;;
    sendAuthPart2 answer1 ;;
    __81f0 8 ;;
    __81f0 9 ;;
    __81f0 10 ;;
    answer2 <- from_option IndexError (getitem answer_list 2) ;;
    sendAuthPart3 answer2 ;;
    __81f0 12 ;;
    __81f0 13 ;;
    __81f0 14 ;;
    recvAuthPart1 ;;
    __81f0 16 ;;
    recvAuthPart2 ;;
    __81f0 18 ;;
    recvAuthPart3 ;;
    __81f0 20 ;;
    __8128 ;;
    __8127 ;;
    __8126 ;;
    authenticated <- isAuthenticated ;;
    if negb authenticated then
      raise (ValueError
        "Authentication went to the end, but we are not authenticated !")
    else ret tt.

(** [while not self.isAuthenticated(): <body>]; [n] bounds the number of
    times the body is entered. *)
Fixpoint authenticate_loop (n : nat) : M D unit :=
  authenticated <- isAuthenticated ;;
  if negb authenticated then
    match n with
    | O => out_of_fuel
    | S n' => authenticate_body ;; authenticate_loop n'
    end
  else ret tt.

Definition authenticate : M D unit := authenticate_loop fuel.

(** PS2 *)
Definition readPage (page_number : Z) : M D bytes :=
  authenticate ;;
  encoded_page_number <- lift (pack_I page_number) ;;
  _commandWrite (PyBytes ([x52; x03] ++ encoded_page_number ++ [x55; x2b])) ;;
  ' (response_code, data) <- _longResponseRead ;;
  assert_ (bytes_eqb response_code RESPONSE_STATUS_SUCCES) ;;
  assert_ (len data =? PAGE_LENGTH) ;;
  ret data.

Definition writePage (page_number : Z) (data : bytes) : M D unit :=
  assert_ (len data =? PAGE_LENGTH) ;;
  authenticate ;;
  encoded_page_number <- lift (pack_I page_number) ;;
  command <- lift (str_join ""
    [PyBytes [x57; x03];
     PyBytes encoded_page_number;
     PyBytes data;
     PyBytes [x55; x2b]]) ;;
  _commandWrite (PyStr command) ;;
  response <- _responseRead ;;
  assert_ (len response =? 1) ;;
  assert_ (bytes_eqb response RESPONSE_STATUS_SUCCES).

(** *** IO helpers *)

(** The block reader and writer [read] and [write] select by card type;
    any other type is the ValueError of both. *)
Definition select_block_io (card_type : Z)
    : M D ((Z -> M D bytes) * (Z -> bytes -> M D unit)) :=
  if card_type =? 1 then ret (readFrame, writeFrame)
  else if card_type =? 2 then ret (readPage, writePage)
  else raise (ValueError "No/unknown card").

(** [while result_len < length: ...] of [read]. *)
Fixpoint read_loop (n : nat) (read_block : Z -> M D bytes)
    (block_length length result_len current_block : Z) (result : list bytes)
    : M D (Z * list bytes) :=
  if result_len <? length then
    match n with
    | O => out_of_fuel
    | S n' =>
        data <- read_block current_block ;;
        assert_ (len data =? block_length) ;;
        read_loop n' read_block block_length length
          (result_len + block_length) (current_block + 1) (result ++ [data])
    end
  else ret (result_len, result).

Definition read (offset length : Z) : M D bytes :=
  card_type <- getCardType ;;
  ' (read_block, _) <- select_block_io card_type ;;
  block_length <- from_option TypeError (_getPageSize card_type) ;;
  max_length <- from_option TypeError (_getSize card_type) ;;
  if offset + length >? max_length
  then raise (ValueError "Trying to read out of card.")
  else
    let current_block := offset / block_length in
    let start_offset := offset mod block_length in
    ' (result_len, result) <-
      read_loop fuel read_block block_length length
        (- start_offset) current_block [] ;;
    first <- from_option IndexError (getitem result 0) ;;
    result <- from_option IndexError (setitem result 0 first.[start_offset :]) ;;
    result <-
      (if result_len >? length then
         last <- from_option IndexError (getitem result (-1)) ;;
         from_option IndexError
           (setitem result (-1) last.[: length - result_len])
       else ret result) ;;
    ret (bytes_join result).

(** [while len(data) >= block_length: ...] of [write]. *)
Fixpoint write_loop (n : nat) (write_block : Z -> bytes -> M D unit)
    (block_length current_block : Z) (data : bytes) : M D (Z * bytes) :=
  if len data >=? block_length then
    match n with
    | O => out_of_fuel
    | S n' =>
        let to_write := data.[: block_length] in
        let data := data.[block_length :] in
        write_block current_block to_write ;;
        write_loop n' write_block block_length (current_block + 1) data
    end
  else ret (current_block, data).

Definition write (offset : Z) (data : bytes) : M D unit :=
  card_type <- getCardType ;;
  ' (read_block, write_block) <- select_block_io card_type ;;
  block_length <- from_option TypeError (_getPageSize card_type) ;;
  max_length <- from_option TypeError (_getSize card_type) ;;
  if offset + len data >? max_length
  then raise (ValueError "Trying to write out of card.")
  else
    let current_block := offset / block_length in
    let start_offset := offset mod block_length in
    data <-
      (if negb (start_offset =? 0) then
         block <- read_block current_block ;;
         ret (block.[: start_offset] ++ data)
       else ret data) ;;
    ' (current_block, data) <-
      write_loop fuel write_block block_length current_block data ;;
    let data_len := len data in
    if negb (data_len =? 0) then
      block <- read_block current_block ;;
      write_block current_block (data ++ block.[data_len :])
    else ret tt.

Definition getSize : M D (option Z) :=
  card_type <- getCardType ;;
  ret (_getSize card_type).

Definition getPageSize : M D (option Z) :=
  card_type <- getCardType ;;
  ret (_getPageSize card_type).

End Reader.

(** ** Simulated devices *)

(** *** A scripted transport

    The device is the list of packets it will deliver, in order; it ignores
    what is written to it, and a read past the script fails. *)
Definition script := list bytes.

#[export] Instance scripted_device : UsbDevice script := {
  bulkWrite := fun _ _ d => d;
  bulkRead := fun _ _ d =>
    match d with
    | [] => (None, [])
    | packet :: rest => (Some packet, rest)
    end
}.

(** *** A simulated adapter with a card in it

    The adapter answers each command the way the driver expects a working
    adapter to: it echoes stored blocks, takes part in the authentication
    exchange, and can be told to time out at the acknowledgement step. *)

(** How often the adapter answers 0xAF to [0x81F0] with sequence number 5
    before it acknowledges. *)
Inductive patience : Type :=
| Timeouts (n : nat)
| Forever.

Record adapter : Type := Adapter {
  sim_card_type : byte;          (* the answer to command 0x40 *)
  sim_blocks : nat -> option bytes; (* the frames or pages of the card *)
  sim_authenticated : bool;
  sim_ack : patience;
  sim_grants : bool;             (* whether a completed handshake authenticates *)
  sim_pending : list bytes       (* the packets of the answer not yet read *)
}.

Fixpoint starts_with (prefix data : bytes) : bool :=
  match prefix, data with
  | [], _ => true
  | p :: prefix', d :: data' => Byte.eqb p d && starts_with prefix' data'
  | _ :: _, [] => false
  end.

(** The answer cut into bulk packets of at most 64 bytes. *)
Fixpoint packets_of (n : nat) (data : bytes) : list bytes :=
  match n, data with
  | O, _ => []
  | _, [] => []
  | S n', _ :: _ => firstn 64 data :: packets_of n' (skipn 64 data)
  end.

(** A successful long response: marker, status, declared length, payload. *)
Definition long_response (payload : bytes) : list bytes :=
  match pack_h (len payload) with
  | Ok declared =>
      let wire := x55 :: x5a :: declared ++ payload in
      packets_of (List.length wire) wire
  | _ => []
  end.

Definition refusal : list bytes := [[x55; xaf]].

Definition sim_seed : bytes := [x01; x02; x03; x04; x05; x06; x07; x08; x09].

Definition byte_at (data : bytes) (i : nat) : Z := Z_of_byte (nth i data x00).

(** The card with block [i] replaced by [data]. *)
Definition store (blocks : nat -> option bytes) (i : nat) (data : bytes)
    : nat -> option bytes :=
  fun j => if (j =? i)%nat then Some data else blocks j.

Definition answer (a : adapter) (packets : list bytes) : adapter :=
  Adapter (sim_card_type a) (sim_blocks a) (sim_authenticated a) (sim_ack a)
          (sim_grants a) packets.

(** The adapter's reaction to the body of a long command. *)
Definition sim_long_command (a : adapter) (body : bytes) : adapter :=
  if starts_with [x81; x11] body then
    answer a (if sim_authenticated a
              then long_response [xff; xff; x2b; x55] else refusal)
  else if starts_with [x81; x52] body then
    match sim_blocks a (Z.to_nat (256 * byte_at body 4 + byte_at body 5)) with
    | Some block =>
        answer a (long_response
          ([xff; x00; x5a; x5d; x00; x00; x5c; x5d;
            nth 4 body x00; nth 5 body x00] ++ block ++ [x00; x47]))
    | None => answer a []
    end
  else if starts_with [x81; x57] body then
    let data := firstn 128 (skipn 6 body) in
    let frame := Z.to_nat (256 * byte_at body 4 + byte_at body 5) in
    Adapter (sim_card_type a) (store (sim_blocks a) frame data)
            (sim_authenticated a) (sim_ack a) (sim_grants a)
            (long_response
               ([xff; x00; x5a; x5d; x00; nth 4 body x00; nth 5 body x00]
                ++ data ++ [x5c; x5d; x47]))
  else if starts_with [x81; xf0] body then
    if (List.length body =? 5)%nat then
      if Byte.eqb (nth 2 body x00) x05 then
        match sim_ack a with
        | Forever => answer a refusal
        | Timeouts (S n) =>
            Adapter (sim_card_type a) (sim_blocks a) (sim_authenticated a)
                    (Timeouts n) (sim_grants a) refusal
        | Timeouts O => answer a (long_response [xff; xff; xff; x2b; xff])
        end
      else answer a (long_response [xff; xff; xff; x2b; xff])
    else if Byte.eqb (nth 2 body x00) x06 || Byte.eqb (nth 2 body x00) x07
            || Byte.eqb (nth 2 body x00) x0b then
      answer a (long_response (repeat xff 12 ++ [x2b; xff]))
    else answer a (long_response ([xff; xff; xff; x2b] ++ sim_seed ++ [xff]))
  else if starts_with [x81; xf3] body then
    answer a (long_response [xff; xff; xff; x2b; xff])
  else if starts_with [x81; xf7] body then
    answer a (long_response [xff; xff; xff; x2b; xff])
  else if starts_with [x81; x28] body then
    answer a (long_response [xff; xff; x2b; xff; xff])
  else if starts_with [x81; x27] body then
    answer a (long_response [xff; xff; xff; x2b; x55])
  else if starts_with [x81; x26] body then
    Adapter (sim_card_type a) (sim_blocks a) (sim_grants a) (sim_ack a)
            (sim_grants a)
            (long_response ([xff; xff; x2b] ++ sim_seed ++ [x55]))
  else if starts_with [x81; x58] body then answer a refusal
  else answer a [].

Definition page_number_of (data : bytes) : nat :=
  Z.to_nat (byte_at data 3 + 256 * byte_at data 4
            + 65536 * byte_at data 5 + 16777216 * byte_at data 6).

Definition sim_write (data : bytes) (a : adapter) : adapter :=
  if starts_with [xaa; x40] data then answer a [[x55; sim_card_type a]]
  else if starts_with [xaa; x42] data then sim_long_command a (skipn 4 data)
  else if starts_with [xaa; x52; x03] data then
    if sim_authenticated a then
      match sim_blocks a (page_number_of data) with
      | Some block => answer a (long_response block)
      | None => answer a []
      end
    else answer a refusal
  else if starts_with [xaa; x57; x03] data then
    if sim_authenticated a then
      Adapter (sim_card_type a)
              (store (sim_blocks a) (page_number_of data)
                 (firstn 528 (skipn 7 data)))
              (sim_authenticated a) (sim_ack a) (sim_grants a) [[x55; x5a]]
    else answer a refusal
  else answer a [].

Definition sim_read (a : adapter) : option bytes * adapter :=
  match sim_pending a with
  | [] => (None, a)
  | packet :: rest => (Some packet, answer a rest)
  end.

#[export] Instance simulated_adapter : UsbDevice adapter := {
  bulkWrite := fun _ data a => sim_write data a;
  bulkRead := fun _ _ a => sim_read a
}.

(** A card of [n] blocks of [size] bytes, block [i] filled with byte [i]. *)
Definition sample_blocks (n size : nat) : nat -> option bytes :=
  fun i =>
    if (i <? n)%nat then Some (repeat (byte_of_Z (Z.of_nat i)) size)
    else None.

(** A PS1 card of 1024 frames in an adapter that was never authenticated. *)
Definition ps1_adapter : adapter :=
  Adapter x01 (sample_blocks 1024 128) false (Timeouts 0) true [].

(** A PS2 card of 16385 pages in an authenticated adapter. *)
Definition ps2_adapter : adapter :=
  Adapter x02 (sample_blocks (Z.to_nat 16385) 528) true (Timeouts 0) true [].

Definition fresh {D : Type} (d : D) : world D := World d [].

Definition no_answers (seed : bytes) : list bytes := [].

Definition echo_seed (seed : bytes) : list bytes := [seed; seed; seed].

(** ** Vocabulary of the properties *)

Definition read_event (packet : bytes) : event :=
  EvRead BULK_READ_ENDPOINT BULK_READ_LENGTH packet.

Definition write_event (data : bytes) : event :=
  EvWrite BULK_WRITE_ENDPOINT data.

(** The device [d] delivers [packets], one per bulk read and in this
    order, and is then in state [d']. *)
Fixpoint delivers {D : Type} {usb_device : UsbDevice D}
    (d : D) (packets : list bytes) (d' : D) : Prop :=
  match packets with
  | [] => d = d'
  | packet :: rest =>
      exists d1,
        bulkRead BULK_READ_ENDPOINT BULK_READ_LENGTH d = (Some packet, d1)
        /\ delivers d1 rest d'
  end.

(** The length a long response declares in bytes 2 and 3 of its first
    packet, read as [unpack('<h', ...)] reads it. *)
Definition declared_length (lo hi : byte) : Z :=
  let u := Z_of_byte lo + 256 * Z_of_byte hi in
  if u <? 32768 then u else u - 65536.

(** The length field of a long response as the two bytes on the wire give
    it, unsigned. *)
Definition wire_length (lo hi : byte) : Z :=
  Z_of_byte lo + 256 * Z_of_byte hi.

(** [packets] are the continuation packets a long response needs once
    [accumulated] bytes of payload are there: each of them is read while the
    payload is still shorter than [declared], and after the last one it is
    not. *)
Fixpoint needed (declared accumulated : Z) (packets : list bytes) : Prop :=
  match packets with
  | [] => declared <= accumulated
  | packet :: rest =>
      accumulated < declared /\ needed declared (accumulated + len packet) rest
  end.

Definition framing_error : exn :=
  ValueError "Received data is not a valid response".

(** The commands written to the device, oldest first. *)
Definition commands_of (events : list event) : list bytes :=
  flat_map (fun e => match e with EvWrite _ data => [data] | _ => [] end)
           events.

(** The bytes on the wire of the two commands every operation starts with. *)
Definition getCardType_command : bytes := [xaa; x40].

Definition isAuthenticated_command : bytes :=
  [xaa; x42; x04; x00; x81; x11; x00; x00].

(** The world once [command] has been written. *)
Definition after_write {D : Type} {usb_device : UsbDevice D}
    (command : bytes) (w : world D) : world D :=
  World (bulkWrite BULK_WRITE_ENDPOINT command (device w))
        (write_event command :: log w).

(** The world once [packet] has been read, the device being left in [d]. *)
Definition after_read {D : Type} (packet : bytes) (d : D) (w : world D)
    : world D :=
  World d (read_event packet :: log w).

(** *** The authentication exchange on the wire *)

(** A long command as [_longCommandWrite] frames it (bodies here are
    shorter than 256 bytes). *)
Definition long_command (body : bytes) : bytes :=
  xaa :: x42 :: byte_of_Z (len body) :: x00 :: body.

Definition command_81f0 (seq : byte) : bytes :=
  long_command [x81; xf0; seq; x00; x00].

Definition command_recv_81f0 (seq : byte) : bytes :=
  long_command ([x81; xf0; seq] ++ repeat x00 11).

Definition command_send_81f0 (seq : byte) (data : bytes) : bytes :=
  long_command ([x81; xf0; seq] ++ data ++ [x00; x00]).

(** The commands of one pass through the loop of [authenticate] up to and
    including the acknowledgement step: the test of the loop, the priming
    probes, the two serial blocks, the seed and [0x81F0] number 5. *)
Definition attempt_until_ack : list bytes :=
  [ isAuthenticated_command;
    long_command [x81; xf3; x00; x00; x00];
    long_command [x81; xf7; x01; x00; x00];
    command_81f0 x00;
    command_recv_81f0 x01;
    command_recv_81f0 x02;
    command_81f0 x03;
    command_recv_81f0 x04;
    command_81f0 x05 ].

(** The commands that follow an acknowledgement, up to and including the
    check that the adapter is now authenticated. *)
Definition attempt_after_ack (answer1 answer2 answer3 : bytes) : list bytes :=
  [ command_send_81f0 x06 answer1;
    command_send_81f0 x07 answer2;
    command_81f0 x08;
    command_81f0 x09;
    command_81f0 x0a;
    command_send_81f0 x0b answer3;
    command_81f0 x0c;
    command_81f0 x0d;
    command_81f0 x0e;
    command_recv_81f0 x0f;
    command_81f0 x10;
    command_recv_81f0 x11;
    command_81f0 x12;
    command_recv_81f0 x13;
    command_81f0 x14;
    long_command [x81; x28; x00; x00; x00];
    long_command [x81; x27; x55; x00; x00];
    long_command ([x81; x26] ++ repeat x00 11);
    isAuthenticated_command ].

(** The lines printed, oldest first. *)
Definition printed (events : list event) : list string :=
  flat_map (fun e => match e with EvPrint line => [line] | _ => [] end)
           events.

(** An adapter that was not authenticated yet, with nothing pending. *)
Definition locked_adapter (card_type : byte) (blocks : nat -> option bytes)
    (ack : patience) (grants : bool) : adapter :=
  Adapter card_type blocks false ack grants [].

(** The same adapter once a handshake went through. *)
Definition unlocked_adapter (card_type : byte) (blocks : nat -> option bytes)
    (grants : bool) : adapter :=
  Adapter card_type blocks grants (Timeouts 0) grants [].

(** An adapter that answers 0xAF to every acknowledgement request. *)
Definition stubborn_adapter : adapter :=
  locked_adapter x02 (sample_blocks 4 528) Forever true.

(** What [isAuthenticated] makes of the status and payload it received. *)
Definition isAuthenticated_verdict (code data : bytes) : outcome bool :=
  if bytes_eqb code [xaf] then Ok false
  else if bytes_eqb code RESPONSE_STATUS_SUCCES then
    match _stripResponse data 2 with
    | Ok response =>
        if bytes_eqb response [x2b; x55] then Ok true
        else Raise AssertionError
    | _ => Raise AssertionError
    end
  else Raise AssertionError.

(** The events, newest first, of one pass through the loop that ends at the
    timeout of the acknowledgement step. *)
Definition timeout_log : list event :=
  Eval vm_compute in
    log (snd ((isAuthenticated 0 ;; authenticate_body no_answers 0)
                (fresh (locked_adapter x02 (fun _ => None) (Timeouts 1) true)))).

(** The events, newest first, of the loop when the adapter acknowledges at
    once: one complete pass, and the test of the loop after it when the
    adapter grants authentication. *)
Definition complete_log (grants : bool) (a1 a2 a3 : bytes) : list event :=
  log (snd (authenticate_loop (fun _ => [a1; a2; a3]) 0 1
              (fresh (locked_adapter x02 (fun _ => None) (Timeouts 0) grants)))).

(** The events, newest first, of the body of the loop in that case. *)
Definition complete_body_log (grants : bool) (a1 a2 a3 : bytes)
    : list event :=
  log (snd (authenticate_body (fun _ => [a1; a2; a3]) 0
              (fresh (Adapter x02 (fun _ => None) false (Timeouts 0) grants
                        [])))).

Definition authentication_failed : exn :=
  ValueError "Authentication went to the end, but we are not authenticated !".

(** A long response of five bytes cut into three packets, followed by
    the packet of another response. *)
Definition split_response : script :=
  [[x55; x5a; x05; x00; x0a; x0b]; [x0c; x0d]; [x0e]; [x55; xaf]].

(** A long response whose length field is 0x8000: the first packet with 60
    bytes of payload, and five packets of 64 bytes behind it. *)
Definition long_announcement : script :=
  ([x55; x5a; x00; x80] ++ repeat x07 60) :: repeat (repeat x07 64) 5.

(** An answer to the authentication probe with a wrong byte in the
    stuffing. *)
Definition badly_stuffed_reply : script :=
  [[x55; x5a; x04; x00; x00; x00; x2b; x55]].

(** An adapter that reports a card of type 3. *)
Definition unknown_card : script := [[x55; x03]].

(** The answer of an authenticated adapter to the authentication probe. *)
Definition authenticated_reply : script :=
  [[x55; x5a; x04; x00; xff; xff; x2b; x55]].

(** A packet that does not start with the response marker. *)
Definition garbled_reply : script := [[x00; x5a]].

(** The world once the card type of the simulated adapter [a] was read. *)
Definition card_type_read (a : adapter) : world adapter :=
  World a [read_event [x55; sim_card_type a];
           write_event getCardType_command].

(** The lines of [read] that follow its loop: the first block is cut at the
    front, the last one at the end, and the blocks are joined. *)
Definition trim_result {D : Type} (start_offset length result_len : Z)
    (result : list bytes) : M D bytes :=
  first <- from_option IndexError (getitem result 0) ;;
  result <- from_option IndexError (setitem result 0 first.[start_offset :]) ;;
  result <-
    (if result_len >? length then
       last <- from_option IndexError (getitem result (-1)) ;;
       from_option IndexError
         (setitem result (-1) last.[: length - result_len])
     else ret result) ;;
  ret (bytes_join result).

(** The blocks [first], [first + 1], ... ([count] of them) of a card whose
    block [i] is [blk i]. *)
Definition block_range (blk : Z -> bytes) (first : Z) (count : nat)
    : list bytes :=
  map (fun k => blk (first + Z.of_nat k)) (seq 0 count).

(** The number of blocks a request of [length > 0] bytes touches when it
    starts [start_offset] bytes into a block. *)
Definition blocks_touched (block_length start_offset length : Z) : nat :=
  Z.to_nat ((start_offset + length - 1) / block_length + 1).

(** Block [i] of the card in the simulated adapter (empty when absent). *)
Definition block_of (blocks : nat -> option bytes) (i : Z) : bytes :=
  match blocks (Z.to_nat i) with
  | Some block => block
  | None => []
  end.

(** The card has [count] blocks of [size] bytes. *)
Definition card_of (blocks : nat -> option bytes) (count : nat) (size : Z)
    : Prop :=
  forall i : nat,
    (i < count)%nat -> exists block, blocks i = Some block /\ len block = size.

(** A payload of 150 bytes, which takes three packets. *)
Definition sample_payload : bytes := repeat x07 150.

(** An adapter with the long response carrying [payload] pending. *)
Definition answering (payload : bytes) : adapter :=
  Adapter x01 (fun _ => None) false (Timeouts 0) true (long_response payload).

(** *** Commands of the block and handshake layers on the wire *)

(** The command of [readFrame]: the frame number goes out big-endian,
    followed by 0x86 zero bytes. *)
Definition readFrame_command (frame_number : Z) : bytes :=
  long_command ([x81; x52; x00; x00]
                ++ [byte_of_Z (frame_number / 256); byte_of_Z frame_number]
                ++ PS1_COMMAND_TAIL).

(** The command of [readPage], a short one: the page number goes out
    little-endian on four bytes. *)
Definition readPage_command (page_number : Z) : bytes :=
  xaa :: [x52; x03]
    ++ [byte_of_Z page_number; byte_of_Z (page_number / 256);
        byte_of_Z (page_number / 65536); byte_of_Z (page_number / 16777216)]
    ++ [x55; x2b].

(** A probe of the handshake that takes no argument and returns nothing: it
    sends [body] as a long command and requires the status Success and
    [tail] after the stuffing of the payload, the last [padding] bytes. *)
Definition fixed_probe {D : Type} {usb_device : UsbDevice D} (fuel : nat)
    (body : bytes) (padding : Z) (tail : bytes) (probe : M D unit) : Prop :=
  forall (w w1 : world D) (code data : bytes),
    _longResponseRead fuel (after_write (long_command body) w)
      = (Ok (code, data), w1) ->
    (code = RESPONSE_STATUS_SUCCES -> _stripResponse data padding = Ok tail ->
     probe w = (Ok tt, w1))
    /\ (code <> RESPONSE_STATUS_SUCCES
        \/ _stripResponse data padding <> Ok tail ->
        probe w = (Raise AssertionError, w1)).

(** A command of the handshake that returns the bytes the adapter sends
    between the marker 0x2B and a last byte [last]: it sends [body] as a
    long command, requires the status Success, strips the payload to its
    last [padding] bytes and returns what lies between the two markers. *)
Definition receiver {D : Type} {usb_device : UsbDevice D} (fuel : nat)
    (body : bytes) (padding : Z) (last : byte) (command : M D bytes) : Prop :=
  forall (w w1 : world D) (code data : bytes),
    _longResponseRead fuel (after_write (long_command body) w)
      = (Ok (code, data), w1) ->
    (forall (n : nat) (answer : bytes),
        code = RESPONSE_STATUS_SUCCES ->
        data = repeat xff n ++ x2b :: answer ++ [last] ->
        len answer = padding - 2 ->
        command w = (Ok answer, w1))
    /\ (forall answer : bytes,
           code = RESPONSE_STATUS_SUCCES ->
           data = x2b :: answer ++ [last] ->
           len answer < padding - 2 ->
           command w = (Ok answer, w1))
    /\ (code = RESPONSE_STATUS_SUCCES -> data = [] ->
        command w = (Raise IndexError, w1))
    /\ (code <> RESPONSE_STATUS_SUCCES ->
        command w = (Raise AssertionError, w1)).

(** The answer of the adapter to [readFrame]: ten bytes of header, the
    frame, two more bytes. *)
Definition frame_reply (frame : bytes) : script :=
  long_response (repeat xff 10 ++ frame ++ [x00; x00]).

(** A script that answers the authentication probe as an authenticated
    adapter does, and then what [reply] holds. *)
Definition authenticated_then (reply : script) : script :=
  authenticated_reply ++ reply.

(** The answer of an adapter to a probe: status Success and the payload. *)
Definition probe_reply (payload : bytes) : script := long_response payload.

(** What follows the reading of the response in the commands that return
    the bytes between two markers. *)
Definition between_markers {D : Type} (padding : Z) (last : Z)
    (code data : bytes) : M D bytes :=
  assert_ (bytes_eqb code RESPONSE_STATUS_SUCCES) ;;
  response <- lift (_stripResponse data padding) ;;
  first <- from_option IndexError (getitem response 0) ;;
  framed <-
    (if Z_of_byte first =? 43 then
       last_byte <- from_option IndexError (getitem response (-1)) ;;
       ret (Z_of_byte last_byte =? last)
     else ret false) ;;
  assert_ framed ;;
  ret response.[1 : -1].

(** *** What a piece of the driver sends *)

(** A command that writes a block of the card: the long command 0x81 0x57
    of [writeFrame], or the short command 0x57 0x03 of [writePage]. *)
Definition block_write_command (command : bytes) : bool :=
  starts_with [xaa; x57; x03] command
  || (starts_with [xaa; x42] command
      && starts_with [x81; x57] (skipn 4 command)).

(** An event that leaves the blocks of the card alone. *)
Definition harmless (e : event) : Prop :=
  match e with
  | EvWrite _ command => block_write_command command = false
  | _ => True
  end.

(** Whatever the world [m] starts in, it adds to the log only events that
    satisfy [P], and keeps what was logged before. *)
Definition only {D A : Type} (P : event -> Prop) (m : M D A) : Prop :=
  forall w : world D,
    exists new : list event,
      trace (snd (m w)) = trace w ++ new /\ Forall P new.

(** The card as one string of bytes: its [count] blocks one after the
    other. *)
Definition card_image (blocks : nat -> option bytes) (count : nat) : bytes :=
  List.concat (block_range (block_of blocks) 0 count).

(** The events, newest first, of one pass through the loop of
    [authenticate] up to the acknowledgement of the adapter. *)
Definition acknowledged_log : list event :=
  Eval vm_compute in
    log (snd ((isAuthenticated 0 ;; authenticate_body no_answers 0)
                (fresh (locked_adapter x02 (fun _ => None) (Timeouts 0) true)))).

(** *** Responses without the marker *)

(** The packet starts with the response marker. *)
Definition marked (packet : bytes) : bool :=
  bytes_eqb packet.[0 : 1] RESPONSE_CODE.

(** The last event of a log, which has the newest event first, is the
    reading of a response, the read that follows a command, and the packet
    read does not start with the marker. *)
Definition ends_garbled (l : list event) : bool :=
  match l with
  | EvRead _ _ packet :: EvWrite _ _ :: _ => negb (marked packet)
  | _ => false
  end.

(** No response in the log came without the marker. *)
Fixpoint clean (l : list event) : bool :=
  match l with
  | [] => true
  | _ :: earlier => negb (ends_garbled l) && clean earlier
  end.

(** The last event of the log is a read. *)
Definition after_a_read (l : list event) : bool :=
  match l with
  | EvRead _ _ _ :: _ => true
  | _ => false
  end.

(** A response without the marker is fatal to [m]: run after a log that is
    clean, [m] keeps the log and adds to it, and either no response came
    without the marker, or [m] ended with the ValueError of [_responseRead]
    and the reading of that response is the last thing it did. *)
Definition fatal {D A : Type} (m : M D A) : Prop :=
  forall w : world D,
    clean (log w) = true ->
    (exists new : list event, log (snd (m w)) = new ++ log w)
    /\ (clean (log (snd (m w))) = true
        \/ (fst (m w) = Raise framing_error
            /\ ends_garbled (log (snd (m w))) = true)).

(** The answers of an adapter to the commands of the handshake up to the
    seed, and a packet without the marker at the acknowledgement request. *)
Definition garbled_acknowledgement : script :=
  let probe := [x55; x5a; x05; x00; xff; xff; xff; x2b; xff] in
  let serial := [x55; x5a; x0e; x00; xff; xff; xff; x2b] ++ sim_seed ++ [xff] in
  [[x55; xaf]; probe; probe; probe; serial; serial; probe; serial;
   [x00; x5a]].

(** ** Facts about the Python primitives *)

Lemma bytes_eqb_eq (a b : bytes) : bytes_eqb a b = true <-> a = b.
Proof.
  revert b; induction a as [|x a IH]; intros [|y b]; simpl; split;
    try congruence; try reflexivity.
  - intros H. apply andb_true_iff in H as [Hx Hab].
    apply Byte.byte_dec_bl in Hx. apply IH in Hab. congruence.
  - intros H. injection H as -> ->. apply andb_true_iff. split.
    + now apply Byte.byte_dec_lb.
    + now apply IH.
Qed.

Lemma bytes_eqb_refl (a : bytes) : bytes_eqb a a = true.
Proof. now apply bytes_eqb_eq. Qed.

Lemma bytes_eqb_neq (a b : bytes) : a <> b -> bytes_eqb a b = false.
Proof.
  intros H. destruct (bytes_eqb a b) eqn:E; [|reflexivity].
  apply bytes_eqb_eq in E. contradiction.
Qed.

Lemma len_nonneg {A : Type} (s : list A) : 0 <= len s.
Proof. unfold len. lia. Qed.

Lemma len_app {A : Type} (s t : list A) : len (s ++ t) = len s + len t.
Proof. unfold len. rewrite length_app. lia. Qed.

Lemma len_cons {A : Type} (x : A) (s : list A) : len (x :: s) = 1 + len s.
Proof. unfold len. simpl List.length. lia. Qed.

(** [s[i:]] for [i >= 0] drops the first [i] items. *)
Lemma slice_from {A : Type} (s : list A) (i : Z) :
  0 <= i -> s.[i :] = skipn (Z.to_nat i) s.
Proof.
  intros Hi. unfold slice, clamp.
  destruct (i <? 0) eqn:E; [apply Z.ltb_lt in E; lia|].
  destruct (Z.le_gt_cases i (len s)) as [Hle|Hgt].
  - rewrite Z.min_l by lia. apply firstn_all2.
    rewrite length_skipn. unfold len in *. lia.
  - rewrite Z.min_r by lia.
    rewrite !skipn_all2 by (unfold len in *; lia). now rewrite firstn_nil.
Qed.

(** [s[i:j]] for [0 <= i <= j]. *)
Lemma slice_range {A : Type} (s : list A) (i j : Z) :
  0 <= i <= j ->
  s.[i : j] = firstn (Z.to_nat (j - i)) (skipn (Z.to_nat i) s).
Proof.
  intros Hij. unfold slice, clamp.
  destruct (i <? 0) eqn:Ei; [apply Z.ltb_lt in Ei; lia|].
  destruct (j <? 0) eqn:Ej; [apply Z.ltb_lt in Ej; lia|].
  destruct (Z.le_gt_cases i (len s)) as [Hle|Hgt].
  - rewrite (Z.min_l i) by lia.
    destruct (Z.le_gt_cases j (len s)) as [Hj|Hj].
    + now rewrite Z.min_l by lia.
    + rewrite Z.min_r by lia.
      rewrite !firstn_all2; try reflexivity;
        rewrite length_skipn; unfold len in *; lia.
  - rewrite (Z.min_r i) by lia.
    rewrite !skipn_all2 by (unfold len in *; lia). now rewrite !firstn_nil.
Qed.

(** [s[:j]] for [j >= 0] keeps the first [j] items. *)
Lemma slice_to {A : Type} (s : list A) (j : Z) :
  0 <= j -> s.[: j] = firstn (Z.to_nat j) s.
Proof.
  intros Hj. unfold slice, clamp.
  destruct (j <? 0) eqn:E; [apply Z.ltb_lt in E; lia|].
  rewrite Z.sub_0_r. simpl skipn.
  destruct (Z.le_gt_cases j (len s)) as [Hle|Hgt].
  - now rewrite Z.min_l by lia.
  - rewrite Z.min_r by lia. rewrite !firstn_all2; unfold len in *; try lia.
    reflexivity.
Qed.

(** [s[:-k]] for [k > 0] drops the last [k] items. *)
Lemma slice_to_neg {A : Type} (s : list A) (k : Z) :
  0 < k -> s.[: - k] = firstn (Z.to_nat (len s - k)) s.
Proof.
  intros Hk. unfold slice, clamp.
  destruct (- k <? 0) eqn:E; [|apply Z.ltb_ge in E; lia].
  rewrite Z.sub_0_r. simpl skipn. f_equal. lia.
Qed.

(** [s[-k:]] for [k > 0] keeps the last [k] items. *)
Lemma slice_from_neg {A : Type} (s : list A) (k : Z) :
  0 < k -> s.[- k :] = skipn (Z.to_nat (len s - k)) s.
Proof.
  intros Hk. unfold slice, clamp.
  destruct (- k <? 0) eqn:E; [|apply Z.ltb_ge in E; lia].
  replace (Z.to_nat (Z.max (- k + len s) 0)) with (Z.to_nat (len s - k)) by lia.
  apply firstn_all2. rewrite length_skipn. unfold len. lia.
Qed.

Lemma slice_head (b : byte) (s : bytes) : (b :: s).[0 : 1] = [b].
Proof. rewrite slice_range by lia. reflexivity. Qed.

Lemma slice_tail (b : byte) (s : bytes) : (b :: s).[1 :] = s.
Proof. rewrite slice_from by lia. reflexivity. Qed.

Lemma slice_length_bytes (a b c : byte) (s : bytes) :
  (a :: b :: c :: s).[1 : 3] = [b; c].
Proof. rewrite slice_range by lia. reflexivity. Qed.

Lemma slice_after_length (a b c : byte) (s : bytes) :
  (a :: b :: c :: s).[3 :] = s.
Proof. rewrite slice_from by lia. reflexivity. Qed.

Lemma slice_nil_head : (@nil byte).[0 : 1] = [].
Proof. reflexivity. Qed.

Lemma Z_of_byte_of_Z (z : Z) : Z_of_byte (byte_of_Z z) = z mod 256.
Proof.
  unfold Z_of_byte, byte_of_Z.
  assert (Hrange : 0 <= z mod 256 < 256) by (apply Z.mod_pos_bound; lia).
  destruct (Byte.of_N (Z.to_N (z mod 256))) as [b | ] eqn:E.
  - apply Byte.to_of_N in E. rewrite E. lia.
  - apply Byte.of_N_None_iff in E. lia.
Qed.

Lemma Z_of_byte_range (b : byte) : 0 <= Z_of_byte b < 256.
Proof.
  unfold Z_of_byte. pose proof (Byte.to_N_bounded b). lia.
Qed.

Lemma stripResponse_split (stuffing tail : bytes) (padding : Z) :
  0 < padding -> len tail = padding ->
  _stripResponse (stuffing ++ tail) padding
  = if bytes_eqb stuffing (repeat xff (List.length stuffing))
    then Ok tail else Raise AssertionError.
Proof.
  intros Hp Ht. unfold _stripResponse.
  rewrite slice_to_neg, slice_from_neg by exact Hp.
  rewrite len_app, Ht.
  replace (Z.to_nat (len stuffing + padding - padding))
    with (List.length stuffing + 0)%nat by (unfold len; lia).
  rewrite firstn_app_2, skipn_app, Nat.add_0_r. cbn [firstn].
  rewrite app_nil_r, skipn_all, Nat.sub_diag. reflexivity.
Qed.

Lemma stripResponse_short (response : bytes) (padding : Z) :
  len response <= padding \/ padding = 0 ->
  _stripResponse response padding = Ok response.
Proof.
  intros H. unfold _stripResponse.
  destruct (Z.eq_dec padding 0) as [-> | Hp].
  - change (- 0) with 0. rewrite slice_to, slice_from by lia. reflexivity.
  - destruct H as [H | H]; [ | contradiction].
    pose proof (len_nonneg response).
    rewrite slice_to_neg, slice_from_neg by lia.
    replace (Z.to_nat (len response - padding)) with 0%nat by lia.
    reflexivity.
Qed.

(** [_stripResponse] answers a given tail of [padding] bytes exactly for the
    responses that are that tail behind any number of 0xFF bytes. *)
Lemma stripResponse_tail (response tail : bytes) (padding : Z) :
  0 < padding -> len tail = padding ->
  _stripResponse response padding = Ok tail
  <-> exists n : nat, response = repeat xff n ++ tail.
Proof.
  intros Hp Ht. split.
  - intros H. destruct (Z.le_gt_cases (len response) padding) as [Hle | Hgt].
    + rewrite stripResponse_short in H by now left.
      injection H as ->. now exists 0%nat.
    + rewrite <- (firstn_skipn (Z.to_nat (len response - padding)) response)
        in H.
      rewrite stripResponse_split in H; try exact Hp.
      * destruct (bytes_eqb _ _) eqn:E; [ | discriminate H].
        apply bytes_eqb_eq in E. injection H as H.
        exists (List.length (firstn (Z.to_nat (len response - padding))
                               response)).
        rewrite <- E, <- H. symmetry. apply firstn_skipn.
      * unfold len in *. rewrite length_skipn. lia.
  - intros [n ->]. rewrite stripResponse_split by assumption.
    now rewrite repeat_length, bytes_eqb_refl.
Qed.

(** ** Facts about the monad *)

Section Monad.

Context {D : Type}.

Lemma bind_Ok {A B : Type} (m : M D A) (k : A -> M D B) w a w' :
  m w = (Ok a, w') -> bind m k w = k a w'.
Proof. intros H. unfold bind. now rewrite H. Qed.

Lemma bind_Raise {A B : Type} (m : M D A) (k : A -> M D B) w e w' :
  m w = (Raise e, w') -> bind m k w = (Raise e, w').
Proof. intros H. unfold bind. now rewrite H. Qed.

Lemma bind_OutOfFuel {A B : Type} (m : M D A) (k : A -> M D B) w w' :
  m w = (OutOfFuel, w') -> bind m k w = (OutOfFuel, w').
Proof. intros H. unfold bind. now rewrite H. Qed.

Lemma bind_ret {A B : Type} (a : A) (k : A -> M D B) w :
  bind (ret a) k w = k a w.
Proof. reflexivity. Qed.

Lemma bind_raise {A B : Type} (e : exn) (k : A -> M D B) w :
  bind (raise e) k w = (Raise e, w).
Proof. reflexivity. Qed.

Lemma bind_assert_true {B : Type} (k : unit -> M D B) w :
  bind (assert_ true) k w = k tt w.
Proof. reflexivity. Qed.

Lemma bind_assert_false {B : Type} (k : unit -> M D B) w :
  bind (assert_ false) k w = (Raise AssertionError, w).
Proof. reflexivity. Qed.

Lemma bind_lift_Ok {A B : Type} (o : outcome A) (k : A -> M D B) w a :
  o = Ok a -> bind (lift o) k w = k a w.
Proof. intros ->. reflexivity. Qed.

Lemma bind_lift_Raise {A B : Type} (o : outcome A) (k : A -> M D B) w e :
  o = Raise e -> bind (lift o) k w = (Raise e, w).
Proof. intros ->. reflexivity. Qed.

End Monad.

(** ** The frame codec *)

Section Codec.

Context {D : Type} {usb_device : UsbDevice D}.

Lemma usbRead_Some (w : world D) packet d1 :
  bulkRead BULK_READ_ENDPOINT BULK_READ_LENGTH (device w) = (Some packet, d1) ->
  _usbRead w = (Ok packet, World d1 (read_event packet :: log w)).
Proof. intros H. unfold _usbRead. now rewrite H. Qed.

Lemma responseRead_marker (w : world D) payload d1 :
  bulkRead BULK_READ_ENDPOINT BULK_READ_LENGTH (device w)
    = (Some (x55 :: payload), d1) ->
  _responseRead w
    = (Ok payload, World d1 (read_event (x55 :: payload) :: log w)).
Proof.
  intros H. unfold _responseRead.
  rewrite (bind_Ok _ _ _ _ _ (usbRead_Some _ _ _ H)).
  rewrite slice_head, slice_tail. reflexivity.
Qed.

Lemma responseRead_no_marker (w : world D) packet d1 :
  bulkRead BULK_READ_ENDPOINT BULK_READ_LENGTH (device w) = (Some packet, d1) ->
  packet.[0 : 1] <> RESPONSE_CODE ->
  _responseRead w
    = (Raise framing_error, World d1 (read_event packet :: log w)).
Proof.
  intros H Hm. unfold _responseRead.
  rewrite (bind_Ok _ _ _ _ _ (usbRead_Some _ _ _ H)).
  rewrite (bytes_eqb_neq _ _ Hm). reflexivity.
Qed.

Lemma longResponseRead_loop_spec (packets : list bytes) :
  forall (n : nat) (declared accumulated : Z) (result : list bytes)
         (d d' : D) (l : list event),
    delivers d packets d' ->
    needed declared accumulated packets ->
    (List.length packets <= n)%nat ->
    _longResponseRead_loop n declared accumulated result (World d l)
    = (Ok (result ++ packets),
       World d' (rev (map read_event packets) ++ l)).
Proof.
  induction packets as [ | packet rest IH];
    intros n declared accumulated result d d' l Hd Hn Hfuel.
  - simpl in Hd, Hn. subst d'.
    destruct n; simpl;
      (destruct (accumulated <? declared) eqn:E;
       [apply Z.ltb_lt in E; lia | now rewrite app_nil_r]).
  - destruct Hd as (d1 & Hread & Hrest). destruct Hn as [Hlt Hn].
    destruct n as [ | n]; [simpl in Hfuel; lia | ].
    simpl _longResponseRead_loop.
    apply Z.ltb_lt in Hlt. rewrite Hlt.
    rewrite (bind_Ok _ _ _ _ _ (usbRead_Some (World d l) _ _ Hread)).
    rewrite (IH n declared _ _ d1 d' _ Hrest Hn) by (simpl in Hfuel; lia).
    simpl. rewrite <- !app_assoc. reflexivity.
Qed.

Lemma unpack_h_declared (lo hi : byte) :
  unpack_h [lo; hi] = Ok (declared_length lo hi).
Proof. reflexivity. Qed.

Lemma longResponseRead_success (fuel : nat) (w : world D)
    (lo hi : byte) (chunk : bytes) (conts : list bytes) (d1 d2 : D) :
  bulkRead BULK_READ_ENDPOINT BULK_READ_LENGTH (device w)
    = (Some (x55 :: x5a :: lo :: hi :: chunk), d1) ->
  delivers d1 conts d2 ->
  needed (declared_length lo hi) (len chunk) conts ->
  (List.length conts <= fuel)%nat ->
  _longResponseRead fuel w
  = (Ok ([x5a], chunk ++ List.concat conts),
     World d2 (rev (map read_event conts)
               ++ read_event (x55 :: x5a :: lo :: hi :: chunk) :: log w)).
Proof.
  intros Hfirst Hd Hn Hfuel. unfold _longResponseRead.
  rewrite (bind_Ok _ _ _ _ _ (responseRead_marker _ _ _ Hfirst)).
  rewrite slice_head, slice_length_bytes, slice_after_length.
  change (bytes_eqb [x5a] RESPONSE_STATUS_SUCCES) with true. cbv iota.
  rewrite (bind_lift_Ok _ _ _ _ (unpack_h_declared lo hi)).
  rewrite (bind_Ok _ _ _ _ _
             (longResponseRead_loop_spec conts fuel _ _ [chunk] d1 d2 _
                Hd Hn Hfuel)).
  reflexivity.
Qed.

Lemma longResponseRead_other_status (fuel : nat) (w : world D)
    (rest : bytes) (d1 : D) :
  bulkRead BULK_READ_ENDPOINT BULK_READ_LENGTH (device w)
    = (Some (x55 :: rest), d1) ->
  rest.[0 : 1] <> RESPONSE_STATUS_SUCCES ->
  _longResponseRead fuel w
  = (Ok (rest.[0 : 1], []), World d1 (read_event (x55 :: rest) :: log w)).
Proof.
  intros Hfirst Hstatus. unfold _longResponseRead.
  rewrite (bind_Ok _ _ _ _ _ (responseRead_marker _ _ _ Hfirst)).
  rewrite (bytes_eqb_neq _ _ Hstatus). reflexivity.
Qed.

Lemma longResponseRead_no_marker (fuel : nat) (w : world D) packet d1 :
  bulkRead BULK_READ_ENDPOINT BULK_READ_LENGTH (device w) = (Some packet, d1) ->
  packet.[0 : 1] <> RESPONSE_CODE ->
  _longResponseRead fuel w
    = (Raise framing_error, World d1 (read_event packet :: log w)).
Proof.
  intros H Hm. unfold _longResponseRead.
  now rewrite (bind_Raise _ _ _ _ _ (responseRead_no_marker _ _ _ H Hm)).
Qed.

Lemma commandWrite_bytes (command : bytes) (w : world D) :
  _commandWrite (PyBytes command) w
  = (Ok tt, World (bulkWrite BULK_WRITE_ENDPOINT (xaa :: command) (device w))
                  (write_event (xaa :: command) :: log w)).
Proof. reflexivity. Qed.

Lemma longCommandWrite_bytes (command prefix : bytes) (w : world D) :
  pack_h (len command) = Ok prefix ->
  _longCommandWrite (PyBytes command) w
  = (Ok tt,
     World (bulkWrite BULK_WRITE_ENDPOINT
              (xaa :: x42 :: prefix ++ command) (device w))
           (write_event (xaa :: x42 :: prefix ++ command) :: log w)).
Proof.
  intros H. unfold _longCommandWrite. simpl pylen.
  rewrite (bind_lift_Ok _ _ _ _ H). reflexivity.
Qed.

Lemma declared_length_wire (lo hi : byte) :
  (wire_length lo hi <= 32767 -> declared_length lo hi = wire_length lo hi)
  /\ (32767 < wire_length lo hi ->
      declared_length lo hi = wire_length lo hi - 65536).
Proof.
  unfold declared_length, wire_length.
  destruct (Z.ltb_spec (Z_of_byte lo + 256 * Z_of_byte hi) 32768);
    split; intros; lia.
Qed.

(** C4, as the code has it.  When the first packet carries the marker and
    the status Success, the two bytes that follow are decoded as a signed
    little-endian 16-bit length ([unpack('<h', ...)]).  For a length field
    of at most 0x7FFF, raw continuation packets are read exactly as long as
    the payload gathered so far is shorter than it; the result is status
    Success with the first chunk followed by the continuation packets, byte
    for byte, whatever the cut of the payload into packets is (it is not
    trimmed to the declared length).  A length field of 0x8000 and above is
    a negative length: no continuation packet is read, and the payload is
    what the first packet carried.  When the status is not Success, the
    result is that status with an empty payload, and the first packet is
    the only one read. *)
Theorem longResponseRead_reassembles (fuel : nat) (w : world D)
    (first : bytes) (d1 : D) :
  bulkRead BULK_READ_ENDPOINT BULK_READ_LENGTH (device w) = (Some first, d1) ->
  (forall (lo hi : byte) (chunk : bytes) (conts : list bytes) (d2 : D),
      first = x55 :: x5a :: lo :: hi :: chunk ->
      wire_length lo hi <= 32767 ->
      delivers d1 conts d2 ->
      needed (wire_length lo hi) (len chunk) conts ->
      (List.length conts <= fuel)%nat ->
      _longResponseRead fuel w
      = (Ok (RESPONSE_STATUS_SUCCES, bytes_join (chunk :: conts)),
         World d2 (rev (map read_event conts) ++ read_event first :: log w)))
  /\
  (forall (lo hi : byte) (chunk : bytes),
      first = x55 :: x5a :: lo :: hi :: chunk ->
      32767 < wire_length lo hi ->
      _longResponseRead fuel w
      = (Ok (RESPONSE_STATUS_SUCCES, chunk),
         World d1 (read_event first :: log w)))
  /\
  (forall (rest : bytes),
      first = x55 :: rest ->
      rest.[0 : 1] <> RESPONSE_STATUS_SUCCES ->
      _longResponseRead fuel w
      = (Ok (rest.[0 : 1], []), World d1 (read_event first :: log w))).
Proof.
  intros Hfirst. split; [ | split].
  - intros lo hi chunk conts d2 -> Hwire Hd Hn Hfuel.
    apply longResponseRead_success with (d1 := d1); trivial.
    now rewrite (proj1 (declared_length_wire lo hi) Hwire).
  - intros lo hi chunk -> Hwire.
    rewrite (longResponseRead_success fuel w lo hi chunk [] d1 d1 Hfirst).
    + cbn [List.concat map rev app]. now rewrite app_nil_r.
    + reflexivity.
    + cbn [needed].
      rewrite (proj2 (declared_length_wire lo hi) Hwire).
      unfold wire_length in *.
      pose proof (Z_of_byte_range lo). pose proof (Z_of_byte_range hi).
      pose proof (len_nonneg chunk). lia.
    + cbn [List.length]. lia.
  - intros rest -> Hstatus.
    now apply longResponseRead_other_status.
Qed.

End Codec.

Lemma longResponseRead_reassembles_witness :
  _longResponseRead 2 (fresh split_response)
  = (Ok ([x5a], [x0a; x0b; x0c; x0d; x0e]),
     World [[x55; xaf]]
           [read_event [x0e]; read_event [x0c; x0d];
            read_event [x55; x5a; x05; x00; x0a; x0b]]).
Proof.
  refine (proj1 (longResponseRead_reassembles 2 (fresh split_response)
                   [x55; x5a; x05; x00; x0a; x0b]
                   [[x0c; x0d]; [x0e]; [x55; xaf]] eq_refl)
            x05 x00 [x0a; x0b] [[x0c; x0d]; [x0e]] [[x55; xaf]]
            eq_refl _ _ _ _).
  - vm_compute. discriminate.
  - simpl. eexists. split; [reflexivity | ].
    eexists. split; reflexivity.
  - vm_compute. repeat split; try reflexivity; discriminate.
  - simpl. lia.
Defined.

(** C4 as it was claimed does not hold for every length field: with the
    field at 0x8000 the reader stops after the first packet, 60 bytes of
    payload, and leaves the five packets that follow unread. *)
Lemma longResponseRead_reads_the_length_as_signed :
  wire_length x00 x80 = 32768
  /\ _longResponseRead 600 (fresh long_announcement)
     = (Ok (RESPONSE_STATUS_SUCCES, repeat x07 60),
        World (repeat (repeat x07 64) 5)
              [read_event ([x55; x5a; x00; x80] ++ repeat x07 60)]).
Proof. split; vm_compute; reflexivity. Qed.

(** ** The command set *)

Section Commands.

Context {D : Type} {usb_device : UsbDevice D}.
Variable authenticator : bytes -> list bytes.
Variable fuel : nat.

Lemma getCardType_write (w : world D) :
  getCardType w
  = (response <- _responseRead ;;
     assert_ (len response =? 1) ;;
     b <- from_option IndexError (getitem response 0) ;;
     ret (Z_of_byte b)) (after_write getCardType_command w).
Proof. reflexivity. Qed.

Lemma isAuthenticated_write (w : world D) :
  isAuthenticated fuel w
  = (' (response_code, data) <- _longResponseRead fuel ;;
     if bytes_eqb response_code [xaf] then ret false
     else
       assert_ (bytes_eqb response_code RESPONSE_STATUS_SUCCES) ;;
       response <- lift (_stripResponse data 2) ;;
       assert_ (bytes_eqb response [x2b; x55]) ;;
       ret true) (after_write isAuthenticated_command w).
Proof. reflexivity. Qed.

Lemma stripResponse_outcome (response : bytes) (padding : Z) :
  (exists r, _stripResponse response padding = Ok r)
  \/ _stripResponse response padding = Raise AssertionError.
Proof.
  unfold _stripResponse.
  destruct (bytes_eqb _ _); [left; eauto | now right].
Qed.

Lemma isAuthenticated_received (w w1 : world D) (code data : bytes) :
  _longResponseRead fuel (after_write isAuthenticated_command w)
    = (Ok (code, data), w1) ->
  isAuthenticated fuel w = (isAuthenticated_verdict code data, w1).
Proof.
  intros H. rewrite isAuthenticated_write.
  rewrite (bind_Ok _ _ _ _ _ H). cbv beta iota zeta.
  unfold isAuthenticated_verdict.
  destruct (bytes_eqb code [xaf]); [reflexivity | ].
  destruct (bytes_eqb code RESPONSE_STATUS_SUCCES); [ | reflexivity].
  unfold assert_ at 1. rewrite bind_ret.
  destruct (stripResponse_outcome data 2) as [[r Hr] | Hr].
  - rewrite (bind_lift_Ok _ _ _ _ Hr), Hr.
    destruct (bytes_eqb r [x2b; x55]); reflexivity.
  - now rewrite (bind_lift_Raise _ _ _ _ Hr), Hr.
Qed.

(** C6. [isAuthenticated] answers [False] exactly when the status received
    is 0xAF, [True] exactly when the status is Success and the payload is
    the two bytes 0x2B 0x55 behind any number of 0xFF bytes, the stuffing
    that [_stripResponse] checks and removes, and fails an assertion for
    every other status and payload: another tail, or a byte of the stuffing
    that is not 0xFF. *)
Theorem isAuthenticated_outcomes (w w1 : world D) (code data : bytes) :
  _longResponseRead fuel (after_write isAuthenticated_command w)
    = (Ok (code, data), w1) ->
  (isAuthenticated fuel w = (Ok false, w1) <-> code = [xaf])
  /\ (isAuthenticated fuel w = (Ok true, w1)
      <-> code = RESPONSE_STATUS_SUCCES
          /\ exists n : nat, data = repeat xff n ++ [x2b; x55])
  /\ (code <> [xaf] ->
      ~ (code = RESPONSE_STATUS_SUCCES
         /\ exists n : nat, data = repeat xff n ++ [x2b; x55]) ->
      isAuthenticated fuel w = (Raise AssertionError, w1)).
Proof.
  intros H. rewrite (isAuthenticated_received _ _ _ _ H).
  unfold isAuthenticated_verdict.
  pose proof (stripResponse_tail data [x2b; x55] 2 ltac:(lia) eq_refl)
    as Htail.
  destruct (bytes_eqb code [xaf]) eqn:Eaf.
  { apply bytes_eqb_eq in Eaf. subst code.
    repeat split; try congruence; try discriminate.
    intros [Hc _]. discriminate Hc. }
  assert (Hnaf : code <> [xaf]).
  { intros ->. now rewrite bytes_eqb_refl in Eaf. }
  destruct (bytes_eqb code RESPONSE_STATUS_SUCCES) eqn:Esucc.
  - apply bytes_eqb_eq in Esucc.
    destruct (stripResponse_outcome data 2) as [[r Hr] | Hr]; rewrite Hr.
    + destruct (bytes_eqb r [x2b; x55]) eqn:Er.
      * apply bytes_eqb_eq in Er. subst r. apply Htail in Hr.
        repeat split; try congruence; try discriminate; trivial.
        intros _ Hn. exfalso. apply Hn. now split.
      * assert (Hne : r <> [x2b; x55]).
        { intros ->. now rewrite bytes_eqb_refl in Er. }
        repeat split; try congruence; try discriminate.
        intros [_ Hs]. apply Htail in Hs. congruence.
    + repeat split; try congruence; try discriminate.
      intros [_ Hs]. apply Htail in Hs. congruence.
  - assert (code <> RESPONSE_STATUS_SUCCES).
    { intros ->. now rewrite bytes_eqb_refl in Esucc. }
    repeat split; try congruence; try discriminate.
    intros [Hc _]. contradiction.
Qed.

Lemma getCardType_received (w : world D) (b : byte) (d1 : D) :
  bulkRead BULK_READ_ENDPOINT BULK_READ_LENGTH
    (device (after_write getCardType_command w)) = (Some [x55; b], d1) ->
  getCardType w
  = (Ok (Z_of_byte b),
     after_read [x55; b] d1 (after_write getCardType_command w)).
Proof.
  intros H. rewrite getCardType_write.
  now rewrite (bind_Ok _ _ _ _ _ (responseRead_marker _ _ _ H)).
Qed.

Lemma getCardType_wrong_length (w : world D) (rest : bytes) (d1 : D) :
  bulkRead BULK_READ_ENDPOINT BULK_READ_LENGTH
    (device (after_write getCardType_command w)) = (Some (x55 :: rest), d1) ->
  len rest <> 1 ->
  getCardType w
  = (Raise AssertionError,
     after_read (x55 :: rest) d1 (after_write getCardType_command w)).
Proof.
  intros H Hlen. rewrite getCardType_write.
  rewrite (bind_Ok _ _ _ _ _ (responseRead_marker _ _ _ H)).
  apply Z.eqb_neq in Hlen. now rewrite Hlen.
Qed.

Lemma select_block_io_unknown (card_type : Z) (w : world D) :
  card_type <> 1 -> card_type <> 2 ->
  select_block_io authenticator fuel card_type w
  = (Raise (ValueError "No/unknown card"), w).
Proof.
  intros H1 H2. unfold select_block_io.
  apply Z.eqb_neq in H1, H2. now rewrite H1, H2.
Qed.

Lemma read_unknown_card (offset length card_type : Z) (w w1 : world D) :
  getCardType w = (Ok card_type, w1) ->
  card_type <> 1 -> card_type <> 2 ->
  read authenticator fuel offset length w
  = (Raise (ValueError "No/unknown card"), w1).
Proof.
  intros H H1 H2. unfold read. rewrite (bind_Ok _ _ _ _ _ H).
  now rewrite (bind_Raise _ _ _ _ _ (select_block_io_unknown _ w1 H1 H2)).
Qed.

Lemma write_unknown_card (offset card_type : Z) (data : bytes)
    (w w1 : world D) :
  getCardType w = (Ok card_type, w1) ->
  card_type <> 1 -> card_type <> 2 ->
  write authenticator fuel offset data w
  = (Raise (ValueError "No/unknown card"), w1).
Proof.
  intros H H1 H2. unfold write. rewrite (bind_Ok _ _ _ _ _ H).
  now rewrite (bind_Raise _ _ _ _ _ (select_block_io_unknown _ w1 H1 H2)).
Qed.

(** C9, as the code has it.  [getCardType] writes the short command 0x40
    and requires exactly one byte after the response marker; it returns that
    byte as an integer, whatever its value.  A payload of another length
    fails an assertion.  A value other than 1 and 2 is refused by [read] and
    [write], with ValueError, before any block command. *)
Theorem getCardType_returns_the_byte (w : world D) (packet : bytes) (d1 : D) :
  bulkRead BULK_READ_ENDPOINT BULK_READ_LENGTH
    (device (after_write getCardType_command w)) = (Some packet, d1) ->
  let w1 := after_read packet d1 (after_write getCardType_command w) in
  (forall b : byte,
      packet = [x55; b] -> getCardType w = (Ok (Z_of_byte b), w1))
  /\ (forall rest : bytes,
         packet = x55 :: rest -> len rest <> 1 ->
         getCardType w = (Raise AssertionError, w1))
  /\ (forall (b : byte) (offset length : Z) (data : bytes),
         packet = [x55; b] -> Z_of_byte b <> 1 -> Z_of_byte b <> 2 ->
         read authenticator fuel offset length w
         = (Raise (ValueError "No/unknown card"), w1)
         /\ write authenticator fuel offset data w
            = (Raise (ValueError "No/unknown card"), w1)).
Proof.
  intros H w1. repeat split.
  - intros b ->. now apply getCardType_received.
  - intros rest -> Hlen. now apply getCardType_wrong_length.
  - subst packet.
    now apply read_unknown_card with (1 := getCardType_received _ _ _ H).
  - subst packet.
    now apply write_unknown_card with (1 := getCardType_received _ _ _ H).
Qed.

Lemma authenticate_loop_unfold (n : nat) (w : world D) :
  authenticate_loop authenticator fuel n w
  = (authenticated <- isAuthenticated fuel ;;
     if negb authenticated then
       match n with
       | O => out_of_fuel
       | S n' =>
           authenticate_body authenticator fuel ;;
           authenticate_loop authenticator fuel n'
       end
     else ret tt) w.
Proof. destruct n; reflexivity. Qed.

(** What a first response without the marker does to each operation, with
    the worlds in full. *)
Lemma first_response_without_marker (w : world D) (packet : bytes) (d1 : D) :
  packet.[0 : 1] <> RESPONSE_CODE ->
  (bulkRead BULK_READ_ENDPOINT BULK_READ_LENGTH (device w)
     = (Some packet, d1) ->
   let w1 := after_read packet d1 w in
   _responseRead w = (Raise framing_error, w1)
   /\ _longResponseRead fuel w = (Raise framing_error, w1)
   /\ (forall (B : Type) (k : bytes -> M D B),
          bind _responseRead k w = (Raise framing_error, w1))
   /\ (forall (B : Type) (k : bytes * bytes -> M D B),
          bind (_longResponseRead fuel) k w = (Raise framing_error, w1)))
  /\ (bulkRead BULK_READ_ENDPOINT BULK_READ_LENGTH
        (device (after_write getCardType_command w)) = (Some packet, d1) ->
      let w1 := after_read packet d1 (after_write getCardType_command w) in
      getCardType w = (Raise framing_error, w1)
      /\ (forall offset length : Z,
             read authenticator fuel offset length w
             = (Raise framing_error, w1))
      /\ (forall (offset : Z) (data : bytes),
             write authenticator fuel offset data w
             = (Raise framing_error, w1)))
  /\ (bulkRead BULK_READ_ENDPOINT BULK_READ_LENGTH
        (device (after_write isAuthenticated_command w)) = (Some packet, d1) ->
      let w1 := after_read packet d1 (after_write isAuthenticated_command w) in
      isAuthenticated fuel w = (Raise framing_error, w1)
      /\ authenticate authenticator fuel w = (Raise framing_error, w1)
      /\ (forall page_number : Z,
             readPage authenticator fuel page_number w
             = (Raise framing_error, w1)))
  /\ (forall (lo hi : byte) (chunk : bytes) (d0 : D),
         bulkRead BULK_READ_ENDPOINT BULK_READ_LENGTH (device w)
           = (Some (x55 :: x5a :: lo :: hi :: chunk), d0) ->
         bulkRead BULK_READ_ENDPOINT BULK_READ_LENGTH d0 = (Some packet, d1) ->
         len chunk < declared_length lo hi <= len chunk + len packet ->
         (1 <= fuel)%nat ->
         _longResponseRead fuel w
         = (Ok (RESPONSE_STATUS_SUCCES, chunk ++ packet),
            after_read packet d1
              (after_read (x55 :: x5a :: lo :: hi :: chunk) d0 w))).
Proof.
  intros Hm. repeat split.
  - now apply responseRead_no_marker.
  - now apply longResponseRead_no_marker.
  - intros B k. now apply bind_Raise, responseRead_no_marker.
  - intros B k. now apply bind_Raise, longResponseRead_no_marker.
  - rewrite getCardType_write.
    now apply bind_Raise, responseRead_no_marker.
  - intros offset length. unfold read. apply bind_Raise.
    rewrite getCardType_write.
    now apply bind_Raise, responseRead_no_marker.
  - intros offset data. unfold write. apply bind_Raise.
    rewrite getCardType_write.
    now apply bind_Raise, responseRead_no_marker.
  - rewrite isAuthenticated_write.
    now apply bind_Raise, longResponseRead_no_marker.
  - unfold authenticate. rewrite authenticate_loop_unfold.
    apply bind_Raise. rewrite isAuthenticated_write.
    now apply bind_Raise, longResponseRead_no_marker.
  - intros page_number. unfold readPage. apply bind_Raise.
    unfold authenticate. rewrite authenticate_loop_unfold.
    apply bind_Raise. rewrite isAuthenticated_write.
    now apply bind_Raise, longResponseRead_no_marker.
  - intros lo hi chunk d0 Hfirst Hcont Hlen Hfuel.
    rewrite (longResponseRead_success fuel w lo hi chunk [packet] d0 d1 Hfirst).
    + simpl. now rewrite app_nil_r.
    + simpl. eauto.
    + simpl. lia.
    + simpl. lia.
Qed.

(** *** Responses without the marker, at every layer *)

Lemma fatal_same {A : Type} (m : M D A) :
  (forall w, snd (m w) = w) -> fatal m.
Proof.
  intros H w Hclean. rewrite H. split; [now exists [] | now left].
Qed.

Lemma fatal_ret {A : Type} (a : A) : fatal (@ret D A a).
Proof. now apply fatal_same. Qed.

Lemma fatal_raise {A : Type} (e : exn) : fatal (@raise D A e).
Proof. now apply fatal_same. Qed.

Lemma fatal_out_of_fuel {A : Type} : fatal (@out_of_fuel D A).
Proof. now apply fatal_same. Qed.

Lemma fatal_lift {A : Type} (o : outcome A) : fatal (@lift D A o).
Proof. now apply fatal_same. Qed.

Lemma fatal_from_option {A : Type} (e : exn) (o : option A) :
  fatal (@from_option D A e o).
Proof. destruct o; now apply fatal_same. Qed.

Lemma fatal_assert (b : bool) : fatal (@assert_ D b).
Proof. destruct b; now apply fatal_same. Qed.

Lemma fatal_print (line : string) : fatal (@print D line).
Proof.
  intros w Hclean. cbn [print snd fst log]. split.
  - now exists [EvPrint line].
  - left. cbn [clean ends_garbled negb andb]. exact Hclean.
Qed.

Lemma fatal_usbWrite (data : bytes) : fatal (_usbWrite data).
Proof.
  intros w Hclean. cbn [_usbWrite snd fst log]. split.
  - now exists [EvWrite BULK_WRITE_ENDPOINT data].
  - left. cbn [clean ends_garbled negb andb]. exact Hclean.
Qed.

Lemma fatal_bind {A B : Type} (m : M D A) (k : A -> M D B) :
  fatal m -> (forall a, fatal (k a)) -> fatal (bind m k).
Proof.
  intros Hm Hk w Hclean. unfold bind.
  destruct (Hm w Hclean) as [[new1 E1] H1].
  destruct (m w) as [[a | e | ] w1]; cbn [fst snd] in *.
  - destruct H1 as [H1 | [H1 _]]; [ | discriminate H1].
    destruct (Hk a w1 H1) as [[new2 E2] H2]. split; [ | exact H2].
    exists (new2 ++ new1). now rewrite E2, E1, app_assoc.
  - split; [now exists new1 | ].
    destruct H1 as [H1 | [H1 H1']]; [now left | right].
    injection H1 as ->. now split.
  - split; [now exists new1 | ].
    destruct H1 as [H1 | [H1 _]]; [now left | discriminate H1].
Qed.

(** The reading of a response: the one place where the marker is looked
    at. *)
Lemma fatal_responseRead : fatal (@_responseRead D usb_device).
Proof.
  intros w Hclean. unfold _responseRead, bind, _usbRead.
  destruct (bulkRead _ _ _) as [[result | ] d]; cbn [fst snd log].
  - fold (marked result).
    destruct (marked result) eqn:E; cbn [negb fst snd log raise ret];
      (split; [now exists [read_event result] | ]).
    + left. cbn [clean]. rewrite Hclean, andb_true_r.
      unfold ends_garbled. destruct (log w) as [ | [ | | ] l];
        trivial. now rewrite E.
    + unfold clean at 1. fold clean. rewrite Hclean, andb_true_r.
      unfold ends_garbled. destruct (log w) as [ | [ | | ] l];
        try (now left). right. now rewrite E.
  - split; [now exists [] | now left].
Qed.

(** The continuation packets are read after a read, never after a
    command. *)
Lemma longResponseRead_loop_clean (n : nat) :
  forall (response_length data_length : Z) (result : list bytes)
         (w : world D),
    clean (log w) = true -> after_a_read (log w) = true ->
    let r := _longResponseRead_loop n response_length data_length result w in
    (exists new : list event, log (snd r) = new ++ log w)
    /\ clean (log (snd r)) = true.
Proof.
  induction n as [ | n IH];
    intros response_length data_length result w Hclean Hread;
    cbn [_longResponseRead_loop];
    destruct (data_length <? response_length);
    try (split; [now exists [] | exact Hclean]).
  unfold bind, _usbRead.
  destruct (bulkRead _ _ _) as [[response | ] d]; cbv beta iota zeta;
    [ | split; [now exists [] | exact Hclean]].
  assert (Hclean' : clean (read_event response :: log w) = true).
  { cbn [clean]. rewrite Hclean, andb_true_r.
    destruct (log w) as [ | [ | | ] l]; try discriminate Hread.
    reflexivity. }
  pose proof (IH response_length (data_length + len response)
                (result ++ [response])
                (World d (read_event response :: log w)) Hclean' eq_refl)
    as [[new E] H].
  fold (read_event response). split; [ | exact H].
  exists (new ++ [read_event response]).
  cbn [log] in E. now rewrite E, <- app_assoc.
Qed.

Lemma responseRead_Ok (w w1 : world D) (response : bytes) :
  _responseRead w = (Ok response, w1) ->
  exists packet, log w1 = read_event packet :: log w.
Proof.
  unfold _responseRead, bind, _usbRead.
  destruct (bulkRead _ _ _) as [[result | ] d]; [ | discriminate].
  destruct (negb _); [discriminate | ].
  intros H. injection H as _ <-. now exists result.
Qed.

Lemma fatal_longResponseRead : fatal (_longResponseRead fuel).
Proof.
  intros w Hclean. unfold _longResponseRead, bind.
  destruct (fatal_responseRead w Hclean) as [[new1 E1] H1].
  destruct (_responseRead w) as [[response | e | ] w1] eqn:Eread;
    cbn [fst snd] in *;
    try (split; [now exists new1 | ];
         destruct H1 as [H1 | [H1 H1']]; [now left | ];
         first [ discriminate H1
               | injection H1 as ->; right; now split ]).
  destruct H1 as [H1 | [H1 _]]; [ | discriminate H1].
  destruct (responseRead_Ok w w1 response Eread) as [packet Elog].
  cbv zeta.
  destruct (bytes_eqb _ _);
    [ | unfold ret; cbn [fst snd]; split; [now exists new1 | now left]].
  unfold lift.
  destruct (unpack_h _) as [response_length | e | ];
    try (cbn [fst snd]; split; [now exists new1 | now left]).
  destruct (longResponseRead_loop_clean fuel response_length
              (len response.[3 :]) [response.[3 :]] w1 H1)
    as [[new2 E2] H2].
  { now rewrite Elog. }
  cbv zeta in E2, H2.
  destruct (_longResponseRead_loop _ _ _ _ _) as [[result | e | ] w2];
    unfold ret; cbn [fst snd] in *;
    (split; [exists (new2 ++ new1); now rewrite E2, E1, app_assoc
            | now left]).
Qed.

(** The steps of a sequence one after the other; [known] settles the steps
    that were dealt with before. *)
Ltac careful_with known :=
  repeat first
    [ known
    | apply fatal_ret | apply fatal_raise | apply fatal_out_of_fuel
    | apply fatal_lift | apply fatal_from_option | apply fatal_assert
    | apply fatal_print | apply fatal_usbWrite
    | apply fatal_responseRead | apply fatal_longResponseRead
    | assumption
    | apply fatal_bind; [ | intros ? ]
    | match goal with
      | |- fatal (let ' (_, _) := ?p in _) => destruct p
      | |- fatal (if ?b then _ else _) => destruct b
      | |- fatal (let _ := _ in _) => cbv zeta
      end ].

Ltac careful := careful_with fail.

Lemma fatal_commandWrite (data : pyval) : fatal (_commandWrite data).
Proof. unfold _commandWrite. careful. Qed.

Lemma fatal_longCommandWrite (data : pyval) : fatal (_longCommandWrite data).
Proof.
  unfold _longCommandWrite.
  careful_with ltac:(apply fatal_commandWrite).
Qed.

Ltac exchanges :=
  careful_with ltac:(first [ apply fatal_longCommandWrite
                           | apply fatal_commandWrite ]).

Lemma fatal_getCardType : fatal (@getCardType D usb_device).
Proof. unfold getCardType. exchanges. Qed.

Lemma fatal_isAuthenticated : fatal (isAuthenticated fuel).
Proof. unfold isAuthenticated. exchanges. Qed.

Lemma fatal_readFrame (frame_number : Z) :
  fatal (readFrame fuel frame_number).
Proof. unfold readFrame. exchanges. Qed.

Lemma fatal_writeFrame (frame_number : Z) (data : bytes) :
  fatal (writeFrame fuel frame_number data).
Proof. unfold writeFrame. exchanges. Qed.

Lemma fatal_81f0 (seq_number : Z) : fatal (__81f0 fuel seq_number).
Proof. unfold __81f0. exchanges. Qed.

Lemma fatal_recv_81f0 (seq_number length : Z) :
  fatal (__recv_81f0 fuel seq_number length).
Proof. unfold __recv_81f0. exchanges. Qed.

Lemma fatal_send_81f0 (seq_number : Z) (data : bytes) :
  fatal (__send_81f0 fuel seq_number data).
Proof. unfold __send_81f0. exchanges. Qed.

Lemma fatal_8128 : fatal (__8128 fuel).
Proof. unfold __8128. exchanges. Qed.

Lemma fatal_8127 : fatal (__8127 fuel).
Proof. unfold __8127. exchanges. Qed.

Lemma fatal_8126 : fatal (__8126 fuel).
Proof. unfold __8126. exchanges. Qed.

Lemma fatal_8158 : fatal (__8158 fuel).
Proof. unfold __8158. exchanges. Qed.

Lemma fatal_81f3 : fatal (__81f3 fuel).
Proof. unfold __81f3. exchanges. Qed.

Lemma fatal_81f7 : fatal (__81f7 fuel).
Proof. unfold __81f7. exchanges. Qed.

Ltac handshakes :=
  careful_with ltac:(first [ apply fatal_81f0 | apply fatal_recv_81f0
                           | apply fatal_send_81f0 | apply fatal_81f3
                           | apply fatal_81f7 | apply fatal_8128
                           | apply fatal_8127 | apply fatal_8126
                           | apply fatal_isAuthenticated ]).

Lemma fatal_authenticate_body :
  fatal (authenticate_body authenticator fuel).
Proof.
  unfold authenticate_body, getRandomNumber, sendAuthPart1, sendAuthPart2,
    sendAuthPart3, recvAuthPart1, recvAuthPart2, recvAuthPart3.
  handshakes.
Qed.

Lemma fatal_authenticate_loop (n : nat) :
  fatal (authenticate_loop authenticator fuel n).
Proof.
  induction n as [ | n IH]; cbn [authenticate_loop];
    (apply fatal_bind; [apply fatal_isAuthenticated | ]); intros a;
    destruct (negb a); try apply fatal_ret; try apply fatal_out_of_fuel.
  apply fatal_bind; [apply fatal_authenticate_body | ]. intros _. exact IH.
Qed.

Lemma fatal_authenticate : fatal (authenticate authenticator fuel).
Proof. apply fatal_authenticate_loop. Qed.

Lemma fatal_readPage (page_number : Z) :
  fatal (readPage authenticator fuel page_number).
Proof.
  unfold readPage.
  careful_with ltac:(first [ apply fatal_authenticate
                           | apply fatal_commandWrite ]).
Qed.

Lemma fatal_writePage (page_number : Z) (data : bytes) :
  fatal (writePage authenticator fuel page_number data).
Proof.
  unfold writePage.
  careful_with ltac:(first [ apply fatal_authenticate
                           | apply fatal_commandWrite ]).
Qed.

Lemma fatal_read_loop (read_block : Z -> M D bytes) (n : nat) :
  (forall i, fatal (read_block i)) ->
  forall (block_length length result_len current_block : Z)
         (result : list bytes),
    fatal (read_loop n read_block block_length length result_len
             current_block result).
Proof.
  intros Hread.
  induction n as [ | n IH];
    intros block_length length result_len current_block result;
    cbn [read_loop]; careful_with ltac:(first [apply Hread | apply IH]).
Qed.

Lemma fatal_write_loop (write_block : Z -> bytes -> M D unit) (n : nat) :
  (forall i data, fatal (write_block i data)) ->
  forall (block_length current_block : Z) (data : bytes),
    fatal (write_loop n write_block block_length current_block data).
Proof.
  intros Hwrite.
  induction n as [ | n IH]; intros block_length current_block data;
    cbn [write_loop]; careful_with ltac:(first [apply Hwrite | apply IH]).
Qed.

Lemma fatal_select_block_io {B : Type} (card_type : Z)
    (k : (Z -> M D bytes) * (Z -> bytes -> M D unit) -> M D B) :
  (forall read_block write_block,
      (forall i, fatal (read_block i)) ->
      (forall i data, fatal (write_block i data)) ->
      fatal (k (read_block, write_block))) ->
  fatal (bind (select_block_io authenticator fuel card_type) k).
Proof.
  intros H. unfold select_block_io.
  destruct (card_type =? 1); [ | destruct (card_type =? 2)].
  - intros w. rewrite bind_ret. apply H.
    + apply fatal_readFrame.
    + apply fatal_writeFrame.
  - intros w. rewrite bind_ret. apply H.
    + apply fatal_readPage.
    + apply fatal_writePage.
  - intros w Hclean. rewrite bind_raise.
    split; [now exists [] | now left].
Qed.

Lemma fatal_read (offset length : Z) :
  fatal (read authenticator fuel offset length).
Proof.
  unfold read. apply fatal_bind; [apply fatal_getCardType | ].
  intros card_type. apply fatal_select_block_io.
  intros read_block write_block Hread Hwrite. cbv beta iota zeta.
  careful_with ltac:(now apply fatal_read_loop).
Qed.

Lemma fatal_write (offset : Z) (data : bytes) :
  fatal (write authenticator fuel offset data).
Proof.
  unfold write. apply fatal_bind; [apply fatal_getCardType | ].
  intros card_type. apply fatal_select_block_io.
  intros read_block write_block Hread Hwrite. cbv beta iota zeta.
  careful_with ltac:(first [ now apply fatal_write_loop
                           | apply Hread | apply Hwrite ]).
Qed.

Lemma fatal_getSize : fatal (@getSize D usb_device).
Proof. unfold getSize. careful_with ltac:(apply fatal_getCardType). Qed.

Lemma fatal_getPageSize : fatal (@getPageSize D usb_device).
Proof. unfold getPageSize. careful_with ltac:(apply fatal_getCardType). Qed.

(** C8.  A response without the marker 0x55 is fatal at every layer.  Every
    response is read by [_responseRead], right after the command it
    answers; for every operation of the driver, whatever the device and the
    arguments: when a response comes without the marker at any point of the
    operation, the operation ends with the ValueError of [_responseRead],
    and the reading of that response is the last thing it did, so that
    nothing swallowed the error and nothing was tried again.  This holds for
    the probes of the handshake and the acknowledgement request inside
    [authenticate], whose loop does not take it for a timeout, and for every
    block read of [read] and [write].  At the first response of an
    operation the worlds are given in full.  A continuation packet of a
    long response is taken as it is, marker or not. *)
Theorem framing_error_is_fatal (w : world D) (packet : bytes) (d1 : D) :
  (fatal (@getCardType D usb_device)
   /\ fatal (isAuthenticated fuel)
   /\ fatal (authenticate authenticator fuel)
   /\ (forall offset length, fatal (read authenticator fuel offset length))
   /\ (forall offset data, fatal (write authenticator fuel offset data))
   /\ (forall n, fatal (readFrame fuel n))
   /\ (forall n data, fatal (writeFrame fuel n data))
   /\ (forall n, fatal (readPage authenticator fuel n))
   /\ (forall n data, fatal (writePage authenticator fuel n data))
   /\ (forall seq, fatal (__81f0 fuel seq))
   /\ (forall seq length, fatal (__recv_81f0 fuel seq length))
   /\ (forall seq data, fatal (__send_81f0 fuel seq data))
   /\ fatal (__81f3 fuel) /\ fatal (__81f7 fuel) /\ fatal (__8128 fuel)
   /\ fatal (__8127 fuel) /\ fatal (__8126 fuel) /\ fatal (__8158 fuel)
   /\ fatal (@getSize D usb_device) /\ fatal (@getPageSize D usb_device)
   /\ fatal (_longResponseRead fuel) /\ fatal (@_responseRead D usb_device))
  /\ (packet.[0 : 1] <> RESPONSE_CODE ->
     (bulkRead BULK_READ_ENDPOINT BULK_READ_LENGTH (device w)
        = (Some packet, d1) ->
      let w1 := after_read packet d1 w in
      _responseRead w = (Raise framing_error, w1)
      /\ _longResponseRead fuel w = (Raise framing_error, w1)
      /\ (forall (B : Type) (k : bytes -> M D B),
             bind _responseRead k w = (Raise framing_error, w1))
      /\ (forall (B : Type) (k : bytes * bytes -> M D B),
             bind (_longResponseRead fuel) k w = (Raise framing_error, w1)))
     /\ (bulkRead BULK_READ_ENDPOINT BULK_READ_LENGTH
           (device (after_write getCardType_command w)) = (Some packet, d1) ->
         let w1 := after_read packet d1 (after_write getCardType_command w) in
         getCardType w = (Raise framing_error, w1)
         /\ (forall offset length : Z,
                read authenticator fuel offset length w
                = (Raise framing_error, w1))
         /\ (forall (offset : Z) (data : bytes),
                write authenticator fuel offset data w
                = (Raise framing_error, w1)))
     /\ (bulkRead BULK_READ_ENDPOINT BULK_READ_LENGTH
           (device (after_write isAuthenticated_command w)) = (Some packet, d1) ->
         let w1 := after_read packet d1 (after_write isAuthenticated_command w) in
         isAuthenticated fuel w = (Raise framing_error, w1)
         /\ authenticate authenticator fuel w = (Raise framing_error, w1)
         /\ (forall page_number : Z,
                readPage authenticator fuel page_number w
                = (Raise framing_error, w1)))
     /\ (forall (lo hi : byte) (chunk : bytes) (d0 : D),
            bulkRead BULK_READ_ENDPOINT BULK_READ_LENGTH (device w)
              = (Some (x55 :: x5a :: lo :: hi :: chunk), d0) ->
            bulkRead BULK_READ_ENDPOINT BULK_READ_LENGTH d0 = (Some packet, d1) ->
            len chunk < declared_length lo hi <= len chunk + len packet ->
            (1 <= fuel)%nat ->
            _longResponseRead fuel w
            = (Ok (RESPONSE_STATUS_SUCCES, chunk ++ packet),
               after_read packet d1
                 (after_read (x55 :: x5a :: lo :: hi :: chunk) d0 w)))).
Proof.
  split.
  - repeat match goal with
           | |- _ /\ _ => split
           | |- forall _, _ => intro
           end;
      first [ apply fatal_getCardType | apply fatal_isAuthenticated
            | apply fatal_authenticate | apply fatal_read | apply fatal_write
            | apply fatal_readFrame | apply fatal_writeFrame
            | apply fatal_readPage | apply fatal_writePage
            | apply fatal_81f0 | apply fatal_recv_81f0
            | apply fatal_send_81f0 | apply fatal_81f3 | apply fatal_81f7
            | apply fatal_8128 | apply fatal_8127 | apply fatal_8126
            | apply fatal_8158 | apply fatal_getSize
            | apply fatal_getPageSize | apply fatal_longResponseRead
            | apply fatal_responseRead ].
  - apply first_response_without_marker.
Qed.

End Commands.

(** ** Authentication against the simulated adapter *)

(** Runs the first action of a sequence on the simulated adapter. *)
Ltac step :=
  lazymatch goal with
  | |- bind ?m ?k ?w = _ =>
      let r := eval vm_compute in (m w) in
      lazymatch r with
      | (Ok ?a, ?w') =>
          rewrite (bind_Ok m k w a w' ltac:(vm_compute; reflexivity));
          cbv beta
      end
  end.

Lemma nine_bytes (a : bytes) :
  len a = 9 ->
  exists b1 b2 b3 b4 b5 b6 b7 b8 b9, a = [b1; b2; b3; b4; b5; b6; b7; b8; b9].
Proof.
  unfold len. intros H.
  do 9 (destruct a as [ | ? a]; [simpl in H; lia | ]).
  destruct a; [ | simpl in H; lia].
  repeat eexists.
Qed.

Lemma concat_repeat_comm {A : Type} (x : list A) (k : nat) :
  List.concat (repeat x k) ++ x = x ++ List.concat (repeat x k).
Proof.
  induction k as [ | k IH]; simpl.
  - now rewrite app_nil_r.
  - now rewrite <- app_assoc, IH.
Qed.

Lemma commands_of_app (e1 e2 : list event) :
  commands_of (e1 ++ e2) = commands_of e1 ++ commands_of e2.
Proof. apply flat_map_app. Qed.

Lemma printed_app (e1 e2 : list event) :
  printed (e1 ++ e2) = printed e1 ++ printed e2.
Proof. apply flat_map_app. Qed.

Lemma commands_of_timeouts (k : nat) :
  commands_of (rev (List.concat (repeat timeout_log k)))
  = List.concat (repeat attempt_until_ack k).
Proof.
  induction k as [ | k IH]; [reflexivity | ].
  change (List.concat (repeat timeout_log (S k)))
    with (timeout_log ++ List.concat (repeat timeout_log k)).
  rewrite rev_app_distr, commands_of_app, IH.
  change (commands_of (rev timeout_log)) with attempt_until_ack.
  apply concat_repeat_comm.
Qed.

Lemma printed_timeouts (k : nat) :
  printed (rev (List.concat (repeat timeout_log k)))
  = repeat "Auth timeout, retrying..."%string k.
Proof.
  induction k as [ | k IH]; [reflexivity | ].
  change (List.concat (repeat timeout_log (S k)))
    with (timeout_log ++ List.concat (repeat timeout_log k)).
  rewrite rev_app_distr, printed_app, IH.
  change (printed (rev timeout_log)) with ["Auth timeout, retrying..."%string].
  clear IH. induction k as [ | k IH]; [reflexivity | ].
  simpl. now rewrite IH.
Qed.

Section Handshake.

Variable authenticator : bytes -> list bytes.
Variables (a1 a2 a3 : bytes).
Hypothesis answers : authenticator sim_seed = [a1; a2; a3].
Hypothesis answer1_length : len a1 = 9.
Hypothesis answer2_length : len a2 = 9.
Hypothesis answer3_length : len a3 = 9.

Variable t : byte.
Variable blocks : nat -> option bytes.

Lemma pass_with_timeout (fuel n k : nat) (grants : bool) (l : list event) :
  authenticate_loop authenticator fuel (S n)
    (World (locked_adapter t blocks (Timeouts (S k)) grants) l)
  = authenticate_loop authenticator fuel n
      (World (locked_adapter t blocks (Timeouts k) grants) (timeout_log ++ l)).
Proof.
  rewrite authenticate_loop_unfold.
  destruct fuel; step; cbv beta iota delta [negb]; step; reflexivity.
Qed.

Lemma pass_without_answer (fuel n : nat) (grants : bool) (l : list event) :
  authenticate_loop authenticator fuel (S n)
    (World (locked_adapter t blocks Forever grants) l)
  = authenticate_loop authenticator fuel n
      (World (locked_adapter t blocks Forever grants) (timeout_log ++ l)).
Proof.
  rewrite authenticate_loop_unfold.
  destruct fuel; step; cbv beta iota delta [negb]; step; reflexivity.
Qed.

Lemma complete_body (fuel : nat) (grants : bool) (l : list event) :
  authenticate_body authenticator fuel
    (World (locked_adapter t blocks (Timeouts 0) grants) l)
  = (if grants then Ok tt else Raise authentication_failed,
     World (unlocked_adapter t blocks grants)
           (complete_body_log grants a1 a2 a3 ++ l)).
Proof.
  destruct (nine_bytes a1 answer1_length)
    as (b1 & b2 & b3 & b4 & b5 & b6 & b7 & b8 & b9 & E1).
  destruct (nine_bytes a2 answer2_length)
    as (c1 & c2 & c3 & c4 & c5 & c6 & c7 & c8 & c9 & E2).
  destruct (nine_bytes a3 answer3_length)
    as (e1 & e2 & e3 & e4 & e5 & e6 & e7 & e8 & e9 & E3).
  pose proof answers as Hanswers. unfold sim_seed in Hanswers.
  rewrite E1, E2, E3 in *. clear E1 E2 E3.
  unfold authenticate_body.
  destruct fuel, grants; do 7 step; cbv zeta; rewrite Hanswers;
    vm_compute; reflexivity.
Qed.

Lemma complete_pass (fuel n : nat) (grants : bool) (l : list event) :
  authenticate_loop authenticator fuel (S n)
    (World (locked_adapter t blocks (Timeouts 0) grants) l)
  = (if grants then Ok tt else Raise authentication_failed,
     World (unlocked_adapter t blocks grants)
           (complete_log grants a1 a2 a3 ++ l)).
Proof.
  rewrite authenticate_loop_unfold.
  assert (Hfirst : isAuthenticated fuel
            (World (locked_adapter t blocks (Timeouts 0) grants) l)
          = (Ok false,
             World (locked_adapter t blocks (Timeouts 0) grants)
                   (read_event [x55; xaf]
                    :: write_event isAuthenticated_command :: l))).
  { destruct fuel; vm_compute; reflexivity. }
  rewrite (bind_Ok _ _ _ _ _ Hfirst). cbv beta iota delta [negb].
  destruct (nine_bytes a1 answer1_length)
    as (b1 & b2 & b3 & b4 & b5 & b6 & b7 & b8 & b9 & E1).
  destruct (nine_bytes a2 answer2_length)
    as (c1 & c2 & c3 & c4 & c5 & c6 & c7 & c8 & c9 & E2).
  destruct (nine_bytes a3 answer3_length)
    as (e1 & e2 & e3 & e4 & e5 & e6 & e7 & e8 & e9 & E3).
  destruct grants.
  - rewrite (bind_Ok _ _ _ _ _ (complete_body fuel true _)).
    rewrite authenticate_loop_unfold. rewrite E1, E2, E3.
    destruct fuel; vm_compute; reflexivity.
  - rewrite (bind_Raise _ _ _ _ _ (complete_body fuel false _)).
    rewrite E1, E2, E3. vm_compute. reflexivity.
Qed.

Lemma timeouts_then_pass (fuel k : nat) (grants : bool) :
  forall (n : nat) (l : list event),
    (k < n)%nat ->
    authenticate_loop authenticator fuel n
      (World (locked_adapter t blocks (Timeouts k) grants) l)
    = (if grants then Ok tt else Raise authentication_failed,
       World (unlocked_adapter t blocks grants)
             (complete_log grants a1 a2 a3
              ++ List.concat (repeat timeout_log k) ++ l)).
Proof.
  induction k as [ | k IH]; intros n l Hn;
    (destruct n as [ | n]; [lia | ]).
  - apply complete_pass.
  - rewrite pass_with_timeout, IH by lia.
    change (List.concat (repeat timeout_log (S k)))
      with (timeout_log ++ List.concat (repeat timeout_log k)).
    now rewrite (app_assoc (List.concat _) timeout_log l),
      concat_repeat_comm, <- app_assoc.
Qed.

Lemma never_acknowledged (fuel n : nat) (grants : bool) :
  forall l : list event,
    fst (authenticate_loop authenticator fuel n
           (World (locked_adapter t blocks Forever grants) l))
    = OutOfFuel.
Proof.
  induction n as [ | n IH]; intros l.
  - destruct fuel; vm_compute; reflexivity.
  - rewrite pass_without_answer. apply IH.
Qed.

Lemma commands_of_complete (grants : bool) :
  commands_of (rev (complete_log grants a1 a2 a3))
  = attempt_until_ack ++ attempt_after_ack a1 a2 a3
    ++ (if grants then [isAuthenticated_command] else []).
Proof.
  destruct (nine_bytes a1 answer1_length)
    as (b1 & b2 & b3 & b4 & b5 & b6 & b7 & b8 & b9 & E1).
  destruct (nine_bytes a2 answer2_length)
    as (c1 & c2 & c3 & c4 & c5 & c6 & c7 & c8 & c9 & E2).
  destruct (nine_bytes a3 answer3_length)
    as (e1 & e2 & e3 & e4 & e5 & e6 & e7 & e8 & e9 & E3).
  rewrite E1, E2, E3. destruct grants; vm_compute; reflexivity.
Qed.

Lemma printed_complete (grants : bool) :
  printed (rev (complete_log grants a1 a2 a3)) = [].
Proof.
  destruct (nine_bytes a1 answer1_length)
    as (b1 & b2 & b3 & b4 & b5 & b6 & b7 & b8 & b9 & E1).
  destruct (nine_bytes a2 answer2_length)
    as (c1 & c2 & c3 & c4 & c5 & c6 & c7 & c8 & c9 & E2).
  destruct (nine_bytes a3 answer3_length)
    as (e1 & e2 & e3 & e4 & e5 & e6 & e7 & e8 & e9 & E3).
  rewrite E1, E2, E3. destruct grants; vm_compute; reflexivity.
Qed.

(** C3, as the code has it.  Against an adapter that answers 0xAF to the
    acknowledgement request ([0x81F0] number 5) exactly [k] times and then
    takes part in the rest of the exchange, [authenticate] succeeds after
    [k] restarts: each pass that times out issues the commands up to the
    acknowledgement request, prints the retry line and starts again at the
    authentication probe, and the last pass issues the complete sequence.
    The loop has no retry bound: against an adapter that answers 0xAF to
    every acknowledgement request no number of iterations ends it.  The
    error for a failed authentication is raised when a complete pass leaves
    the adapter unauthenticated, at once and without another pass. *)
Theorem authenticate_retries_without_bound (fuel : nat) (l : list event) :
  (forall k : nat,
      (k < fuel)%nat ->
      let w := World (locked_adapter t blocks (Timeouts k) true) l in
      let r := authenticate authenticator fuel w in
      fst r = Ok tt
      /\ device (snd r) = unlocked_adapter t blocks true
      /\ commands_of (trace (snd r))
         = commands_of (trace w)
           ++ List.concat (repeat attempt_until_ack k)
           ++ attempt_until_ack ++ attempt_after_ack a1 a2 a3
           ++ [isAuthenticated_command]
      /\ printed (trace (snd r))
         = printed (trace w) ++ repeat "Auth timeout, retrying..."%string k)
  /\ (forall n : nat,
         fst (authenticate authenticator n
                (World (locked_adapter t blocks Forever true) l))
         = OutOfFuel)
  /\ (forall k : nat,
         (k < fuel)%nat ->
         let w := World (locked_adapter t blocks (Timeouts k) false) l in
         let r := authenticate authenticator fuel w in
         fst r = Raise authentication_failed
         /\ commands_of (trace (snd r))
            = commands_of (trace w)
              ++ List.concat (repeat attempt_until_ack k)
              ++ attempt_until_ack ++ attempt_after_ack a1 a2 a3).
Proof.
  split; [ | split].
  - intros k Hk w r. subst w r. unfold authenticate.
    rewrite (timeouts_then_pass fuel k true fuel l Hk).
    unfold trace. cbn [fst snd device log].
    repeat split.
    + rewrite !rev_app_distr, !commands_of_app, commands_of_timeouts,
        commands_of_complete.
      now rewrite <- !app_assoc.
    + rewrite !rev_app_distr, !printed_app, printed_timeouts,
        printed_complete.
      now rewrite app_nil_r.
  - intros n. apply never_acknowledged.
  - intros k Hk w r. subst w r. unfold authenticate.
    rewrite (timeouts_then_pass fuel k false fuel l Hk).
    unfold trace. cbn [fst snd device log]. split; [reflexivity | ].
    rewrite !rev_app_distr, !commands_of_app, commands_of_timeouts,
      commands_of_complete.
    now rewrite <- !app_assoc, app_nil_r.
Qed.

End Handshake.

Lemma authenticate_retries_without_bound_witness :
  fst (authenticate echo_seed 3
         (fresh (locked_adapter x02 (sample_blocks 4 528) (Timeouts 2) true)))
  = Ok tt.
Proof.
  exact (proj1 (proj1
    (authenticate_retries_without_bound echo_seed sim_seed sim_seed sim_seed
       eq_refl eq_refl eq_refl eq_refl x02 (sample_blocks 4 528) 3 [])
    2%nat (le_n 3))).
Defined.

(** C3 as it was claimed does not hold: against the adapter that never
    acknowledges, [authenticate] does not end with any number of
    iterations of its loop, so it raises nothing; and a pass that times
    out stops at the acknowledgement request instead of issuing the full
    sequence (here one timeout, then the complete pass). *)
Lemma authenticate_has_no_retry_bound :
  ~ (exists fuel : nat,
        fst (authenticate echo_seed fuel (fresh stubborn_adapter))
        <> OutOfFuel)
  /\ commands_of
       (trace (snd (authenticate echo_seed 2
                      (fresh (locked_adapter x02 (sample_blocks 4 528)
                                (Timeouts 1) true)))))
     = attempt_until_ack
       ++ attempt_until_ack ++ attempt_after_ack sim_seed sim_seed sim_seed
       ++ [isAuthenticated_command].
Proof.
  split.
  - intros [fuel H]. apply H.
    apply (never_acknowledged echo_seed x02 (sample_blocks 4 528)
             fuel fuel true).
  - vm_compute. reflexivity.
Qed.

(** ** The block I/O layer *)

Section BlockIO.

Context {D : Type} {usb_device : UsbDevice D}.
Variable authenticator : bytes -> list bytes.
Variable fuel : nat.

Lemma assert_true (w : world D) : assert_ true w = (Ok tt, w).
Proof. reflexivity. Qed.

(** C5.  [writeFrame] with 0x80 bytes of data and a frame number of 16 bits
    ends with TypeError at [''.join] of its [bytes] items, before it writes
    anything to the device: no long command is sent, and no response is
    read or validated. *)
Theorem writeFrame_raises_TypeError (frame_number : Z) (data : bytes)
    (w : world D) :
  len data = FRAME_LENGTH ->
  0 <= frame_number <= 65535 ->
  writeFrame fuel frame_number data w = (Raise TypeError, w).
Proof.
  intros Hlen Hframe. unfold writeFrame.
  rewrite Hlen, Z.eqb_refl. rewrite bind_assert_true.
  unfold pack_H.
  destruct (Z.leb_spec 0 frame_number); [ | lia].
  destruct (Z.leb_spec frame_number 65535); [ | lia].
  reflexivity.
Qed.

Lemma writePage_raises_TypeError (page_number : Z) (data : bytes)
    (w w1 : world D) :
  len data = PAGE_LENGTH ->
  0 <= page_number <= 4294967295 ->
  authenticate authenticator fuel w = (Ok tt, w1) ->
  writePage authenticator fuel page_number data w = (Raise TypeError, w1).
Proof.
  intros Hlen Hpage Hauth. unfold writePage.
  rewrite Hlen, Z.eqb_refl. rewrite bind_assert_true.
  rewrite (bind_Ok _ _ _ _ _ Hauth).
  unfold pack_I.
  destruct (Z.leb_spec 0 page_number); [ | lia].
  destruct (Z.leb_spec page_number 4294967295); [ | lia].
  reflexivity.
Qed.

Lemma read_prologue (offset length card_type block_length max_length : Z)
    (w w1 : world D) :
  getCardType w = (Ok card_type, w1) ->
  (card_type = 1 /\ block_length = FRAME_LENGTH /\ max_length = PS1_CARD_SIZE)
  \/ (card_type = 2 /\ block_length = PAGE_LENGTH
      /\ max_length = PS2_CARD_SIZE) ->
  read authenticator fuel offset length w
  = (if offset + length >? max_length
     then raise (ValueError "Trying to read out of card.")
     else
       let read_block :=
         if card_type =? 1 then readFrame fuel
         else readPage authenticator fuel in
       let current_block := offset / block_length in
       let start_offset := offset mod block_length in
       ' (result_len, result) <-
         read_loop fuel read_block block_length length
           (- start_offset) current_block [] ;;
       first <- from_option IndexError (getitem result 0) ;;
       result <-
         from_option IndexError (setitem result 0 first.[start_offset :]) ;;
       result <-
         (if result_len >? length then
            last <- from_option IndexError (getitem result (-1)) ;;
            from_option IndexError
              (setitem result (-1) last.[: length - result_len])
          else ret result) ;;
       ret (bytes_join result)) w1.
Proof.
  intros Htype Hcard. unfold read. rewrite (bind_Ok _ _ _ _ _ Htype).
  destruct Hcard as [(-> & -> & ->) | (-> & -> & ->)]; reflexivity.
Qed.

Lemma write_prologue (offset card_type block_length max_length : Z)
    (data : bytes) (w w1 : world D) :
  getCardType w = (Ok card_type, w1) ->
  (card_type = 1 /\ block_length = FRAME_LENGTH /\ max_length = PS1_CARD_SIZE)
  \/ (card_type = 2 /\ block_length = PAGE_LENGTH
      /\ max_length = PS2_CARD_SIZE) ->
  write authenticator fuel offset data w
  = (if offset + len data >? max_length
     then raise (ValueError "Trying to write out of card.")
     else
       let read_block :=
         if card_type =? 1 then readFrame fuel
         else readPage authenticator fuel in
       let write_block :=
         if card_type =? 1 then writeFrame fuel
         else writePage authenticator fuel in
       let current_block := offset / block_length in
       let start_offset := offset mod block_length in
       data <-
         (if negb (start_offset =? 0) then
            block <- read_block current_block ;;
            ret (block.[: start_offset] ++ data)
          else ret data) ;;
       ' (current_block, data) <-
         write_loop fuel write_block block_length current_block data ;;
       let data_len := len data in
       if negb (data_len =? 0) then
         block <- read_block current_block ;;
         write_block current_block (data ++ block.[data_len :])
       else ret tt) w1.
Proof.
  intros Htype Hcard. unfold write. rewrite (bind_Ok _ _ _ _ _ Htype).
  destruct Hcard as [(-> & -> & ->) | (-> & -> & ->)]; reflexivity.
Qed.

(** X1.  The range check of [read] and [write]: a request that ends past the
    size of the detected card raises ValueError right after the card type
    was read, before any block is read or written. *)
Theorem out_of_card_is_refused (offset card_type max_length : Z)
    (w w1 : world D) :
  getCardType w = (Ok card_type, w1) ->
  (card_type = 1 /\ max_length = PS1_CARD_SIZE)
  \/ (card_type = 2 /\ max_length = PS2_CARD_SIZE) ->
  (forall length : Z,
      offset + length > max_length ->
      read authenticator fuel offset length w
      = (Raise (ValueError "Trying to read out of card."), w1))
  /\ (forall data : bytes,
         offset + len data > max_length ->
         write authenticator fuel offset data w
         = (Raise (ValueError "Trying to write out of card."), w1)).
Proof.
  intros Htype Hcard. split.
  - intros length Hout.
    rewrite (read_prologue offset length card_type
               (if card_type =? 1 then FRAME_LENGTH else PAGE_LENGTH)
               max_length w w1 Htype)
      by (destruct Hcard as [[-> ->] | [-> ->]]; simpl; tauto).
    apply Z.gt_lt, Z.gtb_lt in Hout. now rewrite Hout.
  - intros data Hout.
    rewrite (write_prologue offset card_type
               (if card_type =? 1 then FRAME_LENGTH else PAGE_LENGTH)
               max_length data w w1 Htype)
      by (destruct Hcard as [[-> ->] | [-> ->]]; simpl; tauto).
    apply Z.gt_lt, Z.gtb_lt in Hout. now rewrite Hout.
Qed.

(** C2.  A read of no bytes at the start of a block fails: the loop of
    [read] gathers no block, and [result[0]] raises IndexError. *)
Theorem read_of_nothing_raises_IndexError
    (offset card_type block_length max_length : Z) (w w1 : world D) :
  getCardType w = (Ok card_type, w1) ->
  (card_type = 1 /\ block_length = FRAME_LENGTH /\ max_length = PS1_CARD_SIZE)
  \/ (card_type = 2 /\ block_length = PAGE_LENGTH
      /\ max_length = PS2_CARD_SIZE) ->
  offset mod block_length = 0 ->
  offset <= max_length ->
  read authenticator fuel offset 0 w = (Raise IndexError, w1).
Proof.
  intros Htype Hcard Haligned Hrange.
  rewrite (read_prologue offset 0 card_type block_length max_length w w1
             Htype Hcard).
  destruct (Z.gtb_spec (offset + 0) max_length); [lia | ].
  cbv zeta. rewrite Haligned. simpl Z.opp.
  destruct fuel; reflexivity.
Qed.

End BlockIO.

(** ** The driver against the simulated devices *)

Lemma isAuthenticated_outcomes_witness :
  isAuthenticated 0 (fresh authenticated_reply)
  = (Ok true,
     World []
       [read_event [x55; x5a; x04; x00; xff; xff; x2b; x55];
        write_event isAuthenticated_command])
  /\ isAuthenticated 0 (fresh badly_stuffed_reply)
     = (Raise AssertionError,
        World []
          [read_event [x55; x5a; x04; x00; x00; x00; x2b; x55];
           write_event isAuthenticated_command]).
Proof.
  split.
  - refine (proj2 (proj1 (proj2
              (isAuthenticated_outcomes 0 (fresh authenticated_reply)
                 (World []
                    [read_event [x55; x5a; x04; x00; xff; xff; x2b; x55];
                     write_event isAuthenticated_command])
                 [x5a] [xff; xff; x2b; x55] _))) _).
    + reflexivity.
    + split; [reflexivity | now exists 2%nat].
  - refine (proj2 (proj2
              (isAuthenticated_outcomes 0 (fresh badly_stuffed_reply)
                 (World []
                    [read_event [x55; x5a; x04; x00; x00; x00; x2b; x55];
                     write_event isAuthenticated_command])
                 [x5a] [x00; x00; x2b; x55] _)) _ _).
    + reflexivity.
    + discriminate.
    + intros [_ [n E]]. destruct n; discriminate E.
Defined.

Lemma framing_error_is_fatal_witness :
  _responseRead (fresh garbled_reply)
  = (Raise framing_error, World [] [read_event [x00; x5a]])
  /\ fst (authenticate echo_seed 1 (fresh garbled_acknowledgement))
     = Raise framing_error.
Proof.
  split.
  - refine (proj1 (proj1 (proj2 (framing_error_is_fatal no_answers 0
                                   (fresh garbled_reply) [x00; x5a] []) _)
                     _)).
    + vm_compute. discriminate.
    + reflexivity.
  - destruct (proj1 (proj2 (proj2 (proj1
                (framing_error_is_fatal echo_seed 1 (fresh garbled_reply)
                   [x00; x5a] []))))
                (fresh garbled_acknowledgement) eq_refl) as [_ [H | [H _]]].
    + vm_compute in H. discriminate H.
    + exact H.
Defined.

Lemma getCardType_returns_the_byte_witness :
  getCardType (fresh unknown_card)
  = (Ok 3, World [] [read_event [x55; x03]; write_event getCardType_command]).
Proof.
  refine (proj1 (getCardType_returns_the_byte no_answers 0
                   (fresh unknown_card) [x55; x03] [] _) x03 _);
    reflexivity.
Defined.

(** C9 as it was claimed does not hold: a payload byte outside 0, 1, 2 is
    returned like any other, without an error. *)
Lemma getCardType_accepts_type_3 :
  fst (getCardType (fresh unknown_card)) = Ok 3.
Proof. reflexivity. Qed.

Lemma writeFrame_raises_TypeError_witness :
  writeFrame 0 0 (repeat xff 128) (fresh ps1_adapter)
  = (Raise TypeError, fresh ps1_adapter).
Proof.
  apply writeFrame_raises_TypeError.
  - reflexivity.
  - lia.
Defined.

Lemma read_of_nothing_raises_IndexError_witness :
  read no_answers 0 0 0 (fresh ps1_adapter)
  = (Raise IndexError, card_type_read ps1_adapter).
Proof.
  apply (read_of_nothing_raises_IndexError no_answers 0 0 1 FRAME_LENGTH
           PS1_CARD_SIZE).
  - reflexivity.
  - left. repeat split.
  - reflexivity.
  - vm_compute. discriminate.
Defined.

Lemma out_of_card_is_refused_witness :
  read no_answers 0 131071 2 (fresh ps1_adapter)
  = (Raise (ValueError "Trying to read out of card."),
     card_type_read ps1_adapter).
Proof.
  refine (proj1 (out_of_card_is_refused no_answers 0 131071 1 PS1_CARD_SIZE
                   (fresh ps1_adapter) (card_type_read ps1_adapter) _ _) 2 _).
  - reflexivity.
  - left. split; reflexivity.
  - reflexivity.
Defined.

(** C1.  A write does not reach the card, so reading back does not return
    what was written: on a PS1 card and on a PS2 card alike, [write] of one
    block ends with the TypeError of the block writer, and the card still
    holds the block it held. *)
Theorem write_then_read_returns_the_old_block :
  (let r := write no_answers 8 0 (repeat xff 128) (fresh ps1_adapter) in
   fst r = Raise TypeError
   /\ fst (read no_answers 8 0 128 (snd r)) = Ok (repeat x00 128))
  /\
  (let r := write no_answers 8 528 (repeat xff 528) (fresh ps2_adapter) in
   fst r = Raise TypeError
   /\ fst (read no_answers 8 528 528 (snd r)) = Ok (repeat x01 528)).
Proof. vm_compute. repeat split; reflexivity. Qed.

(** C10.  A write of whole blocks at a block boundary reads no block, and
    writes none either: the only commands issued are the card type request
    and, on a PS2 card, the authentication probe of the page writer; the
    first block write ends with TypeError and the blocks of the card stay
    as they were. *)
Theorem aligned_write_issues_no_block_command :
  (let r := write no_answers 8 128 (repeat xff 256) (fresh ps1_adapter) in
   fst r = Raise TypeError
   /\ commands_of (trace (snd r)) = [getCardType_command]
   /\ sim_blocks (device (snd r)) 1 = Some (repeat x01 128)
   /\ sim_blocks (device (snd r)) 2 = Some (repeat x02 128))
  /\
  (let r := write no_answers 8 528 (repeat xff 1056) (fresh ps2_adapter) in
   fst r = Raise TypeError
   /\ commands_of (trace (snd r))
      = [getCardType_command; isAuthenticated_command]
   /\ sim_blocks (device (snd r)) 1 = Some (repeat x01 528)
   /\ sim_blocks (device (snd r)) 2 = Some (repeat x02 528)).
Proof. vm_compute. repeat split; reflexivity. Qed.

(** C7.  At the end of the card: a read of one byte up to the last byte
    succeeds and a read that passes it is refused as out of the card, but
    the read of no bytes at the very end, which is in range, raises
    IndexError, and a write of the last block ends with the TypeError of
    the block writer. *)
Theorem read_at_the_end_of_the_card :
  fst (read no_answers 8 131071 1 (fresh ps1_adapter)) = Ok [xff]
  /\ fst (read no_answers 8 131071 2 (fresh ps1_adapter))
     = Raise (ValueError "Trying to read out of card.")
  /\ fst (read no_answers 8 131072 0 (fresh ps1_adapter)) = Raise IndexError
  /\ fst (read no_answers 8 8651279 1 (fresh ps2_adapter)) = Ok [x00]
  /\ fst (read no_answers 8 8651279 2 (fresh ps2_adapter))
     = Raise (ValueError "Trying to read out of card.")
  /\ fst (read no_answers 8 8651280 0 (fresh ps2_adapter)) = Raise IndexError
  /\ fst (write no_answers 8 130944 (repeat xff 128) (fresh ps1_adapter))
     = Raise TypeError
  /\ fst (write no_answers 8 8650752 (repeat xff 528) (fresh ps2_adapter))
     = Raise TypeError.
Proof. vm_compute. repeat split; reflexivity. Qed.

(** ** Long responses of the simulated adapter *)

(** The length prefix written by [pack('<h', n)] is read back by
    [unpack('<h', ...)] as [n]. *)
Lemma declared_length_pack (n : Z) :
  0 <= n <= 32767 ->
  declared_length (byte_of_Z n) (byte_of_Z (n mod 65536 / 256)) = n.
Proof.
  intros Hn. unfold declared_length. rewrite !Z_of_byte_of_Z.
  rewrite (Z.mod_small n 65536) by lia.
  rewrite (Z.mod_small (n / 256) 256)
    by (split; [apply Z.div_pos; lia | apply Z.div_lt_upper_bound; lia]).
  pose proof (Z.div_mod n 256 ltac:(lia)) as Hdm.
  replace (n mod 256 + 256 * (n / 256)) with n by lia.
  destruct (Z.ltb_spec n 32768); [reflexivity | lia].
Qed.

Lemma packets_of_concat (n : nat) :
  forall data : bytes,
    (List.length data <= n)%nat ->
    List.concat (packets_of n data) = data.
Proof.
  induction n as [ | n IH]; intros data Hn.
  - destruct data; [reflexivity | simpl in Hn; lia].
  - destruct data as [ | b data]; [reflexivity | ].
    cbn [packets_of List.concat].
    rewrite IH.
    + apply firstn_skipn.
    + rewrite length_skipn. simpl List.length in *. lia.
Qed.

Lemma packets_of_needed (n : nat) :
  forall (data : bytes) (accumulated : Z),
    (List.length data <= n)%nat ->
    needed (accumulated + len data) accumulated (packets_of n data).
Proof.
  induction n as [ | n IH]; intros data accumulated Hn.
  - destruct data; [ | simpl in Hn; lia]. simpl. unfold len. simpl. lia.
  - destruct data as [ | b data]; [simpl; unfold len; simpl; lia | ].
    cbn [packets_of needed]. split.
    + rewrite len_cons. pose proof (len_nonneg data). lia.
    + replace (accumulated + len (b :: data))
        with (accumulated + len (firstn 64 (b :: data))
              + len (skipn 64 (b :: data))).
      * apply IH. rewrite length_skipn. simpl List.length in *. lia.
      * rewrite <- Z.add_assoc, <- len_app, firstn_skipn. reflexivity.
Qed.

Lemma packets_of_count (n : nat) :
  forall data : bytes,
    (List.length (packets_of n data) <= List.length data)%nat.
Proof.
  induction n as [ | n IH]; intros data.
  - simpl. lia.
  - destruct data as [ | b data]; [simpl; lia | ].
    cbn [packets_of List.length].
    specialize (IH (skipn 64 (b :: data))).
    rewrite length_skipn in IH. cbn [List.length] in IH. lia.
Qed.

(** Reading the packets the adapter has pending empties them in order. *)
Lemma sim_delivers (packets : list bytes) :
  forall a : adapter,
    sim_pending a = packets ->
    delivers a packets (answer a []).
Proof.
  induction packets as [ | packet rest IH]; intros a Hp.
  - simpl. destruct a. simpl in *. now subst.
  - simpl. exists (answer a rest). split.
    + unfold sim_read. now rewrite Hp.
    + apply (IH (answer a rest)). reflexivity.
Qed.

Lemma long_response_packets (payload : bytes) :
  len payload <= 32767 ->
  long_response payload
  = (x55 :: x5a :: byte_of_Z (len payload)
       :: byte_of_Z (len payload mod 65536 / 256) :: firstn 60 payload)
    :: packets_of (3 + List.length payload) (skipn 60 payload).
Proof.
  intros Hlen. pose proof (len_nonneg payload) as Hpos.
  unfold long_response, pack_h.
  destruct (Z.leb_spec (-32768) (len payload)); [ | lia].
  destruct (Z.leb_spec (len payload) 32767); [ | lia].
  reflexivity.
Qed.

Lemma long_response_read (fuel : nat) (a : adapter)
    (l : list event) (payload : bytes) :
  len payload <= 32767 ->
  sim_pending a = long_response payload ->
  (List.length (long_response payload) <= S fuel)%nat ->
  _longResponseRead fuel (World a l)
  = (Ok (RESPONSE_STATUS_SUCCES, payload),
     World (answer a [])
           (rev (map read_event (long_response payload)) ++ l)).
Proof.
  intros Hlen Hpending Hfuel.
  pose proof (len_nonneg payload) as Hpos.
  rewrite (long_response_packets payload Hlen) in *.
  set (lo := byte_of_Z (len payload)) in *.
  set (hi := byte_of_Z (len payload mod 65536 / 256)) in *.
  set (conts := packets_of (3 + List.length payload) (skipn 60 payload)) in *.
  assert (Hread : bulkRead BULK_READ_ENDPOINT BULK_READ_LENGTH
                    (device (World a l))
                  = (Some (x55 :: x5a :: lo :: hi :: firstn 60 payload),
                     answer a conts)).
  { simpl. unfold sim_read. rewrite Hpending. reflexivity. }
  assert (Hrestlen :
            (List.length (skipn 60 payload) <= 3 + List.length payload)%nat).
  { rewrite length_skipn. lia. }
  rewrite (longResponseRead_success fuel (World a l) lo hi
             (firstn 60 payload) conts _ (answer a []) Hread).
  - subst conts. rewrite packets_of_concat by exact Hrestlen.
    rewrite firstn_skipn. cbn [log map rev]. now rewrite <- app_assoc.
  - apply (sim_delivers _ (answer a conts)). reflexivity.
  - subst lo hi conts. rewrite declared_length_pack by lia.
    replace (len payload)
      with (len (firstn 60 payload) + len (skipn 60 payload))
      by (rewrite <- len_app, firstn_skipn; reflexivity).
    now apply packets_of_needed.
  - cbn [List.length] in Hfuel. lia.
Qed.

(** The number of packets of a payload: one for every 64 bytes. *)
Lemma packets_of_length (n : nat) :
  forall data : bytes,
    (List.length (packets_of n data) <= (List.length data + 63) / 64)%nat.
Proof.
  induction n as [ | n IH]; intros data.
  - simpl. lia.
  - destruct data as [ | b data]; [simpl; lia | ].
    cbn [packets_of].
    change (List.length (firstn 64 (b :: data)
                         :: packets_of n (skipn 64 (b :: data))))
      with (S (List.length (packets_of n (skipn 64 (b :: data))))).
    specialize (IH (skipn 64 (b :: data))).
    rewrite length_skipn in IH.
    assert (Hm : (1 <= List.length (b :: data))%nat) by (simpl; lia).
    set (m := List.length (b :: data)) in *.
    destruct (Nat.le_gt_cases m 64) as [Hle | Hgt].
    + replace (m - 64)%nat with 0%nat in IH by lia.
      change ((0 + 63) / 64)%nat with 0%nat in IH.
      assert ((1 <= (m + 63) / 64)%nat).
      { apply Nat.div_le_lower_bound; lia. }
      lia.
    + replace (m + 63)%nat with ((m - 64 + 63) + 1 * 64)%nat by lia.
      rewrite Nat.div_add by lia. lia.
Qed.

Lemma long_response_length (payload : bytes) :
  len payload <= 32767 ->
  (List.length (long_response payload)
   <= S ((List.length payload - 60 + 63) / 64))%nat.
Proof.
  intros Hlen. rewrite (long_response_packets payload Hlen).
  cbn [List.length]. apply le_n_S.
  rewrite <- (length_skipn 60 payload). apply packets_of_length.
Qed.

(** ** Reading a range of bytes *)

Lemma getitem_first {A : Type} (x : A) (s : list A) :
  getitem (x :: s) 0 = Some x.
Proof.
  unfold getitem. rewrite len_cons. pose proof (len_nonneg s).
  change (0 <? 0) with false. cbv iota zeta.
  destruct (Z.leb_spec 0 0); [ | lia].
  destruct (Z.ltb_spec 0 (1 + len s)); [ | lia]. reflexivity.
Qed.

Lemma setitem_first {A : Type} (x v : A) (s : list A) :
  setitem (x :: s) 0 v = Some (v :: s).
Proof.
  unfold setitem. rewrite len_cons. pose proof (len_nonneg s).
  change (0 <? 0) with false. cbv iota zeta.
  destruct (Z.leb_spec 0 0); [ | lia].
  destruct (Z.ltb_spec 0 (1 + len s)); [ | lia]. reflexivity.
Qed.

Lemma replace_nth_last {A : Type} (pre : list A) (x v : A) :
  replace_nth (List.length pre) v (pre ++ [x]) = pre ++ [v].
Proof. induction pre as [ | y pre IH]; simpl; congruence. Qed.

Lemma getitem_last {A : Type} (pre : list A) (x : A) :
  getitem (pre ++ [x]) (-1) = Some x.
Proof.
  unfold getitem. rewrite len_app. change (len [x]) with 1.
  pose proof (len_nonneg pre). change (-1 <? 0) with true. cbv iota zeta.
  destruct (Z.leb_spec 0 (-1 + (len pre + 1))); [ | lia].
  destruct (Z.ltb_spec (-1 + (len pre + 1)) (len pre + 1)); [ | lia].
  cbn [andb].
  replace (Z.to_nat (-1 + (len pre + 1))) with (List.length pre)
    by (unfold len; lia).
  rewrite nth_error_app2 by lia. now rewrite Nat.sub_diag.
Qed.

Lemma setitem_last {A : Type} (pre : list A) (x v : A) :
  setitem (pre ++ [x]) (-1) v = Some (pre ++ [v]).
Proof.
  unfold setitem. rewrite len_app. change (len [x]) with 1.
  pose proof (len_nonneg pre). change (-1 <? 0) with true. cbv iota zeta.
  destruct (Z.leb_spec 0 (-1 + (len pre + 1))); [ | lia].
  destruct (Z.ltb_spec (-1 + (len pre + 1)) (len pre + 1)); [ | lia].
  cbn [andb].
  replace (Z.to_nat (-1 + (len pre + 1))) with (List.length pre)
    by (unfold len; lia).
  now rewrite replace_nth_last.
Qed.

Lemma len_concat_blocks (block_length : Z) (blocks : list bytes) :
  Forall (fun b => len b = block_length) blocks ->
  len (List.concat blocks) = block_length * len blocks.
Proof.
  induction 1 as [ | b blocks Hb _ IH]; simpl List.concat.
  - unfold len. simpl. lia.
  - rewrite len_app, len_cons, IH, Hb. lia.
Qed.

Lemma len_skipn {A : Type} (n : Z) (s : list A) :
  0 <= n <= len s -> len (skipn (Z.to_nat n) s) = len s - n.
Proof. intros H. unfold len in *. rewrite length_skipn. lia. Qed.

Lemma len_firstn {A : Type} (n : Z) (s : list A) :
  0 <= n <= len s -> len (firstn (Z.to_nat n) s) = n.
Proof. intros H. unfold len in *. rewrite length_firstn. lia. Qed.

Lemma firstn_over_app {A : Type} (n : nat) (s t : list A) :
  (List.length s <= n)%nat ->
  firstn n (s ++ t) = s ++ firstn (n - List.length s) t.
Proof.
  intros H. rewrite firstn_app. f_equal. now apply firstn_all2.
Qed.

Section Trim.

Context {D : Type}.

(** What [read] returns once its loop has gathered the blocks [blocks]: the
    bytes of the blocks from [start_offset] on, [length] of them. *)
Lemma trim_result_spec (block_length start_offset length : Z)
    (blocks : list bytes) (w : world D) :
  blocks <> [] ->
  Forall (fun b => len b = block_length) blocks ->
  0 <= start_offset < block_length ->
  0 < length ->
  length <= - start_offset + block_length * len blocks ->
  - start_offset + block_length * len blocks - block_length < length ->
  trim_result start_offset length
    (- start_offset + block_length * len blocks) blocks w
  = (Ok (firstn (Z.to_nat length)
           (skipn (Z.to_nat start_offset) (List.concat blocks))), w).
Proof.
  intros Hne Hall Hstart Hlength Henough Hlast.
  destruct blocks as [ | b0 rest]; [contradiction | ]. clear Hne.
  pose proof (Forall_inv Hall) as Hb0. cbv beta in Hb0.
  pose proof (Forall_inv_tail Hall) as Hrest.
  remember (- start_offset + block_length * len (b0 :: rest))
    as result_len eqn:Hresult_len.
  unfold trim_result.
  rewrite getitem_first. cbn [from_option]. rewrite bind_ret.
  rewrite setitem_first. cbn [from_option]. rewrite bind_ret.
  rewrite slice_from by lia.
  set (b0' := skipn (Z.to_nat start_offset) b0).
  assert (Hb0' : len b0' = block_length - start_offset).
  { subst b0'. rewrite len_skipn; lia. }
  assert (Hskip : skipn (Z.to_nat start_offset) (List.concat (b0 :: rest))
                  = b0' ++ List.concat rest).
  { simpl List.concat. rewrite skipn_app.
    replace (Z.to_nat start_offset - List.length b0)%nat with 0%nat
      by (unfold len in Hb0; lia).
    reflexivity. }
  rewrite Hskip. clear Hskip. clearbody b0'.
  assert (Htotal : len (b0' ++ List.concat rest) = result_len).
  { rewrite len_app, Hb0', (len_concat_blocks block_length rest Hrest).
    rewrite Hresult_len, len_cons. lia. }
  destruct (Z.gtb_spec result_len length) as [Hgt | Hle].
  - (* the last block is cut *)
    assert (Hcut : length - result_len = - (result_len - length)) by lia.
    destruct rest as [ | r rest'].
    + (* one block only *)
      change [b0'] with ([] ++ [b0']).
      rewrite getitem_last.
      unfold bind, from_option, ret; cbv beta iota.
      rewrite setitem_last. cbn [app bytes_join List.concat].
      rewrite !app_nil_r in *.
      rewrite Hcut, slice_to_neg by lia.
      do 3 f_equal. lia.
    + destruct (exists_last (l := r :: rest')) as (pre & x & Hpre);
        [discriminate | ].
      rewrite Hpre in *. clear Hpre r rest'.
      pose proof (Forall_elt _ _ _ Hrest) as Hx. cbv beta in Hx.
      apply Forall_app in Hrest as [Hpre _].
      change (b0' :: pre ++ [x]) with ((b0' :: pre) ++ [x]).
      rewrite getitem_last.
      unfold bind, from_option, ret; cbv beta iota.
      rewrite setitem_last. unfold bytes_join.
      rewrite Hcut, slice_to_neg by lia.
      rewrite concat_app in Htotal. cbn [List.concat] in Htotal.
      rewrite app_nil_r, app_assoc, len_app in Htotal.
      rewrite !concat_app. cbn [List.concat]. rewrite !app_nil_r.
      rewrite (app_assoc b0' (List.concat pre) x).
      rewrite firstn_over_app by (unfold len in *; lia).
      replace (Z.to_nat length - List.length (b0' ++ List.concat pre))%nat
        with (Z.to_nat (len x - (result_len - length)))
        by (unfold len in *; lia).
      reflexivity.
  - (* the blocks end where the request ends *)
    unfold bind, ret; cbv beta iota. cbn [bytes_join List.concat].
    rewrite firstn_all2 by (unfold len in *; lia). reflexivity.
Qed.

End Trim.

(** ** Reading blocks in a row *)

Lemma block_range_S (blk : Z -> bytes) (first : Z) (count : nat) :
  block_range blk first (S count)
  = blk first :: block_range blk (first + 1) count.
Proof.
  unfold block_range. cbn [seq map]. rewrite Z.add_0_r. f_equal.
  rewrite <- seq_shift, map_map. apply map_ext. intros k.
  f_equal. lia.
Qed.

Lemma block_range_length (blk : Z -> bytes) (first : Z) (count : nat) :
  len (block_range blk first count) = Z.of_nat count.
Proof.
  unfold block_range, len. now rewrite length_map, length_seq.
Qed.

Section ReadLoop.

Context {D : Type}.
Variable read_block : Z -> M D bytes.
Variable block_length : Z.
Variable blk : Z -> bytes.
Variable good : world D -> Prop.
Variables low high : Z.

Hypothesis block_length_pos : 0 < block_length.
Hypothesis blk_length :
  forall i, low <= i < high -> len (blk i) = block_length.
Hypothesis read_block_ok :
  forall i w,
    low <= i < high -> good w ->
    exists w', read_block i w = (Ok (blk i), w') /\ good w'.

(** The loop of [read] gathers [m] blocks when [m] blocks are what the
    request needs and the loop is allowed that many iterations. *)
Lemma read_loop_runs (m : nat) :
  forall (n : nat) (length result_len current_block : Z)
         (result : list bytes) (w : world D),
    good w ->
    (m <= n)%nat ->
    low <= current_block ->
    current_block + Z.of_nat m <= high ->
    length <= result_len + block_length * Z.of_nat m ->
    (m <> 0%nat ->
     result_len + block_length * (Z.of_nat m - 1) < length) ->
    exists w',
      read_loop n read_block block_length length result_len current_block
        result w
      = (Ok (result_len + block_length * Z.of_nat m,
             result ++ block_range blk current_block m), w')
      /\ good w'.
Proof.
  induction m as [ | m IH];
    intros n length result_len current_block result w
           Hgood Hn Hlow Hhigh Henough Hneeded.
  - exists w. split; [ | exact Hgood].
    replace (result_len + block_length * Z.of_nat 0) with result_len in *
      by lia.
    unfold block_range. cbn [seq map]. rewrite app_nil_r.
    destruct n; cbn [read_loop];
      (destruct (Z.ltb_spec result_len length); [lia | reflexivity]).
  - destruct n as [ | n]; [lia | ].
    assert (Hlt : result_len < length).
    { pose proof (Hneeded ltac:(discriminate)). nia. }
    cbn [read_loop]. apply Z.ltb_lt in Hlt. rewrite Hlt.
    destruct (read_block_ok current_block w ltac:(lia) Hgood)
      as (w1 & Hread & Hgood1).
    rewrite (bind_Ok _ _ _ _ _ Hread).
    rewrite (blk_length current_block) by lia.
    rewrite Z.eqb_refl, bind_assert_true.
    specialize (Hneeded ltac:(discriminate)).
    assert (Henough' :
              length <= result_len + block_length + block_length * Z.of_nat m)
      by nia.
    assert (Hneeded' :
              m <> 0%nat ->
              result_len + block_length + block_length * (Z.of_nat m - 1)
              < length) by (intros _; nia).
    destruct (IH n length (result_len + block_length) (current_block + 1)
                (result ++ [blk current_block]) w1 Hgood1
                ltac:(lia) ltac:(lia) ltac:(lia) Henough' Hneeded')
      as (w' & Hloop & Hgood').
    exists w'. split; [ | exact Hgood'].
    rewrite Hloop, block_range_S, <- app_assoc. cbn [app].
    do 2 f_equal. f_equal. lia.
Qed.

(** The same when the first block is read from a world that need not be
    a good one, and leaves a good one. *)
Lemma read_loop_runs_after_first (m : nat) (n : nat)
    (length result_len current_block : Z) (result : list bytes)
    (w w1 : world D) :
  read_block current_block w = (Ok (blk current_block), w1) ->
  good w1 ->
  (S m <= n)%nat ->
  low <= current_block ->
  current_block + Z.of_nat (S m) <= high ->
  length <= result_len + block_length * Z.of_nat (S m) ->
  result_len + block_length * Z.of_nat m < length ->
  exists w',
    read_loop n read_block block_length length result_len current_block
      result w
    = (Ok (result_len + block_length * Z.of_nat (S m),
           result ++ block_range blk current_block (S m)), w')
    /\ good w'.
Proof.
  intros Hread Hgood Hn Hlow Hhigh Henough Hneeded.
  destruct n as [ | n]; [lia | ].
  assert (Hlt : result_len < length) by nia.
  cbn [read_loop]. apply Z.ltb_lt in Hlt. rewrite Hlt.
  rewrite (bind_Ok _ _ _ _ _ Hread).
  rewrite (blk_length current_block) by lia.
  rewrite Z.eqb_refl, bind_assert_true.
  destruct (read_loop_runs m n length (result_len + block_length)
              (current_block + 1) (result ++ [blk current_block]) w1 Hgood
              ltac:(lia) ltac:(lia) ltac:(lia) ltac:(nia)
              ltac:(intros _; nia))
    as (w' & Hloop & Hgood').
  exists w'. split; [ | exact Hgood'].
  rewrite Hloop, block_range_S, <- app_assoc. cbn [app].
  do 2 f_equal. f_equal. lia.
Qed.

End ReadLoop.

(** The blocks a request touches, counted from the block it starts in. *)
Lemma blocks_touched_bounds (block_length start_offset length : Z) :
  0 < block_length -> 0 <= start_offset -> 0 < length ->
  let m := Z.of_nat (blocks_touched block_length start_offset length) in
  1 <= m
  /\ length <= - start_offset + block_length * m
  /\ - start_offset + block_length * (m - 1) < length.
Proof.
  intros Hb Hs Hl. unfold blocks_touched.
  set (q := (start_offset + length - 1) / block_length).
  assert (Hq : 0 <= q) by (apply Z.div_pos; lia).
  pose proof (Z.div_mod (start_offset + length - 1) block_length
                ltac:(lia)) as Hdm.
  pose proof (Z.mod_pos_bound (start_offset + length - 1) block_length Hb)
    as Hmod.
  fold q in Hdm. cbv zeta. rewrite Z2Nat.id by lia.
  repeat split; nia.
Qed.

(** ** Reading the card of the simulated adapter *)

Lemma slice_middle (header block trailer : bytes) (i k : Z) :
  len header = i -> len trailer = k -> 0 < k ->
  (header ++ block ++ trailer).[i : - k] = block.
Proof.
  intros Hh Ht Hk. pose proof (len_nonneg header).
  pose proof (len_nonneg block).
  unfold slice, clamp. rewrite !len_app, Hh, Ht.
  destruct (Z.ltb_spec i 0); [lia | ].
  destruct (Z.ltb_spec (- k) 0); [ | lia].
  rewrite Z.min_l by lia. rewrite Z.max_l by lia.
  replace (Z.to_nat i) with (List.length header) by (unfold len in Hh; lia).
  rewrite skipn_app, skipn_all, Nat.sub_diag. cbn [skipn app].
  replace (Z.to_nat (- k + (i + (len block + k)) - i))
    with (List.length block + 0)%nat by (unfold len; lia).
  rewrite firstn_app_2. cbn [firstn]. apply app_nil_r.
Qed.

Lemma frame_number_decoded (n : Z) :
  0 <= n <= 65535 ->
  256 * Z_of_byte (byte_of_Z (n / 256)) + Z_of_byte (byte_of_Z n) = n.
Proof.
  intros Hn. rewrite !Z_of_byte_of_Z.
  rewrite (Z.mod_small (n / 256) 256)
    by (split; [apply Z.div_pos; lia | apply Z.div_lt_upper_bound; lia]).
  pose proof (Z.div_mod n 256 ltac:(lia)). lia.
Qed.

Lemma page_number_decoded (n : Z) :
  0 <= n <= 4294967295 ->
  Z_of_byte (byte_of_Z n) + 256 * Z_of_byte (byte_of_Z (n / 256))
  + 65536 * Z_of_byte (byte_of_Z (n / 65536))
  + 16777216 * Z_of_byte (byte_of_Z (n / 16777216)) = n.
Proof.
  intros Hn. rewrite !Z_of_byte_of_Z.
  change 65536 with (256 * 256). change 16777216 with (256 * 256 * 256).
  rewrite <- !Z.div_div by lia.
  set (q1 := n / 256). set (q2 := q1 / 256). set (q3 := q2 / 256).
  pose proof (Z.div_mod n 256 ltac:(lia)) as H0. fold q1 in H0.
  pose proof (Z.div_mod q1 256 ltac:(lia)) as H1. fold q2 in H1.
  pose proof (Z.div_mod q2 256 ltac:(lia)) as H2. fold q3 in H2.
  assert (Hq1 : 0 <= q1 < 16777216).
  { subst q1. split; [apply Z.div_pos; lia | ].
    apply Z.div_lt_upper_bound; lia. }
  assert (Hq2 : 0 <= q2 < 65536).
  { subst q2. split; [apply Z.div_pos; lia | ].
    apply Z.div_lt_upper_bound; lia. }
  assert (Hq3 : 0 <= q3 < 256).
  { subst q3. split; [apply Z.div_pos; lia | ].
    apply Z.div_lt_upper_bound; lia. }
  rewrite (Z.mod_small q3 256) by lia. lia.
Qed.

Lemma sim_write_readFrame (a : adapter) (hi lo : byte) (tail : bytes) :
  sim_write
    (xaa :: x42 :: x8c :: x00 :: x81 :: x52 :: x00 :: x00 :: hi :: lo :: tail)
    a
  = match sim_blocks a (Z.to_nat (256 * Z_of_byte hi + Z_of_byte lo)) with
    | Some block =>
        answer a (long_response
          ([xff; x00; x5a; x5d; x00; x00; x5c; x5d; hi; lo]
           ++ block ++ [x00; x47]))
    | None => answer a []
    end.
Proof. reflexivity. Qed.

Lemma sim_write_readPage (a : adapter) (p0 p1 p2 p3 : byte) (tail : bytes) :
  sim_authenticated a = true ->
  sim_write (xaa :: x52 :: x03 :: p0 :: p1 :: p2 :: p3 :: tail) a
  = match sim_blocks a
            (Z.to_nat (Z_of_byte p0 + 256 * Z_of_byte p1
                       + 65536 * Z_of_byte p2 + 16777216 * Z_of_byte p3)) with
    | Some block => answer a (long_response block)
    | None => answer a []
    end.
Proof.
  intros Hauth. unfold sim_write. cbn [starts_with].
  change (Byte.eqb xaa xaa) with true. change (Byte.eqb x40 x52) with false.
  change (Byte.eqb x42 x52) with false. change (Byte.eqb x52 x52) with true.
  change (Byte.eqb x03 x03) with true. cbn [andb]. rewrite Hauth.
  reflexivity.
Qed.

Section SimulatedCard.

Variable authenticator : bytes -> list bytes.
Variable fuel : nat.
Variable blocks : nat -> option bytes.
Variables (ack : patience) (grants : bool).

(** A frame of the simulated PS1 card is read as it is stored. *)
Lemma sim_readFrame (authenticated : bool) (i : Z) (block : bytes)
    (l : list event) :
  let a := Adapter x01 blocks authenticated ack grants [] in
  (2 <= fuel)%nat ->
  0 <= i <= 65535 ->
  blocks (Z.to_nat i) = Some block ->
  len block = FRAME_LENGTH ->
  exists l', readFrame fuel i (World a l) = (Ok block, World a l').
Proof.
  intros a Hfuel Hi Hblock Hlen.
  unfold readFrame.
  assert (Hpack : pack_H i = Ok [byte_of_Z (i / 256); byte_of_Z i]).
  { unfold pack_H.
    destruct (Z.leb_spec 0 i); [ | lia].
    destruct (Z.leb_spec i 65535); [ | lia]. reflexivity. }
  rewrite (bind_lift_Ok _ _ _ _ Hpack).
  pose proof (frame_number_decoded i Hi) as Hdecoded.
  remember (byte_of_Z (i / 256)) as hi eqn:Hhi.
  remember (byte_of_Z i) as lo eqn:Hlo.
  set (payload := [xff; x00; x5a; x5d; x00; x00; x5c; x5d; hi; lo]
                  ++ block ++ [x00; x47]).
  assert (Hwrite :
            _longCommandWrite
              (PyBytes ([x81; x52; x00; x00] ++ [hi; lo] ++ PS1_COMMAND_TAIL))
              (World a l)
            = (Ok tt,
               World (answer a (long_response payload))
                     (write_event
                        (xaa :: x42 :: [x8c; x00]
                         ++ [x81; x52; x00; x00] ++ [hi; lo]
                         ++ PS1_COMMAND_TAIL) :: l))).
  { rewrite (longCommandWrite_bytes _ [x8c; x00]) by reflexivity.
    f_equal. f_equal. cbn [device bulkWrite simulated_adapter].
    cbn [app]. rewrite sim_write_readFrame, Hdecoded.
    cbn [sim_blocks a]. now rewrite Hblock. }
  rewrite (bind_Ok _ _ _ _ _ Hwrite).
  assert (Hpayload : len payload = 140).
  { subst payload. rewrite !len_app, Hlen. reflexivity. }
  assert (Hcount : (List.length (long_response payload) <= S fuel)%nat).
  { pose proof (long_response_length payload ltac:(lia)) as Hcount.
    replace (List.length payload) with 140%nat in Hcount
      by (unfold len in Hpayload; lia).
    change ((140 - 60 + 63) / 64)%nat with 2%nat in Hcount. lia. }
  rewrite (bind_Ok _ _ _ _ _
             (long_response_read fuel
                (answer a (long_response payload)) _ payload
                ltac:(lia) eq_refl Hcount)).
  cbv beta iota.
  change (bytes_eqb RESPONSE_STATUS_SUCCES RESPONSE_STATUS_SUCCES) with true.
  rewrite bind_assert_true.
  subst payload.
  rewrite (slice_middle _ block [x00; x47] 10 2) by (reflexivity || lia).
  rewrite Hlen, Z.eqb_refl, bind_assert_true.
  eexists. reflexivity.
Qed.

(** An authenticated adapter lets [authenticate] through at its first
    probe. *)
Lemma sim_authenticate_unlocked (t : byte) (l : list event) :
  let a := Adapter t blocks true ack grants [] in
  exists l', authenticate authenticator fuel (World a l) = (Ok tt, World a l').
Proof.
  intros a. unfold authenticate. rewrite authenticate_loop_unfold.
  eexists. destruct fuel; vm_compute; reflexivity.
Qed.

(** A page of the simulated PS2 card is read as it is stored, once
    [authenticate] went through. *)
Lemma sim_readPage_authenticated (i : Z) (block : bytes)
    (w : world adapter) (l1 : list event) :
  let a := Adapter x02 blocks true ack grants [] in
  (8 <= fuel)%nat ->
  0 <= i <= 4294967295 ->
  blocks (Z.to_nat i) = Some block ->
  len block = PAGE_LENGTH ->
  authenticate authenticator fuel w = (Ok tt, World a l1) ->
  exists l',
    readPage authenticator fuel i w = (Ok block, World a l').
Proof.
  intros a Hfuel Hi Hblock Hlen Hauth.
  unfold readPage.
  rewrite (bind_Ok _ _ _ _ _ Hauth).
  assert (Hpack : pack_I i
                  = Ok [byte_of_Z i; byte_of_Z (i / 256);
                        byte_of_Z (i / 65536); byte_of_Z (i / 16777216)]).
  { unfold pack_I.
    destruct (Z.leb_spec 0 i); [ | lia].
    destruct (Z.leb_spec i 4294967295); [ | lia]. reflexivity. }
  rewrite (bind_lift_Ok _ _ _ _ Hpack).
  pose proof (page_number_decoded i Hi) as Hdecoded.
  remember (byte_of_Z i) as p0 eqn:Hp0.
  remember (byte_of_Z (i / 256)) as p1 eqn:Hp1.
  remember (byte_of_Z (i / 65536)) as p2 eqn:Hp2.
  remember (byte_of_Z (i / 16777216)) as p3 eqn:Hp3.
  rewrite (bind_Ok _ _ _ _ _ (commandWrite_bytes _ _)).
  cbn [device bulkWrite simulated_adapter app].
  rewrite (sim_write_readPage a p0 p1 p2 p3 [x55; x2b] eq_refl), Hdecoded.
  cbn [sim_blocks a]. rewrite Hblock.
  assert (Hcount : (List.length (long_response block) <= S fuel)%nat).
  { pose proof (long_response_length block
                  ltac:(rewrite Hlen; unfold PAGE_LENGTH; lia)) as Hcount.
    replace (List.length block) with 528%nat in Hcount
      by (unfold len, PAGE_LENGTH in Hlen; lia).
    change ((528 - 60 + 63) / 64)%nat with 8%nat in Hcount. lia. }
  rewrite (bind_Ok _ _ _ _ _
             (long_response_read fuel
                (answer a (long_response block)) _ block
                ltac:(rewrite Hlen; unfold PAGE_LENGTH; lia) eq_refl Hcount)).
  cbv beta iota.
  change (bytes_eqb RESPONSE_STATUS_SUCCES RESPONSE_STATUS_SUCCES) with true.
  rewrite bind_assert_true.
  rewrite Hlen, Z.eqb_refl, bind_assert_true.
  eexists. reflexivity.
Qed.

(** A page of the simulated PS2 card is read as it is stored. *)
Lemma sim_readPage (i : Z) (block : bytes) (l : list event) :
  let a := Adapter x02 blocks true ack grants [] in
  (8 <= fuel)%nat ->
  0 <= i <= 4294967295 ->
  blocks (Z.to_nat i) = Some block ->
  len block = PAGE_LENGTH ->
  exists l',
    readPage authenticator fuel i (World a l) = (Ok block, World a l').
Proof.
  intros a Hfuel Hi Hblock Hlen.
  destruct (sim_authenticate_unlocked x02 l) as (l1 & Hauth).
  now apply (sim_readPage_authenticated i block (World a l) l1).
Qed.

End SimulatedCard.

(** ** Byte ranges of the simulated cards *)

Lemma block_range_Forall (blocks : nat -> option bytes) (count : nat)
    (size first : Z) (m : nat) :
  card_of blocks count size ->
  0 <= first -> first + Z.of_nat m <= Z.of_nat count ->
  Forall (fun b => len b = size) (block_range (block_of blocks) first m).
Proof.
  intros Hcard Hfirst Hlast. unfold block_range.
  apply Forall_forall. intros b Hin.
  apply in_map_iff in Hin as (k & <- & Hk). apply in_seq in Hk.
  unfold block_of.
  destruct (Hcard (Z.to_nat (first + Z.of_nat k)) ltac:(lia))
    as (block & -> & Hlen).
  exact Hlen.
Qed.

Lemma block_of_length (blocks : nat -> option bytes) (count : nat)
    (size i : Z) :
  card_of blocks count size ->
  0 <= i < Z.of_nat count ->
  blocks (Z.to_nat i) = Some (block_of blocks i)
  /\ len (block_of blocks i) = size.
Proof.
  intros Hcard Hi. unfold block_of.
  destruct (Hcard (Z.to_nat i) ltac:(lia)) as (block & -> & Hlen).
  now split.
Qed.

Section SimulatedRead.

Variable authenticator : bytes -> list bytes.
Variable fuel : nat.
Variable blocks : nat -> option bytes.
Variables (ack : patience) (grants : bool).

(** The frames a read of a PS1 card gathers, and what it makes of them. *)
Lemma read_ps1_blocks (authenticated : bool) (offset length : Z)
    (l : list event) :
  let a := Adapter x01 blocks authenticated ack grants [] in
  let first := offset / FRAME_LENGTH in
  let start := offset mod FRAME_LENGTH in
  let m := blocks_touched FRAME_LENGTH start length in
  card_of blocks 1024 FRAME_LENGTH ->
  0 <= offset -> 0 < length -> offset + length <= PS1_CARD_SIZE ->
  (2 <= fuel)%nat -> (m <= fuel)%nat ->
  exists (r : bytes) (l' : list event),
    read authenticator fuel offset length (World a l) = (Ok r, World a l')
    /\ len r = length
    /\ r = firstn (Z.to_nat length)
             (skipn (Z.to_nat start)
                (List.concat (block_range (block_of blocks) first m))).
Proof.
  intros a first start m Hcard Hoffset Hlength Hrange Hfuel Hm.
  unfold FRAME_LENGTH, PS1_CARD_SIZE in *.
  assert (Hstart : 0 <= start < 128) by (apply Z.mod_pos_bound; lia).
  assert (Hfirst : 0 <= first) by (apply Z.div_pos; lia).
  pose proof (Z.div_mod offset 128 ltac:(lia)) as Hdm.
  fold first start in Hdm.
  destruct (blocks_touched_bounds 128 start length ltac:(lia) ltac:(lia)
              Hlength) as (Hm1 & Henough & Hneeded).
  fold m in Hm1, Henough, Hneeded.
  assert (Hhigh : first + Z.of_nat m <= 1024) by lia.
  set (w1 := World a (read_event [x55; x01]
                      :: write_event getCardType_command :: l)).
  assert (Htype : getCardType (World a l) = (Ok 1, w1)) by reflexivity.
  rewrite (read_prologue authenticator fuel offset length 1 128 131072
             (World a l) w1 Htype)
    by (left; repeat split).
  destruct (Z.gtb_spec (offset + length) 131072); [lia | ].
  cbv zeta. change (1 =? 1) with true. cbv iota.
  fold first start.
  destruct (read_loop_runs (readFrame fuel) 128 (block_of blocks)
              (fun w => device w = a) 0 1024 ltac:(lia)) with
      (m := m) (n := fuel) (length := length) (result_len := - start)
      (current_block := first) (result := @nil bytes) (w := w1)
    as (w2 & Hloop & Hgood); try lia; try reflexivity.
  - intros i Hi. apply (block_of_length blocks 1024 128 i Hcard). lia.
  - intros i [d l0] Hi Hd. cbn [device] in Hd. subst d.
    destruct (block_of_length blocks 1024 128 i Hcard ltac:(lia))
      as [Hblock Hlen].
    destruct (sim_readFrame fuel blocks ack grants authenticated i
                (block_of blocks i) l0 Hfuel ltac:(lia) Hblock Hlen)
      as (l' & Hread).
    exists (World a l'). split; [exact Hread | reflexivity].
  - rewrite (bind_Ok _ _ _ _ _ Hloop). cbv beta iota. cbn [app].
    destruct w2 as [d2 l2]. cbn [device] in Hgood. subst d2.
    pose proof (block_range_length (block_of blocks) first m) as Hcount.
    assert (Hall : Forall (fun b => len b = 128)
                     (block_range (block_of blocks) first m)).
    { apply (block_range_Forall blocks 1024 128); trivial; lia. }
    eexists. exists l2. split; [ | split; [ | reflexivity]].
    + rewrite <- Hcount.
      apply (trim_result_spec 128 start length); try lia; trivial.
      intros Hnil. rewrite Hnil in Hcount. unfold len in Hcount.
      simpl in Hcount. lia.
    + rewrite len_firstn; [reflexivity | ].
      rewrite len_skipn;
        rewrite (len_concat_blocks 128 _ Hall), Hcount; lia.
Qed.

(** X2.  On a PS1 card in the simulated adapter, a read of [length > 0] bytes
    inside the card returns exactly [length] bytes: those of the frames it
    touches, from the offset in the first one on. *)
Theorem read_ps1_range (authenticated : bool) (offset length : Z)
    (l : list event) :
  let a := Adapter x01 blocks authenticated ack grants [] in
  let first := offset / FRAME_LENGTH in
  let start := offset mod FRAME_LENGTH in
  let m := blocks_touched FRAME_LENGTH start length in
  card_of blocks 1024 FRAME_LENGTH ->
  0 <= offset -> 0 < length -> offset + length <= PS1_CARD_SIZE ->
  (2 <= fuel)%nat -> (m <= fuel)%nat ->
  exists (r : bytes) (l' : list event),
    read authenticator fuel offset length (World a l) = (Ok r, World a l')
    /\ len r = length
    /\ r = firstn (Z.to_nat length)
             (skipn (Z.to_nat start)
                (List.concat (block_range (block_of blocks) first m))).
Proof. exact (read_ps1_blocks authenticated offset length l). Qed.

(** The pages a read of a PS2 card gathers, and what it makes of them.  The
    adapter starts in any state [a0] from which a page read leaves it
    authenticated. *)
Lemma read_ps2_blocks (authenticated0 : bool) (ack0 : patience)
    (grants0 : bool) (offset length : Z) (l : list event) :
  let a0 := Adapter x02 blocks authenticated0 ack0 grants0 [] in
  let a := Adapter x02 blocks true ack grants [] in
  let first := offset / PAGE_LENGTH in
  let start := offset mod PAGE_LENGTH in
  let m := blocks_touched PAGE_LENGTH start length in
  (forall (i : Z) (l0 : list event),
      0 <= i < 16385 ->
      exists l',
        readPage authenticator fuel i (World a0 l0)
        = (Ok (block_of blocks i), World a l')) ->
  card_of blocks (Z.to_nat 16385) PAGE_LENGTH ->
  0 <= offset -> 0 < length -> offset + length <= PS2_CARD_SIZE ->
  (8 <= fuel)%nat -> (m <= fuel)%nat ->
  exists (r : bytes) (l' : list event),
    read authenticator fuel offset length (World a0 l) = (Ok r, World a l')
    /\ len r = length
    /\ r = firstn (Z.to_nat length)
             (skipn (Z.to_nat start)
                (List.concat (block_range (block_of blocks) first m))).
Proof.
  intros a0 a first start m Hfirstread Hcard Hoffset Hlength Hrange Hfuel Hm.
  unfold PAGE_LENGTH, PS2_CARD_SIZE in *.
  assert (Hstart : 0 <= start < 528) by (apply Z.mod_pos_bound; lia).
  assert (Hfirst : 0 <= first) by (apply Z.div_pos; lia).
  pose proof (Z.div_mod offset 528 ltac:(lia)) as Hdm.
  fold first start in Hdm.
  destruct (blocks_touched_bounds 528 start length ltac:(lia) ltac:(lia)
              Hlength) as (Hm1 & Henough & Hneeded).
  fold m in Hm1, Henough, Hneeded.
  assert (Hhigh : first + Z.of_nat m <= 16385) by lia.
  set (w1 := World a0 (read_event [x55; x02]
                       :: write_event getCardType_command :: l)).
  assert (Htype : getCardType (World a0 l) = (Ok 2, w1)) by reflexivity.
  rewrite (read_prologue authenticator fuel offset length 2 528 8651280
             (World a0 l) w1 Htype)
    by (right; repeat split).
  destruct (Z.gtb_spec (offset + length) 8651280); [lia | ].
  cbv zeta. change (2 =? 1) with false. cbv iota.
  fold first start.
  destruct m as [ | m'] eqn:Em; [lia | ].
  destruct (Hfirstread first (log w1) ltac:(lia)) as (l1 & Hread1).
  destruct (read_loop_runs_after_first (readPage authenticator fuel) 528
              (block_of blocks) (fun w => device w = a) 0 16385
              ltac:(lia)) with
      (m := m') (n := fuel) (length := length) (result_len := - start)
      (current_block := first) (result := @nil bytes) (w := w1)
      (w1 := World a l1)
    as (w2 & Hloop & Hdev2); try lia; try reflexivity; try exact Hread1.
  - intros i Hi.
    apply (block_of_length blocks (Z.to_nat 16385) 528 i Hcard). lia.
  - intros i [d l0] Hi Hd. cbn [device] in Hd. subst d.
    destruct (block_of_length blocks (Z.to_nat 16385) 528 i Hcard
                ltac:(lia)) as [Hblock Hlen].
    destruct (sim_readPage authenticator fuel blocks ack grants i
                (block_of blocks i) l0 Hfuel ltac:(lia) Hblock Hlen)
      as (l' & Hread).
    exists (World a l'). split; [exact Hread | reflexivity].
  - 
    rewrite (bind_Ok _ _ _ _ _ Hloop). cbv beta iota. cbn [app].
    destruct w2 as [d2 l2]. cbn [device] in Hdev2. subst d2.
    pose proof (block_range_length (block_of blocks) first (S m')) as Hcount.
    assert (Hall : Forall (fun b => len b = 528)
                     (block_range (block_of blocks) first (S m'))).
    { apply (block_range_Forall blocks (Z.to_nat 16385) 528); trivial; lia. }
    eexists. exists l2. split; [ | split; [ | reflexivity]].
    + rewrite <- Hcount.
      apply (trim_result_spec 528 start length); try lia; trivial.
      intros Hnil. rewrite Hnil in Hcount. unfold len in Hcount.
      simpl in Hcount. lia.
    + rewrite len_firstn; [reflexivity | ].
      rewrite len_skipn;
        rewrite (len_concat_blocks 528 _ Hall), Hcount; lia.
Qed.

(** X3.  On a PS2 card in the simulated, authenticated adapter, a read of
    [length > 0] bytes inside the card returns exactly [length] bytes: those
    of the pages it touches, from the offset in the first one on. *)
Theorem read_ps2_range (offset length : Z) (l : list event) :
  let a := Adapter x02 blocks true ack grants [] in
  let first := offset / PAGE_LENGTH in
  let start := offset mod PAGE_LENGTH in
  let m := blocks_touched PAGE_LENGTH start length in
  card_of blocks (Z.to_nat 16385) PAGE_LENGTH ->
  0 <= offset -> 0 < length -> offset + length <= PS2_CARD_SIZE ->
  (8 <= fuel)%nat -> (m <= fuel)%nat ->
  exists (r : bytes) (l' : list event),
    read authenticator fuel offset length (World a l) = (Ok r, World a l')
    /\ len r = length
    /\ r = firstn (Z.to_nat length)
             (skipn (Z.to_nat start)
                (List.concat (block_range (block_of blocks) first m))).
Proof.
  intros a first start m Hcard Hoffset Hlength Hrange Hfuel Hm.
  apply (read_ps2_blocks true ack grants offset length l); trivial.
  intros i l0 Hi.
  destruct (block_of_length blocks (Z.to_nat 16385) PAGE_LENGTH i Hcard
              ltac:(lia)) as [Hblock Hlen].
  apply (sim_readPage authenticator fuel blocks ack grants i
           (block_of blocks i) l0); trivial. lia.
Qed.

End SimulatedRead.

(** ** The simulated cards at work *)

(** X4.  The long response reader against the simulated adapter: whatever the
    payload, cut into packets of 64 bytes with a last packet of any length,
    it comes back byte for byte, and the packets read are those of the
    response. *)
Theorem long_response_reassembled (fuel : nat) (a : adapter)
    (l : list event) (payload : bytes) :
  len payload <= 32767 ->
  sim_pending a = long_response payload ->
  (List.length (long_response payload) <= S fuel)%nat ->
  _longResponseRead fuel (World a l)
  = (Ok (RESPONSE_STATUS_SUCCES, payload),
     World (answer a [])
           (rev (map read_event (long_response payload)) ++ l)).
Proof. exact (long_response_read fuel a l payload). Qed.

Lemma long_response_reassembled_witness :
  _longResponseRead 2 (fresh (answering sample_payload))
  = (Ok ([x5a], sample_payload),
     World (answer (answering sample_payload) [])
           (rev (map read_event (long_response sample_payload)))).
Proof.
  unfold fresh.
  rewrite (long_response_reassembled 2 (answering sample_payload) []
             sample_payload).
  - rewrite app_nil_r. reflexivity.
  - vm_compute. discriminate.
  - reflexivity.
  - vm_compute. lia.
Defined.

Lemma sample_blocks_card (count size : nat) :
  card_of (sample_blocks count size) count (Z.of_nat size).
Proof.
  intros i Hi. unfold sample_blocks.
  apply Nat.ltb_lt in Hi. rewrite Hi.
  eexists. split; [reflexivity | ].
  unfold len. now rewrite repeat_length.
Qed.

Lemma read_ps1_range_witness :
  exists (r : bytes) (l' : list event),
    read no_answers 2 126 4 (fresh ps1_adapter) = (Ok r, World ps1_adapter l')
    /\ len r = 4
    /\ r = firstn 4
             (skipn 126
                (List.concat
                   (block_range (block_of (sample_blocks 1024 128)) 0 2))).
Proof.
  apply (read_ps1_range no_answers 2 (sample_blocks 1024 128) (Timeouts 0)
           true false 126 4 []).
  - apply (sample_blocks_card 1024 128).
  - lia.
  - lia.
  - vm_compute. discriminate.
  - lia.
  - vm_compute. lia.
Defined.

Lemma read_ps2_range_witness :
  exists (r : bytes) (l' : list event),
    read no_answers 8 527 3 (fresh ps2_adapter) = (Ok r, World ps2_adapter l')
    /\ len r = 3
    /\ r = firstn 3
             (skipn 527
                (List.concat
                   (block_range
                      (block_of (sample_blocks (Z.to_nat 16385) 528)) 0 2))).
Proof.
  apply (read_ps2_range no_answers 8 (sample_blocks (Z.to_nat 16385) 528)
           (Timeouts 0) true 527 3 []).
  - apply (sample_blocks_card (Z.to_nat 16385) 528).
  - lia.
  - lia.
  - vm_compute. discriminate.
  - lia.
  - vm_compute. lia.
Defined.

(** ** Writing a range of bytes *)

Section WriteNeverCompletes.

Context {D : Type} {usb_device : UsbDevice D}.
Variable authenticator : bytes -> list bytes.
Variable fuel : nat.

Lemma bind_not_Ok {A B : Type} (m : M D A) (k : A -> M D B) (w : world D) :
  (forall a w', m w = (Ok a, w') -> forall b, fst (k a w') <> Ok b) ->
  forall b, fst (bind m k w) <> Ok b.
Proof.
  intros H b. unfold bind.
  destruct (m w) as [[a | e | ] w'] eqn:E; cbn [fst]; try discriminate.
  now apply (H a w').
Qed.

Lemma writeFrame_not_Ok (frame_number : Z) (data : bytes) (w : world D) :
  fst (writeFrame fuel frame_number data w) <> Ok tt.
Proof.
  unfold writeFrame.
  destruct (len data =? FRAME_LENGTH); [ | discriminate].
  rewrite bind_assert_true.
  unfold pack_H.
  destruct ((0 <=? frame_number) && (frame_number <=? 65535));
    discriminate.
Qed.

Lemma writePage_not_Ok (page_number : Z) (data : bytes) (w : world D) :
  fst (writePage authenticator fuel page_number data w) <> Ok tt.
Proof.
  unfold writePage.
  destruct (len data =? PAGE_LENGTH); [ | discriminate].
  rewrite bind_assert_true.
  apply bind_not_Ok. intros [] w1 _ [].
  unfold pack_I.
  destruct ((0 <=? page_number) && (page_number <=? 4294967295));
    discriminate.
Qed.

Variable write_block : Z -> bytes -> M D unit.
Hypothesis write_block_not_Ok :
  forall i data w, fst (write_block i data w) <> Ok tt.

Lemma write_loop_short (n : nat) :
  forall (block_length current_block : Z) (data : bytes) (w w' : world D)
         (current_block' : Z) (data' : bytes),
    write_loop n write_block block_length current_block data w
    = (Ok (current_block', data'), w') ->
    data' = data.
Proof.
  destruct n as [ | n]; intros block_length current_block data w w'
    current_block' data' H; cbn [write_loop] in H;
    destruct (len data >=? block_length).
  - discriminate H.
  - now injection H as _ -> _.
  - unfold bind in H.
    destruct (write_block current_block data.[: block_length] w)
      as [[[] | e | ] w1] eqn:E; try discriminate H.
    exfalso. apply (write_block_not_Ok current_block data.[: block_length] w).
    now rewrite E.
  - now injection H as _ -> _.
Qed.

Lemma write_tail_not_Ok (read_block : Z -> M D bytes)
    (block_length current_block : Z) (data : bytes) (w : world D) :
  0 < len data ->
  fst ((' (current_block, data) <-
          write_loop fuel write_block block_length current_block data ;;
        let data_len := len data in
        if negb (data_len =? 0) then
          block <- read_block current_block ;;
          write_block current_block (data ++ block.[data_len :])
        else ret tt) w) <> Ok tt.
Proof.
  intros Hdata. apply bind_not_Ok. intros [current_block' data'] w1 Hloop [].
  apply write_loop_short in Hloop. subst data'. cbv zeta.
  destruct (Z.eqb_spec (len data) 0); [lia | ]. cbn [negb].
  apply bind_not_Ok. intros block w2 _ []. apply write_block_not_Ok.
Qed.

End WriteNeverCompletes.

Section Write.

Context {D : Type} {usb_device : UsbDevice D}.
Variable authenticator : bytes -> list bytes.
Variable fuel : nat.

(** X5.  On a card of either type, a write of at least one byte never
    completes, whatever the device answers: every path of [write] goes
    through the frame writer or the page writer, and neither gets past the
    join of its command. *)
Theorem write_never_completes (offset : Z) (data : bytes)
    (card_type : Z) (w w1 : world D) :
  getCardType w = (Ok card_type, w1) ->
  card_type = 1 \/ card_type = 2 ->
  0 < len data ->
  fst (write authenticator fuel offset data w) <> Ok tt.
Proof.
  intros Htype Hcard Hdata.
  rewrite (write_prologue authenticator fuel offset card_type
             (if card_type =? 1 then FRAME_LENGTH else PAGE_LENGTH)
             (if card_type =? 1 then PS1_CARD_SIZE else PS2_CARD_SIZE)
             data w w1 Htype)
    by (destruct Hcard as [-> | ->]; simpl; tauto).
  destruct (_ >? _); [discriminate | ]. cbv zeta.
  apply bind_not_Ok. intros data1 w2 Hdata1 [].
  assert (Hlen : 0 < len data1).
  { destruct (negb _) in Hdata1.
    - unfold bind in Hdata1.
      destruct ((if card_type =? 1 then readFrame fuel
                 else readPage authenticator fuel) _ _)
        as [[block | e | ] w3]; try discriminate Hdata1.
      injection Hdata1 as <- _. rewrite len_app.
      pose proof (len_nonneg block.[: offset mod
        (if card_type =? 1 then FRAME_LENGTH else PAGE_LENGTH)]). lia.
    - injection Hdata1 as <- _. exact Hdata. }
  apply write_tail_not_Ok; [ | exact Hlen].
  destruct (card_type =? 1); intros i d w0.
  - apply writeFrame_not_Ok.
  - apply writePage_not_Ok.
Qed.

End Write.

Lemma write_never_completes_witness :
  fst (write no_answers 2 128 (repeat xff 256) (fresh ps1_adapter)) <> Ok tt.
Proof.
  apply (write_never_completes no_answers 2 128 (repeat xff 256) 1
           (fresh ps1_adapter) (card_type_read ps1_adapter)).
  - reflexivity.
  - left. reflexivity.
  - vm_compute. reflexivity.
Defined.

(** ** The framing layer at its edges *)

(** X6.  [_stripResponse] keeps the last [padding] bytes of a response and
    requires every byte before them to be 0xFF.  A response of at most
    [padding] bytes is returned whole, and so is any response when
    [padding] is 0: nothing is checked then, and the result can be shorter
    than [padding]. *)
Theorem stripResponse_keeps_the_tail (response : bytes) (padding : Z) :
  (forall stuffing tail : bytes,
      response = stuffing ++ tail -> 0 < padding -> len tail = padding ->
      (stuffing = repeat xff (List.length stuffing) ->
       _stripResponse response padding = Ok tail)
      /\ (stuffing <> repeat xff (List.length stuffing) ->
          _stripResponse response padding = Raise AssertionError))
  /\ (len response <= padding \/ padding = 0 ->
      _stripResponse response padding = Ok response).
Proof.
  split.
  - intros stuffing tail -> Hp Ht.
    rewrite (stripResponse_split stuffing tail padding Hp Ht). split.
    + intros H. apply bytes_eqb_eq in H. now rewrite H.
    + intros H. now rewrite (bytes_eqb_neq _ _ H).
  - apply stripResponse_short.
Qed.

Lemma stripResponse_keeps_the_tail_witness :
  _stripResponse [xff; xff; x2b; x55] 2 = Ok [x2b; x55]
  /\ _stripResponse [x00; xff; x2b; x55] 2 = Raise AssertionError
  /\ _stripResponse [x2b] 2 = Ok [x2b].
Proof.
  split; [ | split].
  - apply (proj1 (proj1 (stripResponse_keeps_the_tail [xff; xff; x2b; x55] 2)
                    [xff; xff] [x2b; x55] eq_refl ltac:(lia) eq_refl)).
    reflexivity.
  - apply (proj2 (proj1 (stripResponse_keeps_the_tail [x00; xff; x2b; x55] 2)
                    [x00; xff] [x2b; x55] eq_refl ltac:(lia) eq_refl)).
    discriminate.
  - apply (proj2 (stripResponse_keeps_the_tail [x2b] 2)).
    left. vm_compute. discriminate.
Defined.

Lemma pack_h_in_range (n : Z) :
  0 <= n <= 32767 ->
  pack_h n = Ok [byte_of_Z n; byte_of_Z (n mod 65536 / 256)].
Proof.
  intros H. unfold pack_h.
  destruct (Z.leb_spec (-32768) n); [ | lia].
  destruct (Z.leb_spec n 32767); [ | lia]. reflexivity.
Qed.

Lemma pack_h_too_long (n : Z) : 32767 < n -> pack_h n = Raise StructError.
Proof.
  intros H. unfold pack_h.
  destruct (Z.leb_spec n 32767); [lia | ].
  now rewrite andb_false_r.
Qed.

Section Framing.

Context {D : Type} {usb_device : UsbDevice D}.
Variable fuel : nat.

Lemma longCommandWrite_in_range (body : bytes) (w : world D) :
  len body <= 32767 ->
  _longCommandWrite (PyBytes body) w
  = (Ok tt,
     after_write (xaa :: x42 :: byte_of_Z (len body)
                    :: byte_of_Z (len body mod 65536 / 256) :: body) w).
Proof.
  intros H. pose proof (len_nonneg body).
  now rewrite (longCommandWrite_bytes body _ w
                 (pack_h_in_range (len body) ltac:(lia))).
Qed.

(** X7.  A long command goes out as one bulk write of the command code, the
    long type, the length of the body as two bytes and the body; the two
    bytes are read back as that length by the decoder of the responses.
    The length is packed as a signed 16-bit integer, so a body of more than
    32767 bytes raises struct.error and nothing is written. *)
Theorem longCommandWrite_frames_the_body (body : bytes) (w : world D) :
  (len body <= 32767 ->
   exists lo hi : byte,
     _longCommandWrite (PyBytes body) w
     = (Ok tt, after_write (COMMAND_CODE ++ COMMAND_TYPE_LONG
                              ++ [lo; hi] ++ body) w)
     /\ declared_length lo hi = len body)
  /\ (32767 < len body ->
      _longCommandWrite (PyBytes body) w = (Raise StructError, w)).
Proof.
  split.
  - intros H. pose proof (len_nonneg body).
    exists (byte_of_Z (len body)), (byte_of_Z (len body mod 65536 / 256)).
    split.
    + now apply longCommandWrite_in_range.
    + apply declared_length_pack. lia.
  - intros H. unfold _longCommandWrite. cbn [pylen].
    now rewrite (bind_lift_Raise _ _ _ _ (pack_h_too_long _ H)).
Qed.

(** X8.  The header of a long response at its edges.  A first packet that
    carries the status Success and fewer than two bytes after it raises
    struct.error, at the decoding of the length.  A declared length with its
    high bit set is read as a negative number: no continuation packet is
    read, and the payload is what the first packet carried. *)
Theorem longResponseRead_header_edges (w : world D) (first : bytes) (d1 : D) :
  bulkRead BULK_READ_ENDPOINT BULK_READ_LENGTH (device w) = (Some first, d1) ->
  (forall rest : bytes,
      first = x55 :: x5a :: rest -> len rest < 2 ->
      _longResponseRead fuel w = (Raise StructError, after_read first d1 w))
  /\ (forall (lo hi : byte) (chunk : bytes),
         first = x55 :: x5a :: lo :: hi :: chunk -> 128 <= Z_of_byte hi ->
         _longResponseRead fuel w
         = (Ok (RESPONSE_STATUS_SUCCES, chunk), after_read first d1 w)).
Proof.
  intros Hfirst. split.
  - intros rest -> Hlen. unfold _longResponseRead.
    rewrite (bind_Ok _ _ _ _ _ (responseRead_marker _ _ _ Hfirst)).
    rewrite slice_head.
    change (bytes_eqb [x5a] RESPONSE_STATUS_SUCCES) with true. cbv iota.
    destruct rest as [ | a [ | b rest]];
      [reflexivity | reflexivity | ].
    rewrite !len_cons in Hlen. pose proof (len_nonneg rest). lia.
  - intros lo hi chunk -> Hhi.
    rewrite (longResponseRead_success fuel w lo hi chunk [] d1 d1 Hfirst).
    + cbn [List.concat map rev app]. now rewrite app_nil_r.
    + reflexivity.
    + cbn [needed]. unfold declared_length.
      pose proof (Z_of_byte_range lo). pose proof (Z_of_byte_range hi).
      pose proof (len_nonneg chunk).
      destruct (Z.ltb_spec (Z_of_byte lo + 256 * Z_of_byte hi) 32768); lia.
    + cbn [List.length]. lia.
Qed.

End Framing.

Lemma longCommandWrite_frames_the_body_witness :
  exists lo hi : byte,
    _longCommandWrite (PyBytes [x81; x11; x00; x00]) (fresh [])
    = (Ok tt, after_write ([xaa; x42; lo; hi; x81; x11; x00; x00])
                (fresh (@nil bytes)))
    /\ declared_length lo hi = 4.
Proof.
  apply (proj1 (longCommandWrite_frames_the_body [x81; x11; x00; x00]
                  (fresh []))).
  vm_compute. discriminate.
Defined.

Lemma longResponseRead_header_edges_witness :
  _longResponseRead 0 (fresh [[x55; x5a; x04]])
  = (Raise StructError, after_read [x55; x5a; x04] [] (fresh [[x55; x5a; x04]])).
Proof.
  refine (proj1 (longResponseRead_header_edges 0 (fresh [[x55; x5a; x04]])
                   [x55; x5a; x04] [] _) [x04] _ _).
  - reflexivity.
  - reflexivity.
  - vm_compute. reflexivity.
Defined.

(** ** The commands, whatever the device answers *)

(** [s[i:-k]] for [i >= 0] and [k > 0]. *)
Lemma slice_inner {A : Type} (s : list A) (i k : Z) :
  0 <= i -> 0 < k ->
  s.[i : - k] = firstn (Z.to_nat (len s - k - i)) (skipn (Z.to_nat i) s).
Proof.
  intros Hi Hk. unfold slice, clamp.
  destruct (i <? 0) eqn:Ei; [apply Z.ltb_lt in Ei; lia | ].
  destruct (- k <? 0) eqn:Ek; [ | apply Z.ltb_ge in Ek; lia].
  destruct (Z.le_gt_cases i (len s)) as [Hle | Hgt].
  - rewrite (Z.min_l i) by lia. f_equal. lia.
  - rewrite (Z.min_r i) by lia.
    rewrite !skipn_all2 by (unfold len in *; lia). now rewrite !firstn_nil.
Qed.

Lemma len_slice_inner {A : Type} (s : list A) (i k : Z) :
  0 <= i -> 0 < k -> len s.[i : - k] = Z.max 0 (len s - k - i).
Proof.
  intros Hi Hk. rewrite slice_inner by assumption.
  unfold len. rewrite length_firstn, length_skipn. lia.
Qed.

Lemma byte_of_Z_0 : byte_of_Z 0 = x00.
Proof. reflexivity. Qed.

Lemma pack_H_in_range (n : Z) :
  0 <= n <= 65535 -> pack_H n = Ok [byte_of_Z (n / 256); byte_of_Z n].
Proof.
  intros H. unfold pack_H.
  destruct (Z.leb_spec 0 n); [ | lia].
  destruct (Z.leb_spec n 65535); [ | lia]. reflexivity.
Qed.

Lemma pack_H_out_of_range (n : Z) :
  n < 0 \/ 65535 < n -> pack_H n = Raise StructError.
Proof.
  intros H. unfold pack_H.
  destruct (Z.leb_spec 0 n); [ | reflexivity].
  destruct (Z.leb_spec n 65535); [lia | reflexivity].
Qed.

Lemma pack_I_in_range (n : Z) :
  0 <= n <= 4294967295 ->
  pack_I n = Ok [byte_of_Z n; byte_of_Z (n / 256);
                 byte_of_Z (n / 65536); byte_of_Z (n / 16777216)].
Proof.
  intros H. unfold pack_I.
  destruct (Z.leb_spec 0 n); [ | lia].
  destruct (Z.leb_spec n 4294967295); [ | lia]. reflexivity.
Qed.

Lemma pack_I_out_of_range (n : Z) :
  n < 0 \/ 4294967295 < n -> pack_I n = Raise StructError.
Proof.
  intros H. unfold pack_I.
  destruct (Z.leb_spec 0 n); [ | reflexivity].
  destruct (Z.leb_spec n 4294967295); [lia | reflexivity].
Qed.

Lemma pack_b_in_range (n : Z) :
  -128 <= n <= 127 -> pack_b n = Ok [byte_of_Z n].
Proof.
  intros H. unfold pack_b.
  destruct (Z.leb_spec (-128) n); [ | lia].
  destruct (Z.leb_spec n 127); [ | lia]. reflexivity.
Qed.

Lemma pack_b_out_of_range (n : Z) :
  n < -128 \/ 127 < n -> pack_b n = Raise StructError.
Proof.
  intros H. unfold pack_b.
  destruct (Z.leb_spec (-128) n); [ | reflexivity].
  destruct (Z.leb_spec n 127); [lia | reflexivity].
Qed.

Section Exchanges.

Context {D : Type} {usb_device : UsbDevice D}.
Variable authenticator : bytes -> list bytes.
Variable fuel : nat.

(** A long command with a body of less than 256 bytes. *)
Lemma longCommandWrite_short (body : bytes) (w : world D) :
  len body <= 255 ->
  _longCommandWrite (PyBytes body) w = (Ok tt, after_write (long_command body) w).
Proof.
  intros H. pose proof (len_nonneg body).
  rewrite longCommandWrite_in_range by lia.
  rewrite (Z.mod_small (len body) 65536) by lia.
  rewrite (Z.div_small (len body) 256) by lia.
  reflexivity.
Qed.

(** A long command followed by the reading of its response. *)
Lemma long_exchange {B : Type} (body : bytes) (k : bytes * bytes -> M D B)
    (w w1 : world D) (code data : bytes) :
  _longResponseRead fuel (after_write (long_command body) w)
    = (Ok (code, data), w1) ->
  len body <= 255 ->
  (_longCommandWrite (PyBytes body) ;; bind (_longResponseRead fuel) k) w
  = k (code, data) w1.
Proof.
  intros H Hlen.
  rewrite (bind_Ok _ _ _ _ _ (longCommandWrite_short body w Hlen)).
  now rewrite (bind_Ok _ _ _ _ _ H).
Qed.

Lemma assert_success (code : bytes) :
  (code = RESPONSE_STATUS_SUCCES
   /\ bytes_eqb code RESPONSE_STATUS_SUCCES = true)
  \/ (code <> RESPONSE_STATUS_SUCCES
      /\ bytes_eqb code RESPONSE_STATUS_SUCCES = false).
Proof.
  destruct (bytes_eqb code RESPONSE_STATUS_SUCCES) eqn:E.
  - left. split; [now apply bytes_eqb_eq | reflexivity].
  - right. split; [ | reflexivity].
    intros ->. now rewrite bytes_eqb_refl in E.
Qed.

(** X9.  [readFrame] packs the frame number as an unsigned 16-bit integer,
    which raises struct.error outside 0..65535 before anything is sent.
    Of the response it checks the status and the length only: a payload of
    140 bytes gives its bytes 10 to 137, whatever the header before them
    and the two bytes after them are; another status or length fails an
    assertion. *)
Theorem readFrame_checks_status_and_length (frame_number : Z) (w : world D) :
  (frame_number < 0 \/ 65535 < frame_number ->
   readFrame fuel frame_number w = (Raise StructError, w))
  /\ (0 <= frame_number <= 65535 ->
      forall (code payload : bytes) (w1 : world D),
        _longResponseRead fuel
          (after_write (readFrame_command frame_number) w)
          = (Ok (code, payload), w1) ->
        (code = RESPONSE_STATUS_SUCCES -> len payload = 140 ->
         readFrame fuel frame_number w
         = (Ok (firstn 128 (skipn 10 payload)), w1))
        /\ (code <> RESPONSE_STATUS_SUCCES \/ len payload <> 140 ->
            readFrame fuel frame_number w = (Raise AssertionError, w1))).
Proof.
  split.
  - intros H. unfold readFrame.
    now rewrite (bind_lift_Raise _ _ _ _ (pack_H_out_of_range _ H)).
  - intros H code payload w1 Hresp. unfold readFrame.
    rewrite (bind_lift_Ok _ _ _ _ (pack_H_in_range _ H)).
    unfold readFrame_command in Hresp.
    rewrite (long_exchange _ _ w w1 code payload Hresp)
      by (vm_compute; discriminate).
    cbv beta iota zeta.
    pose proof (len_slice_inner payload 10 2 ltac:(lia) ltac:(lia)) as Hlen.
    change (- (2)) with (-2) in Hlen.
    destruct (assert_success code) as [[Hc Ec] | [Hc Ec]]; rewrite Ec.
    + rewrite bind_assert_true. split.
      * intros _ Hp. rewrite Hlen, Hp. change (Z.max 0 (140 - 2 - 10)) with 128.
        change (128 =? FRAME_LENGTH) with true. rewrite bind_assert_true.
        change (-2) with (- (2)). rewrite slice_inner by lia. rewrite Hp.
        reflexivity.
      * intros [Hn | Hp]; [contradiction | ].
        rewrite Hlen.
        destruct (Z.eqb_spec (Z.max 0 (len payload - 2 - 10)) FRAME_LENGTH)
          as [E | E]; [unfold FRAME_LENGTH in E; lia | reflexivity].
    + rewrite bind_assert_false. split.
      * intros Hs. contradiction.
      * reflexivity.
Qed.

(** X10.  [readPage] authenticates first, and only then packs the page
    number as an unsigned 32-bit integer, which raises struct.error outside
    that range.  Its command is a short one, its response a long one: a
    payload of 0x210 bytes with the status Success is returned as it is,
    another status or length fails an assertion. *)
Theorem readPage_checks_status_and_length (page_number : Z)
    (w w0 : world D) :
  authenticate authenticator fuel w = (Ok tt, w0) ->
  (page_number < 0 \/ 4294967295 < page_number ->
   readPage authenticator fuel page_number w = (Raise StructError, w0))
  /\ (0 <= page_number <= 4294967295 ->
      forall (code payload : bytes) (w1 : world D),
        _longResponseRead fuel
          (after_write (readPage_command page_number) w0)
          = (Ok (code, payload), w1) ->
        (code = RESPONSE_STATUS_SUCCES -> len payload = PAGE_LENGTH ->
         readPage authenticator fuel page_number w = (Ok payload, w1))
        /\ (code <> RESPONSE_STATUS_SUCCES \/ len payload <> PAGE_LENGTH ->
            readPage authenticator fuel page_number w
            = (Raise AssertionError, w1))).
Proof.
  intros Hauth. split.
  - intros H. unfold readPage. rewrite (bind_Ok _ _ _ _ _ Hauth).
    now rewrite (bind_lift_Raise _ _ _ _ (pack_I_out_of_range _ H)).
  - intros H code payload w1 Hresp. unfold readPage.
    rewrite (bind_Ok _ _ _ _ _ Hauth).
    rewrite (bind_lift_Ok _ _ _ _ (pack_I_in_range _ H)).
    rewrite (bind_Ok _ _ _ _ _ (commandWrite_bytes _ _)).
    unfold readPage_command, after_write, write_event in Hresp.
    cbn [app] in Hresp |- *.
    rewrite (bind_Ok _ _ _ _ _ Hresp). cbv beta iota.
    destruct (assert_success code) as [[Hc Ec] | [Hc Ec]]; rewrite Ec.
    + rewrite bind_assert_true. split.
      * intros _ Hp. now rewrite Hp, Z.eqb_refl, bind_assert_true.
      * intros [Hn | Hp]; [contradiction | ].
        apply Z.eqb_neq in Hp. now rewrite Hp.
    + rewrite bind_assert_false. split.
      * intros Hs. contradiction.
      * reflexivity.
Qed.

Lemma strip_verdict (data : bytes) (padding : Z) (tail : bytes) :
  (_stripResponse data padding = Ok tail)
  \/ (_stripResponse data padding <> Ok tail
      /\ ((exists r, _stripResponse data padding = Ok r
                     /\ bytes_eqb r tail = false)
          \/ _stripResponse data padding = Raise AssertionError)).
Proof.
  destruct (stripResponse_outcome data padding) as [[r Hr] | Hr].
  - destruct (bytes_eqb r tail) eqn:E.
    + apply bytes_eqb_eq in E. subst r. now left.
    + right. split.
      * rewrite Hr. intros H. injection H as ->.
        now rewrite bytes_eqb_refl in E.
      * left. now exists r.
  - right. split; [rewrite Hr; discriminate | now right].
Qed.

(** What follows the reading of the response in the probes that require
    the status Success and a fixed tail. *)
Lemma require_tail (padding : Z) (tail code data : bytes) (w1 : world D) :
  (code = RESPONSE_STATUS_SUCCES -> _stripResponse data padding = Ok tail ->
   (assert_ (bytes_eqb code RESPONSE_STATUS_SUCCES) ;;
    response <- lift (_stripResponse data padding) ;;
    assert_ (bytes_eqb response tail)) w1 = (Ok tt, w1))
  /\ (code <> RESPONSE_STATUS_SUCCES
      \/ _stripResponse data padding <> Ok tail ->
      (assert_ (bytes_eqb code RESPONSE_STATUS_SUCCES) ;;
       response <- lift (_stripResponse data padding) ;;
       assert_ (bytes_eqb response tail)) w1 = (Raise AssertionError, w1)).
Proof.
  destruct (assert_success code) as [[Hc Ec] | [Hc Ec]]; rewrite Ec.
  - rewrite bind_assert_true.
    destruct (strip_verdict data padding tail)
      as [Hs | [Hn [[r [Hr Er]] | Hr]]].
    + rewrite (bind_lift_Ok _ _ _ _ Hs), bytes_eqb_refl. split.
      * reflexivity.
      * intros [H | H]; contradiction.
    + rewrite (bind_lift_Ok _ _ _ _ Hr), Er. split.
      * intros _ H. contradiction.
      * reflexivity.
    + rewrite (bind_lift_Raise _ _ _ _ Hr). split.
      * intros _ H. contradiction.
      * reflexivity.
  - rewrite bind_assert_false. split.
    + intros H. contradiction.
    + reflexivity.
Qed.

(** X11.  [__81f0] answers [False] for every status other than Success,
    not for 0xAF alone, and raises nothing then; with the status Success it
    requires the tail 0x2B 0xFF.  A sequence number outside a signed byte
    raises struct.error before anything is sent. *)
Theorem step_81f0_outcomes (seq_number : Z) (w : world D) :
  (seq_number < -128 \/ 127 < seq_number ->
   __81f0 fuel seq_number w = (Raise StructError, w))
  /\ (-128 <= seq_number <= 127 ->
      forall (code data : bytes) (w1 : world D),
        _longResponseRead fuel
          (after_write (command_81f0 (byte_of_Z seq_number)) w)
          = (Ok (code, data), w1) ->
        (code <> RESPONSE_STATUS_SUCCES ->
         __81f0 fuel seq_number w = (Ok false, w1))
        /\ (code = RESPONSE_STATUS_SUCCES ->
            _stripResponse data 2 = Ok [x2b; xff] ->
            __81f0 fuel seq_number w = (Ok true, w1))
        /\ (code = RESPONSE_STATUS_SUCCES ->
            _stripResponse data 2 <> Ok [x2b; xff] ->
            __81f0 fuel seq_number w = (Raise AssertionError, w1))).
Proof.
  split.
  - intros H. unfold __81f0.
    now rewrite (bind_lift_Raise _ _ _ _ (pack_b_out_of_range _ H)).
  - intros H code data w1 Hresp. unfold __81f0.
    rewrite (bind_lift_Ok _ _ _ _ (pack_b_in_range _ H)).
    unfold command_81f0 in Hresp.
    rewrite (long_exchange _ _ w w1 code data Hresp)
      by (vm_compute; discriminate).
    cbv beta iota zeta.
    destruct (assert_success code) as [[Hc Ec] | [Hc Ec]]; rewrite Ec.
    + destruct (strip_verdict data 2 [x2b; xff])
        as [Hs | [Hn [[r [Hr Er]] | Hr]]].
      * rewrite (bind_lift_Ok _ _ _ _ Hs).
        repeat split; try reflexivity; intros; contradiction.
      * rewrite (bind_lift_Ok _ _ _ _ Hr), Er.
        repeat split; try reflexivity; intros; contradiction.
      * rewrite (bind_lift_Raise _ _ _ _ Hr).
        repeat split; try reflexivity; intros; contradiction.
    + repeat split; try reflexivity; intros; contradiction.
Qed.

(** X12.  [__send_81f0] requires 9 bytes of data before it sends anything,
    and a sequence number that fits a signed byte.  Its command carries the
    data as they are, between the sequence number and two zero bytes; it
    succeeds exactly when the status is Success and the tail is 0x2B 0xFF,
    and fails an assertion otherwise. *)
Theorem send_81f0_outcomes (seq_number : Z) (data : bytes) (w : world D) :
  (len data <> 9 ->
   __send_81f0 fuel seq_number data w = (Raise AssertionError, w))
  /\ (len data = 9 -> seq_number < -128 \/ 127 < seq_number ->
      __send_81f0 fuel seq_number data w = (Raise StructError, w))
  /\ (len data = 9 -> -128 <= seq_number <= 127 ->
      forall (code answer : bytes) (w1 : world D),
        _longResponseRead fuel
          (after_write (command_send_81f0 (byte_of_Z seq_number) data) w)
          = (Ok (code, answer), w1) ->
        (code = RESPONSE_STATUS_SUCCES ->
         _stripResponse answer 2 = Ok [x2b; xff] ->
         __send_81f0 fuel seq_number data w = (Ok tt, w1))
        /\ (code <> RESPONSE_STATUS_SUCCES
            \/ _stripResponse answer 2 <> Ok [x2b; xff] ->
            __send_81f0 fuel seq_number data w = (Raise AssertionError, w1))).
Proof.
  split; [ | split].
  - intros H. unfold __send_81f0. apply Z.eqb_neq in H. now rewrite H.
  - intros Hlen H. unfold __send_81f0.
    rewrite Hlen, bind_assert_true.
    now rewrite (bind_lift_Raise _ _ _ _ (pack_b_out_of_range _ H)).
  - intros Hlen H code answer w1 Hresp. unfold __send_81f0.
    rewrite Hlen, bind_assert_true.
    rewrite (bind_lift_Ok _ _ _ _ (pack_b_in_range _ H)).
    unfold command_send_81f0 in Hresp.
    assert (Hbody : _padCommand ([x81; xf0] ++ [byte_of_Z seq_number] ++ data) 2
                    = [x81; xf0; byte_of_Z seq_number] ++ data ++ [x00; x00]).
    { unfold _padCommand. change (Z.to_nat 2) with 2%nat.
      cbn [app repeat]. rewrite <- ?app_assoc. reflexivity. }
    rewrite Hbody.
    rewrite (long_exchange _ _ w w1 code answer Hresp)
      by (rewrite !len_app, Hlen; vm_compute; discriminate).
    cbv beta iota zeta.
    apply require_tail.
Qed.

End Exchanges.

(** ** The commands of the handshake, whatever the device answers *)

Section Probes.

Context {D : Type} {usb_device : UsbDevice D}.
Variable fuel : nat.

Lemma between_markers_framed (padding : Z) (last : byte) (code : bytes)
    (answer : bytes) (data : bytes) (w1 : world D) :
  code = RESPONSE_STATUS_SUCCES ->
  _stripResponse data padding = Ok (x2b :: answer ++ [last]) ->
  between_markers padding (Z_of_byte last) code data w1 = (Ok answer, w1).
Proof.
  intros -> Hs. unfold between_markers.
  change (bytes_eqb RESPONSE_STATUS_SUCCES RESPONSE_STATUS_SUCCES) with true.
  rewrite bind_assert_true.
  rewrite (bind_lift_Ok _ _ _ _ Hs).
  rewrite getitem_first. unfold from_option at 1. rewrite bind_ret.
  change (Z_of_byte x2b =? 43) with true. cbv iota.
  change (x2b :: answer ++ [last]) with ((x2b :: answer) ++ [last]).
  rewrite getitem_last. unfold from_option, bind, ret. cbv beta iota.
  rewrite Z.eqb_refl. unfold assert_, ret. cbv beta iota.
  change ((x2b :: answer) ++ [last]) with ([x2b] ++ answer ++ [last]).
  change (-1) with (- (1)).
  now rewrite (slice_middle [x2b] answer [last] 1 1) by (reflexivity || lia).
Qed.

Lemma between_markers_receiver (padding : Z) (last : byte)
    (code data : bytes) (w1 : world D) :
  2 <= padding ->
  (forall (n : nat) (answer : bytes),
      code = RESPONSE_STATUS_SUCCES ->
      data = repeat xff n ++ x2b :: answer ++ [last] ->
      len answer = padding - 2 ->
      between_markers padding (Z_of_byte last) code data w1 = (Ok answer, w1))
  /\ (forall answer : bytes,
         code = RESPONSE_STATUS_SUCCES ->
         data = x2b :: answer ++ [last] ->
         len answer < padding - 2 ->
         between_markers padding (Z_of_byte last) code data w1
         = (Ok answer, w1))
  /\ (code = RESPONSE_STATUS_SUCCES -> data = [] ->
      between_markers padding (Z_of_byte last) code data w1
      = (Raise IndexError, w1))
  /\ (code <> RESPONSE_STATUS_SUCCES ->
      between_markers padding (Z_of_byte last) code data w1
      = (Raise AssertionError, w1)).
Proof.
  intros Hp. split; [ | split; [ | split]].
  - intros n answer Hc -> Hlen.
    apply between_markers_framed; [exact Hc | ].
    rewrite stripResponse_split.
    + now rewrite repeat_length, bytes_eqb_refl.
    + lia.
    + rewrite len_cons, len_app, Hlen. change (len [last]) with 1. lia.
  - intros answer Hc -> Hlen.
    apply between_markers_framed; [exact Hc | ].
    apply stripResponse_short. left.
    rewrite len_cons, len_app. change (len [last]) with 1. lia.
  - intros -> ->. unfold between_markers.
    change (bytes_eqb RESPONSE_STATUS_SUCCES RESPONSE_STATUS_SUCCES) with true.
    rewrite bind_assert_true.
    rewrite (bind_lift_Ok _ _ _ _
               (stripResponse_short [] padding ltac:(left; unfold len; simpl; lia))).
    reflexivity.
  - intros Hc. unfold between_markers.
    now rewrite (bytes_eqb_neq _ _ Hc).
Qed.

(** X13.  [__recv_81f0] and [__8126] return the bytes the adapter sends
    between the marker 0x2B and the last byte of the payload, 0xFF for the
    first and 0x55 for the second, once the stuffing before them was found
    to be 0xFF bytes.  The number of bytes returned is not checked: a
    payload shorter than asked for is returned between its markers as
    well.  An empty payload raises IndexError, and a status other than
    Success fails an assertion. *)
Theorem receivers_return_what_lies_between_the_markers
    (seq_number length : Z) :
  -128 <= seq_number <= 127 -> 0 <= length <= 250 ->
  receiver fuel
    ([x81; xf0; byte_of_Z seq_number] ++ repeat x00 (Z.to_nat (length + 2)))
    (length + 2) xff (__recv_81f0 fuel seq_number length)
  /\ receiver fuel ([x81; x26] ++ repeat x00 11) 11 x55 (__8126 fuel).
Proof.
  intros Hseq Hlength. split.
  - intros w w1 code data Hresp.
    assert (E : __recv_81f0 fuel seq_number length w
                = between_markers (length + 2) (Z_of_byte xff) code data w1).
    { unfold __recv_81f0. cbv zeta.
      rewrite (bind_lift_Ok _ _ _ _ (pack_b_in_range _ Hseq)).
      unfold _padCommand. cbn [app].
      rewrite (long_exchange fuel _ _ w w1 code data Hresp).
      - reflexivity.
      - rewrite len_app. unfold len. rewrite repeat_length.
        cbn [List.length]. lia. }
    rewrite E. apply between_markers_receiver. lia.
  - intros w w1 code data Hresp.
    assert (E : __8126 fuel w
                = between_markers 11 (Z_of_byte x55) code data w1).
    { unfold __8126.
      change (_padCommand [x81; x26] 11) with ([x81; x26] ++ repeat x00 11).
      rewrite (long_exchange fuel _ _ w w1 code data Hresp).
      - reflexivity.
      - vm_compute. discriminate. }
    rewrite E. apply (between_markers_receiver 11 x55). lia.
Qed.

Lemma fixed_probe_of (body : bytes) (padding : Z) (tail : bytes)
    (probe : M D unit) :
  len body <= 255 ->
  (forall w : world D,
      probe w
      = (_longCommandWrite (PyBytes body) ;;
         ' (response_code, data) <- _longResponseRead fuel ;;
         assert_ (bytes_eqb response_code RESPONSE_STATUS_SUCCES) ;;
         response <- lift (_stripResponse data padding) ;;
         assert_ (bytes_eqb response tail)) w) ->
  fixed_probe fuel body padding tail probe.
Proof.
  intros Hlen Hprobe w w1 code data Hresp.
  rewrite Hprobe, (long_exchange fuel _ _ w w1 code data Hresp Hlen).
  apply require_tail.
Qed.

(** X14.  The probes of the handshake that take no argument require the
    status Success and their own tail after the stuffing, and fail an
    assertion on anything else, the status 0xAF included: unlike
    [__81f0], they do not report a timeout.  [__8158] is the reverse: it
    requires the status 0xAF. *)
Theorem fixed_probes_require_their_answer :
  fixed_probe fuel [x81; xf3; x00; x00; x00] 2 [x2b; xff] (__81f3 fuel)
  /\ fixed_probe fuel [x81; xf7; x01; x00; x00] 2 [x2b; xff] (__81f7 fuel)
  /\ fixed_probe fuel [x81; x28; x00; x00; x00] 3 [x2b; xff; xff]
       (__8128 fuel)
  /\ fixed_probe fuel [x81; x27; x55; x00; x00] 2 [x2b; x55] (__8127 fuel)
  /\ (forall (w w1 : world D) (code data : bytes),
         _longResponseRead fuel
           (after_write (long_command [x81; x58; x00; x00; x00]) w)
           = (Ok (code, data), w1) ->
         (code = [xaf] -> __8158 fuel w = (Ok tt, w1))
         /\ (code <> [xaf] -> __8158 fuel w = (Raise AssertionError, w1))).
Proof.
  split; [ | split; [ | split; [ | split]]];
    try (apply fixed_probe_of; [vm_compute; discriminate | reflexivity]).
  intros w w1 code data Hresp. unfold __8158.
  rewrite (long_exchange fuel _ _ w w1 code data Hresp)
    by (vm_compute; discriminate).
  cbv beta iota. split.
  - intros ->. reflexivity.
  - intros Hn. now rewrite (bytes_eqb_neq _ _ Hn).
Qed.

(** X15.  [getSize] and [getPageSize] ask for the card type and look it up:
    0x20000 bytes in frames of 0x80 for type 1, 0x840210 bytes in pages of
    0x210 for type 2, a whole number of blocks in both cases.  For any other
    type both return [None] and raise nothing, where [read] and [write]
    raise ValueError. *)
Theorem getSize_looks_the_type_up (w : world D) (b : byte) (d1 : D) :
  bulkRead BULK_READ_ENDPOINT BULK_READ_LENGTH
    (device (after_write getCardType_command w)) = (Some [x55; b], d1) ->
  let w1 := after_read [x55; b] d1 (after_write getCardType_command w) in
  (Z_of_byte b = 1 ->
   getSize w = (Ok (Some (1024 * 128)), w1)
   /\ getPageSize w = (Ok (Some 128), w1))
  /\ (Z_of_byte b = 2 ->
      getSize w = (Ok (Some (16385 * 528)), w1)
      /\ getPageSize w = (Ok (Some 528), w1))
  /\ (Z_of_byte b <> 1 -> Z_of_byte b <> 2 ->
      getSize w = (Ok None, w1) /\ getPageSize w = (Ok None, w1)).
Proof.
  intros H w1. unfold getSize, getPageSize.
  rewrite !(bind_Ok _ _ _ _ _ (getCardType_received w b d1 H)).
  fold w1.
  unfold ret, _getSize, _getPageSize, PS1_CARD_TYPE, PS2_CARD_TYPE.
  split; [ | split].
  - intros E. rewrite E. split; reflexivity.
  - intros E. rewrite E. split; reflexivity.
  - intros E1 E2. apply Z.eqb_neq in E1, E2. rewrite E1, E2.
    split; reflexivity.
Qed.

End Probes.

(** ** The commands against scripted answers *)

Lemma readFrame_checks_status_and_length_witness :
  fst (readFrame 2 5 (fresh (frame_reply (repeat x07 128))))
  = Ok (repeat x07 128).
Proof.
  pose (w := fresh (frame_reply (repeat x07 128))).
  pose (payload := repeat xff 10 ++ repeat x07 128 ++ [x00; x00]).
  pose (w1 := snd (_longResponseRead 2
                     (after_write (readFrame_command 5) w))).
  assert (Hresp : _longResponseRead 2 (after_write (readFrame_command 5) w)
                  = (Ok ([x5a], payload), w1))
    by (vm_compute; reflexivity).
  assert (Hrange : 0 <= 5 <= 65535) by lia.
  assert (Hlen : len payload = 140) by reflexivity.
  fold w.
  rewrite (proj1 (proj2 (readFrame_checks_status_and_length 2 5 w)
                    Hrange [x5a] payload w1 Hresp) eq_refl Hlen).
  reflexivity.
Defined.

Lemma readPage_checks_status_and_length_witness :
  fst (readPage no_answers 8 3
         (fresh (authenticated_then (probe_reply (repeat x07 528)))))
  = Ok (repeat x07 528).
Proof.
  pose (w := fresh (authenticated_then (probe_reply (repeat x07 528)))).
  pose (w0 := snd (authenticate no_answers 8 w)).
  pose (w1 := snd (_longResponseRead 8
                     (after_write (readPage_command 3) w0))).
  assert (Hauth : authenticate no_answers 8 w = (Ok tt, w0))
    by (vm_compute; reflexivity).
  assert (Hresp : _longResponseRead 8 (after_write (readPage_command 3) w0)
                  = (Ok ([x5a], repeat x07 528), w1))
    by (vm_compute; reflexivity).
  assert (Hrange : 0 <= 3 <= 4294967295) by lia.
  assert (Hlen : len (repeat x07 528) = PAGE_LENGTH) by reflexivity.
  fold w.
  rewrite (proj1 (proj2 (readPage_checks_status_and_length no_answers 8 3
                           w w0 Hauth)
                    Hrange [x5a] (repeat x07 528) w1 Hresp) eq_refl Hlen).
  reflexivity.
Defined.

Lemma step_81f0_outcomes_witness :
  fst (__81f0 0 5 (fresh [[x55; x00]])) = Ok false.
Proof.
  pose (w := fresh [[x55; x00]]).
  pose (w1 := snd (_longResponseRead 0 (after_write (command_81f0 x05) w))).
  assert (Hresp : _longResponseRead 0
                    (after_write (command_81f0 (byte_of_Z 5)) w)
                  = (Ok ([x00], []), w1))
    by (vm_compute; reflexivity).
  assert (Hrange : -128 <= 5 <= 127) by lia.
  assert (Hcode : [x00] <> RESPONSE_STATUS_SUCCES) by discriminate.
  fold w.
  rewrite (proj1 (proj2 (step_81f0_outcomes 0 5 w) Hrange [x00] [] w1 Hresp)
             Hcode).
  reflexivity.
Defined.

Lemma send_81f0_outcomes_witness :
  __send_81f0 0 6 (repeat x01 8) (fresh (@nil bytes))
  = (Raise AssertionError, fresh []).
Proof.
  apply (proj1 (send_81f0_outcomes 0 6 (repeat x01 8) (fresh []))).
  vm_compute. discriminate.
Defined.

Lemma receivers_return_what_lies_between_the_markers_witness :
  fst (getRandomNumber 0 (fresh (probe_reply [x2b; x01; xff]))) = Ok [x01].
Proof.
  pose (w := fresh (probe_reply [x2b; x01; xff])).
  pose (body := [x81; xf0; byte_of_Z 4] ++ repeat x00 (Z.to_nat (9 + 2))).
  pose (w1 := snd (_longResponseRead 0 (after_write (long_command body) w))).
  assert (Hresp : _longResponseRead 0 (after_write (long_command body) w)
                  = (Ok ([x5a], [x2b; x01; xff]), w1))
    by (vm_compute; reflexivity).
  assert (Hseq : -128 <= 4 <= 127) by lia.
  assert (Hlength : 0 <= 9 <= 250) by lia.
  assert (Hshort : len [x01] < 9 + 2 - 2) by (vm_compute; reflexivity).
  fold w. unfold getRandomNumber.
  rewrite (proj1 (proj2
             (proj1 (receivers_return_what_lies_between_the_markers 0 4 9
                       Hseq Hlength)
                w w1 [x5a] [x2b; x01; xff] Hresp))
             [x01] eq_refl eq_refl Hshort).
  reflexivity.
Defined.

Lemma fixed_probes_require_their_answer_witness :
  fst (__81f3 0 (fresh refusal)) = Raise AssertionError.
Proof.
  pose (w := fresh refusal).
  pose (w1 := snd (_longResponseRead 0
                     (after_write (long_command [x81; xf3; x00; x00; x00])
                        w))).
  assert (Hresp : _longResponseRead 0
                    (after_write (long_command [x81; xf3; x00; x00; x00]) w)
                  = (Ok ([xaf], []), w1))
    by (vm_compute; reflexivity).
  assert (Hcode : [xaf] <> RESPONSE_STATUS_SUCCES
                  \/ _stripResponse [] 2 <> Ok [x2b; xff])
    by (left; discriminate).
  fold w.
  rewrite (proj2 (proj1 (fixed_probes_require_their_answer 0)
                    w w1 [xaf] [] Hresp) Hcode).
  reflexivity.
Defined.

Lemma getSize_looks_the_type_up_witness :
  getSize (fresh unknown_card)
  = (Ok None,
     World [] [read_event [x55; x03]; write_event getCardType_command]).
Proof.
  refine (proj1 (proj2 (proj2 (getSize_looks_the_type_up (fresh unknown_card)
                                 x03 [] _)) _ _)).
  - reflexivity.
  - vm_compute. discriminate.
  - vm_compute. discriminate.
Defined.

(** ** What the driver never sends *)

Section Harmless.

Context {D : Type} {usb_device : UsbDevice D}.

Lemma only_same {A : Type} (m : M D A) :
  (forall w, snd (m w) = w) -> only harmless m.
Proof.
  intros H w. exists []. rewrite H, app_nil_r. split; [reflexivity | constructor].
Qed.

Lemma only_ret {A : Type} (a : A) : only harmless (@ret D A a).
Proof. now apply only_same. Qed.

Lemma only_raise {A : Type} (e : exn) : only harmless (@raise D A e).
Proof. now apply only_same. Qed.

Lemma only_out_of_fuel {A : Type} : only harmless (@out_of_fuel D A).
Proof. now apply only_same. Qed.

Lemma only_lift {A : Type} (o : outcome A) : only harmless (@lift D A o).
Proof. now apply only_same. Qed.

Lemma only_from_option {A : Type} (e : exn) (o : option A) :
  only harmless (@from_option D A e o).
Proof. destruct o; now apply only_same. Qed.

Lemma only_assert (b : bool) : only harmless (@assert_ D b).
Proof. destruct b; now apply only_same. Qed.

Lemma only_one {A : Type} (m : M D A) (e : event) :
  harmless e ->
  (forall w, log (snd (m w)) = e :: log w \/ log (snd (m w)) = log w) ->
  only harmless m.
Proof.
  intros He H w. unfold trace. destruct (H w) as [E | E]; rewrite E.
  - exists [e]. split; [reflexivity | now constructor].
  - exists []. rewrite app_nil_r. split; [reflexivity | constructor].
Qed.

Lemma only_print (line : string) : only harmless (@print D line).
Proof.
  apply (only_one _ (EvPrint line)); [exact I | ]. intros w. now left.
Qed.

Lemma only_bind {A B : Type} (m : M D A) (k : A -> M D B) :
  only harmless m -> (forall a, only harmless (k a)) ->
  only harmless (bind m k).
Proof.
  intros Hm Hk w. unfold bind.
  destruct (Hm w) as (new1 & E1 & H1).
  destruct (m w) as [[a | e | ] w1]; cbn [snd] in *.
  - destruct (Hk a w1) as (new2 & E2 & H2).
    exists (new1 ++ new2). rewrite E2, E1, app_assoc. split.
    + reflexivity.
    + apply Forall_app. now split.
  - now exists new1.
  - now exists new1.
Qed.

Lemma only_usbRead : only harmless _usbRead.
Proof.
  intros w. unfold _usbRead, trace.
  destruct (bulkRead _ _ _) as [[result | ] d]; cbn [snd log].
  - exists [EvRead BULK_READ_ENDPOINT BULK_READ_LENGTH result].
    split; [reflexivity | ]. constructor; [exact I | constructor].
  - exists []. rewrite app_nil_r. split; [reflexivity | constructor].
Qed.

Lemma only_usbWrite (data : bytes) :
  block_write_command data = false -> only harmless (_usbWrite data).
Proof.
  intros H. apply (only_one _ (EvWrite BULK_WRITE_ENDPOINT data));
    [exact H | ].
  intros w. now left.
Qed.

Lemma only_commandWrite_bytes (command : bytes) :
  block_write_command (xaa :: command) = false ->
  only harmless (_commandWrite (PyBytes command)).
Proof. intros H w. exact (only_usbWrite _ H w). Qed.

Lemma only_commandWrite_str (command : string) :
  only harmless (_commandWrite (PyStr command)).
Proof. now apply only_same. Qed.

Lemma pack_h_two_bytes (n : Z) (prefix : bytes) :
  pack_h n = Ok prefix -> exists lo hi, prefix = [lo; hi].
Proof.
  unfold pack_h. destruct (_ && _); [ | discriminate].
  intros H. injection H as <-. eauto.
Qed.

(** A long command whose body does not start with 0x81 0x57. *)
Lemma only_longCommandWrite_bytes (body : bytes) :
  starts_with [x81; x57] body = false ->
  only harmless (_longCommandWrite (PyBytes body)).
Proof.
  intros H w. unfold _longCommandWrite. cbn [pylen].
  destruct (pack_h (len body)) as [prefix | e | ] eqn:E.
  - destruct (pack_h_two_bytes _ _ E) as (lo & hi & ->).
    rewrite (bind_lift_Ok _ _ _ _ eq_refl).
    cbn [bytes_add COMMAND_TYPE_LONG app].
    rewrite (bind_lift_Ok _ _ _ _ eq_refl).
    apply only_commandWrite_bytes.
    unfold block_write_command. cbn [skipn].
    rewrite H. reflexivity.
  - rewrite (bind_lift_Raise _ _ _ _ eq_refl).
    exists []. rewrite app_nil_r. split; [reflexivity | constructor].
  - exists []. rewrite app_nil_r. split; [reflexivity | constructor].
Qed.

Lemma only_longCommandWrite_str (body : string) :
  only harmless (_longCommandWrite (PyStr body)).
Proof.
  apply only_same. intros w. unfold _longCommandWrite, bind, lift.
  destruct (pack_h _); reflexivity.
Qed.

(** The steps of a sequence one after the other; [known] settles the steps
    that were dealt with before. *)
Ltac quiet_with known :=
  repeat first
    [ known
    | apply only_ret | apply only_raise | apply only_out_of_fuel
    | apply only_lift | apply only_from_option | apply only_assert
    | apply only_print | apply only_usbRead
    | apply only_commandWrite_str | apply only_longCommandWrite_str
    | apply only_commandWrite_bytes; reflexivity
    | apply only_longCommandWrite_bytes; reflexivity
    | assumption
    | apply only_bind; [ | intros ? ]
    | match goal with
      | |- only harmless (let ' (_, _) := ?p in _) => destruct p
      | |- only harmless (if ?b then _ else _) => destruct b
      | |- only harmless (let _ := _ in _) => cbv zeta
      end ].

Ltac quiet := quiet_with fail.

Lemma only_responseRead : only harmless _responseRead.
Proof. unfold _responseRead. quiet. Qed.

Lemma only_longResponseRead_loop (n : nat) :
  forall (response_length data_length : Z) (result : list bytes),
    only harmless
      (_longResponseRead_loop n response_length data_length result).
Proof.
  induction n as [ | n IH]; intros response_length data_length result;
    cbn [_longResponseRead_loop]; quiet. apply IH.
Qed.

Lemma only_longResponseRead (fuel : nat) :
  only harmless (_longResponseRead fuel).
Proof.
  unfold _longResponseRead. apply only_bind; [apply only_responseRead | ].
  intros response. cbv zeta. quiet. apply only_longResponseRead_loop.
Qed.

Section Driver.

Variable authenticator : bytes -> list bytes.
Variable fuel : nat.

(** A long command with a literal body, and the reading of its response. *)
Ltac exchange :=
  quiet_with ltac:(first [ apply only_longResponseRead
                         | apply only_responseRead ]).

Lemma only_getCardType : only harmless getCardType.
Proof. unfold getCardType. exchange. Qed.

Lemma only_isAuthenticated : only harmless (isAuthenticated fuel).
Proof. unfold isAuthenticated. exchange. Qed.

Lemma only_pack_b {B : Type} (seq_number : Z) (k : bytes -> M D B) :
  (forall b : byte, only harmless (k [b])) ->
  only harmless (seq <- lift (pack_b seq_number) ;; k seq).
Proof.
  intros H w. unfold pack_b. destruct (_ && _).
  - rewrite (bind_lift_Ok _ _ _ _ eq_refl). apply H.
  - rewrite (bind_lift_Raise _ _ _ _ eq_refl).
    exists []. rewrite app_nil_r. split; [reflexivity | constructor].
Qed.

Lemma only_81f0 (seq_number : Z) : only harmless (__81f0 fuel seq_number).
Proof.
  unfold __81f0. apply only_pack_b. intros b. exchange.
Qed.

Lemma only_recv_81f0 (seq_number length : Z) :
  only harmless (__recv_81f0 fuel seq_number length).
Proof.
  unfold __recv_81f0. cbv zeta. apply only_pack_b. intros b. exchange.
Qed.

Lemma only_send_81f0 (seq_number : Z) (data : bytes) :
  only harmless (__send_81f0 fuel seq_number data).
Proof.
  unfold __send_81f0. apply only_bind; [apply only_assert | ]. intros _.
  apply only_pack_b. intros b. exchange.
Qed.

Lemma only_81f3 : only harmless (__81f3 fuel).
Proof. unfold __81f3. exchange. Qed.

Lemma only_81f7 : only harmless (__81f7 fuel).
Proof. unfold __81f7. exchange. Qed.

Lemma only_8128 : only harmless (__8128 fuel).
Proof. unfold __8128. exchange. Qed.

Lemma only_8127 : only harmless (__8127 fuel).
Proof. unfold __8127. exchange. Qed.

Lemma only_8126 : only harmless (__8126 fuel).
Proof. unfold __8126. exchange. Qed.

Lemma only_8158 : only harmless (__8158 fuel).
Proof. unfold __8158. exchange. Qed.

Ltac handshake :=
  quiet_with ltac:(first [ apply only_81f0 | apply only_recv_81f0
                         | apply only_send_81f0 | apply only_81f3
                         | apply only_81f7 | apply only_8128
                         | apply only_8127 | apply only_8126
                         | apply only_isAuthenticated ]).

Lemma only_authenticate_body :
  only harmless (authenticate_body authenticator fuel).
Proof.
  unfold authenticate_body, getRandomNumber, sendAuthPart1, sendAuthPart2,
    sendAuthPart3, recvAuthPart1, recvAuthPart2, recvAuthPart3.
  handshake.
Qed.

Lemma only_authenticate_loop (n : nat) :
  only harmless (authenticate_loop authenticator fuel n).
Proof.
  induction n as [ | n IH]; cbn [authenticate_loop].
  - apply only_bind; [apply only_isAuthenticated | ]. intros a. quiet.
  - apply only_bind; [apply only_isAuthenticated | ]. intros a.
    destruct (negb a); [ | apply only_ret].
    apply only_bind; [apply only_authenticate_body | ]. intros _. exact IH.
Qed.

Lemma only_authenticate : only harmless (authenticate authenticator fuel).
Proof. apply only_authenticate_loop. Qed.

Lemma only_readFrame (frame_number : Z) :
  only harmless (readFrame fuel frame_number).
Proof.
  unfold readFrame. intros w. unfold pack_H. destruct (_ && _).
  - rewrite (bind_lift_Ok _ _ _ _ eq_refl). revert w. exchange.
  - rewrite (bind_lift_Raise _ _ _ _ eq_refl).
    exists []. rewrite app_nil_r. split; [reflexivity | constructor].
Qed.

Lemma only_readPage (page_number : Z) :
  only harmless (readPage authenticator fuel page_number).
Proof.
  unfold readPage. apply only_bind; [apply only_authenticate | ]. intros _.
  intros w. unfold pack_I. destruct (_ && _).
  - rewrite (bind_lift_Ok _ _ _ _ eq_refl). revert w. exchange.
  - rewrite (bind_lift_Raise _ _ _ _ eq_refl).
    exists []. rewrite app_nil_r. split; [reflexivity | constructor].
Qed.

(** The block writers stop at the join of their command. *)
Lemma only_writeFrame (frame_number : Z) (data : bytes) :
  only harmless (writeFrame fuel frame_number data).
Proof.
  unfold writeFrame. apply only_bind; [apply only_assert | ]. intros _.
  apply only_bind; [apply only_lift | ]. intros encoded.
  apply only_same. reflexivity.
Qed.

Lemma only_writePage (page_number : Z) (data : bytes) :
  only harmless (writePage authenticator fuel page_number data).
Proof.
  unfold writePage. apply only_bind; [apply only_assert | ]. intros _.
  apply only_bind; [apply only_authenticate | ]. intros _.
  apply only_bind; [apply only_lift | ]. intros encoded.
  apply only_same. reflexivity.
Qed.

Lemma only_read_loop (read_block : Z -> M D bytes) (n : nat) :
  (forall i, only harmless (read_block i)) ->
  forall (block_length length result_len current_block : Z)
         (result : list bytes),
    only harmless
      (read_loop n read_block block_length length result_len current_block
         result).
Proof.
  intros Hread.
  induction n as [ | n IH];
    intros block_length length result_len current_block result;
    cbn [read_loop]; quiet.
  - apply Hread.
  - apply IH.
Qed.

Lemma only_write_loop (write_block : Z -> bytes -> M D unit) (n : nat) :
  (forall i data, only harmless (write_block i data)) ->
  forall (block_length current_block : Z) (data : bytes),
    only harmless (write_loop n write_block block_length current_block data).
Proof.
  intros Hwrite.
  induction n as [ | n IH]; intros block_length current_block data;
    cbn [write_loop]; quiet.
  - apply Hwrite.
  - apply IH.
Qed.

Lemma only_select_block_io {B : Type} (card_type : Z)
    (k : (Z -> M D bytes) * (Z -> bytes -> M D unit) -> M D B) :
  (forall read_block write_block,
      (forall i, only harmless (read_block i)) ->
      (forall i data, only harmless (write_block i data)) ->
      only harmless (k (read_block, write_block))) ->
  only harmless (bind (select_block_io authenticator fuel card_type) k).
Proof.
  intros H. unfold select_block_io.
  destruct (card_type =? 1); [ | destruct (card_type =? 2)].
  - intros w. rewrite bind_ret. apply H.
    + apply only_readFrame.
    + apply only_writeFrame.
  - intros w. rewrite bind_ret. apply H.
    + apply only_readPage.
    + apply only_writePage.
  - intros w. rewrite bind_raise.
    exists []. rewrite app_nil_r. split; [reflexivity | constructor].
Qed.

(** The commands the block writers were meant to send are block write
    commands. *)
Lemma block_write_commands_are_recognised (rest : bytes) :
  block_write_command (long_command ([x81; x57; x5a; x5d] ++ rest)) = true
  /\ block_write_command (xaa :: [x57; x03] ++ rest) = true.
Proof. split; reflexivity. Qed.

(** X16.  No block of the card is ever written.  Whatever the device
    answers, the commands [read], [authenticate] and [write] send never
    include the block write command of either card type: reading and
    authenticating do not call the block writers, and the block writers of
    [write] stop at the join of their command, before they send it. *)
Theorem no_block_write_command_is_sent (offset length : Z) (data : bytes) :
  only harmless (read authenticator fuel offset length)
  /\ only harmless (authenticate authenticator fuel)
  /\ only harmless (write authenticator fuel offset data).
Proof.
  split; [ | split].
  - unfold read. apply only_bind; [apply only_getCardType | ].
    intros card_type. apply only_select_block_io.
    intros read_block write_block Hread Hwrite. cbv beta iota zeta.
    quiet. now apply only_read_loop.
  - apply only_authenticate.
  - unfold write. apply only_bind; [apply only_getCardType | ].
    intros card_type. apply only_select_block_io.
    intros read_block write_block Hread Hwrite. cbv beta iota zeta.
    quiet; try apply Hread; try apply Hwrite.
    now apply only_write_loop.
Qed.

End Driver.

End Harmless.

(** ** Reads and writes at the edges of their arguments *)

(** [s[i:j]] for [i >= 0] and [j >= 0]. *)
Lemma slice_nonneg {A : Type} (s : list A) (i j : Z) :
  0 <= i -> 0 <= j ->
  s.[i : j] = firstn (Z.to_nat (j - i)) (skipn (Z.to_nat i) s).
Proof.
  intros Hi Hj. destruct (Z.le_gt_cases i j) as [Hle | Hgt].
  - now apply slice_range.
  - replace (Z.to_nat (j - i)) with 0%nat by lia. cbn [firstn].
    unfold slice, clamp.
    destruct (i <? 0) eqn:Ei; [apply Z.ltb_lt in Ei; lia | ].
    destruct (j <? 0) eqn:Ej; [apply Z.ltb_lt in Ej; lia | ].
    replace (Z.to_nat (Z.min j (len s) - Z.min i (len s))) with 0%nat by lia.
    reflexivity.
Qed.

Section Monad.

Context {D : Type}.

Lemma bind_Ok_inv {A B : Type} (m : M D A) (k : A -> M D B)
    (w w' : world D) (b : B) :
  bind m k w = (Ok b, w') ->
  exists a w1, m w = (Ok a, w1) /\ k a w1 = (Ok b, w').
Proof.
  unfold bind. destruct (m w) as [[a | e | ] w1]; try discriminate.
  intros H. now exists a, w1.
Qed.

Lemma assert_Ok_inv (b : bool) (w w' : world D) (u : unit) :
  assert_ b w = (Ok u, w') -> b = true.
Proof. destruct b; [reflexivity | discriminate]. Qed.

End Monad.

Section Edges.

Context {D : Type} {usb_device : UsbDevice D}.
Variable authenticator : bytes -> list bytes.
Variable fuel : nat.

(** A block that was read has the length of a block. *)
Lemma readFrame_length (frame_number : Z) (w w' : world D) (block : bytes) :
  readFrame fuel frame_number w = (Ok block, w') -> len block = FRAME_LENGTH.
Proof.
  unfold readFrame. intros H.
  apply bind_Ok_inv in H as (encoded & w1 & _ & H).
  apply bind_Ok_inv in H as ([] & w2 & _ & H).
  apply bind_Ok_inv in H as ([code data] & w3 & _ & H).
  apply bind_Ok_inv in H as ([] & w4 & _ & H). cbv zeta in H.
  apply bind_Ok_inv in H as ([] & w5 & Hlen & H).
  apply assert_Ok_inv in Hlen. injection H as <- _.
  now apply Z.eqb_eq.
Qed.

Lemma readPage_length (page_number : Z) (w w' : world D) (block : bytes) :
  readPage authenticator fuel page_number w = (Ok block, w') ->
  len block = PAGE_LENGTH.
Proof.
  unfold readPage. intros H.
  apply bind_Ok_inv in H as ([] & w0 & _ & H).
  apply bind_Ok_inv in H as (encoded & w1 & _ & H).
  apply bind_Ok_inv in H as ([] & w2 & _ & H).
  apply bind_Ok_inv in H as ([code data] & w3 & _ & H).
  apply bind_Ok_inv in H as ([] & w4 & _ & H).
  apply bind_Ok_inv in H as ([] & w5 & Hlen & H).
  apply assert_Ok_inv in Hlen. injection H as <- _.
  now apply Z.eqb_eq.
Qed.

(** X17.  A write of no bytes at the start of a block does nothing: once
    the card type was read it returns, without a block command.  As a write
    of at least one byte never completes, the empty write is the only one
    that does. *)
Theorem write_of_nothing_does_nothing
    (offset card_type block_length max_length : Z) (w w1 : world D) :
  getCardType w = (Ok card_type, w1) ->
  (card_type = 1 /\ block_length = FRAME_LENGTH /\ max_length = PS1_CARD_SIZE)
  \/ (card_type = 2 /\ block_length = PAGE_LENGTH
      /\ max_length = PS2_CARD_SIZE) ->
  offset mod block_length = 0 ->
  offset <= max_length ->
  write authenticator fuel offset [] w = (Ok tt, w1).
Proof.
  intros Htype Hcard Haligned Hrange.
  rewrite (write_prologue authenticator fuel offset card_type block_length
             max_length [] w w1 Htype Hcard).
  change (len (@nil byte)) with 0.
  destruct (Z.gtb_spec (offset + 0) max_length); [lia | ].
  cbv zeta. rewrite Haligned. change (negb (0 =? 0)) with false. cbv iota.
  rewrite bind_ret.
  assert (Hblock : 0 < block_length)
    by (destruct Hcard as [(_ & -> & _) | (_ & -> & _)]; reflexivity).
  assert (Hloop : forall write_block current_block,
             write_loop fuel write_block block_length current_block [] w1
             = (Ok (current_block, []), w1)).
  { intros write_block current_block.
    destruct fuel; cbn [write_loop]; change (len (@nil byte)) with 0;
      (destruct (Z.geb_spec 0 block_length); [lia | reflexivity]). }
  rewrite (bind_Ok _ _ _ _ _ (Hloop _ _)). reflexivity.
Qed.

Lemma read_loop_fails_at_once (read_block : Z -> M D bytes) (n : nat)
    (block_length length result_len current_block : Z) (result : list bytes)
    (w w' : world D) (e : exn) :
  (1 <= n)%nat -> result_len < length ->
  read_block current_block w = (Raise e, w') ->
  read_loop n read_block block_length length result_len current_block
    result w = (Raise e, w').
Proof.
  intros Hn Hlt Hread. destruct n as [ | n]; [lia | ]. cbn [read_loop].
  apply Z.ltb_lt in Hlt. rewrite Hlt.
  now apply bind_Raise.
Qed.

Lemma read_loop_once (read_block : Z -> M D bytes) (n : nat)
    (block_length length result_len current_block : Z) (result : list bytes)
    (w w' : world D) (block : bytes) :
  (1 <= n)%nat -> result_len < length <= result_len + block_length ->
  read_block current_block w = (Ok block, w') ->
  len block = block_length ->
  read_loop n read_block block_length length result_len current_block
    result w = (Ok (result_len + block_length, result ++ [block]), w').
Proof.
  intros Hn Hlength Hread Hlen. destruct n as [ | n]; [lia | ].
  cbn [read_loop].
  destruct (Z.ltb_spec result_len length); [ | lia].
  rewrite (bind_Ok _ _ _ _ _ Hread).
  rewrite Hlen, Z.eqb_refl, bind_assert_true.
  destruct n; cbn [read_loop];
    (destruct (Z.ltb_spec (result_len + block_length) length);
     [lia | reflexivity]).
Qed.

(** X18.  A negative offset is not refused as out of the card.  The read
    goes on to the block reader with a negative block number, and ends
    with struct.error at the packing of that number: at once on a PS1 card,
    after the authentication on a PS2 card. *)
Theorem negative_offset_raises_struct_error (offset length : Z)
    (w w1 : world D) :
  offset < 0 -> (1 <= fuel)%nat ->
  (getCardType w = (Ok 1, w1) ->
   - (offset mod FRAME_LENGTH) < length ->
   offset + length <= PS1_CARD_SIZE ->
   read authenticator fuel offset length w = (Raise StructError, w1))
  /\ (forall w2 : world D,
         getCardType w = (Ok 2, w1) ->
         authenticate authenticator fuel w1 = (Ok tt, w2) ->
         - (offset mod PAGE_LENGTH) < length ->
         offset + length <= PS2_CARD_SIZE ->
         read authenticator fuel offset length w = (Raise StructError, w2)).
Proof.
  intros Hneg Hfuel. split.
  - intros Htype Hlength Hrange.
    rewrite (read_prologue authenticator fuel offset length 1 FRAME_LENGTH
               PS1_CARD_SIZE w w1 Htype) by (left; repeat split).
    destruct (Z.gtb_spec (offset + length) PS1_CARD_SIZE); [lia | ].
    cbv zeta. change (1 =? 1) with true. cbv iota.
    apply bind_Raise. apply read_loop_fails_at_once; trivial.
    assert (Hblock : offset / FRAME_LENGTH < 0)
      by (apply Z.div_lt_upper_bound; unfold FRAME_LENGTH; lia).
    unfold readFrame.
    now rewrite (pack_H_out_of_range _ (or_introl Hblock)).
  - intros w2 Htype Hauth Hlength Hrange.
    rewrite (read_prologue authenticator fuel offset length 2 PAGE_LENGTH
               PS2_CARD_SIZE w w1 Htype) by (right; repeat split).
    destruct (Z.gtb_spec (offset + length) PS2_CARD_SIZE); [lia | ].
    cbv zeta. change (2 =? 1) with false. cbv iota.
    apply bind_Raise. apply read_loop_fails_at_once; trivial.
    assert (Hblock : offset / PAGE_LENGTH < 0)
      by (apply Z.div_lt_upper_bound; unfold PAGE_LENGTH; lia).
    unfold readPage. rewrite (bind_Ok _ _ _ _ _ Hauth).
    now rewrite (pack_I_out_of_range _ (or_introl Hblock)).
Qed.

(** X19.  A read that stays inside one block reads that block once and
    returns [block[start:start + length]], [start] being the offset inside
    the block.  This holds for a length of 0 when the offset is not at the
    start of a block, and for a negative length that does not reach back
    past the start of the block: the block is read, and the result is
    empty. *)
Theorem read_within_one_block
    (offset length card_type block_length max_length : Z) (block : bytes)
    (w w1 w2 : world D) :
  getCardType w = (Ok card_type, w1) ->
  (card_type = 1 /\ block_length = FRAME_LENGTH /\ max_length = PS1_CARD_SIZE)
  \/ (card_type = 2 /\ block_length = PAGE_LENGTH
      /\ max_length = PS2_CARD_SIZE) ->
  (if card_type =? 1 then readFrame fuel else readPage authenticator fuel)
    (offset / block_length) w1 = (Ok block, w2) ->
  - (offset mod block_length) < length <= block_length - offset mod block_length ->
  offset + length <= max_length ->
  (1 <= fuel)%nat ->
  read authenticator fuel offset length w
  = (Ok block.[offset mod block_length : offset mod block_length + length],
     w2).
Proof.
  intros Htype Hcard Hread Hlength Hrange Hfuel.
  assert (Hblock : 0 < block_length)
    by (destruct Hcard as [(_ & -> & _) | (_ & -> & _)]; reflexivity).
  assert (Hlen : len block = block_length).
  { destruct Hcard as [(-> & -> & _) | (-> & -> & _)].
    - now apply readFrame_length in Hread.
    - now apply readPage_length in Hread. }
  rewrite (read_prologue authenticator fuel offset length card_type
             block_length max_length w w1 Htype Hcard).
  destruct (Z.gtb_spec (offset + length) max_length); [lia | ].
  cbv zeta.
  pose proof (Z.mod_pos_bound offset block_length Hblock) as Hstart.
  set (start := offset mod block_length) in *.
  rewrite (bind_Ok _ _ _ _ _
             (read_loop_once _ fuel block_length length (- start) _ []
                w1 w2 block Hfuel ltac:(lia) Hread Hlen)).
  cbv beta iota. cbn [app].
  rewrite getitem_first. unfold from_option at 1. rewrite bind_ret.
  rewrite setitem_first. unfold from_option at 1. rewrite bind_ret.
  rewrite slice_from by lia.
  destruct (Z.gtb_spec (- start + block_length) length) as [Hgt | Hle].
  - change [skipn (Z.to_nat start) block]
      with ([] ++ [skipn (Z.to_nat start) block]).
    rewrite getitem_last. unfold from_option at 1. unfold bind, ret.
    cbv beta iota. rewrite setitem_last. unfold from_option, ret.
    cbv beta iota. unfold bytes_join.
    cbn [app List.concat]. rewrite app_nil_r.
    replace (length - (- start + block_length))
      with (- (block_length - start - length)) by lia.
    rewrite slice_to_neg by lia.
    rewrite len_skipn by lia. rewrite Hlen.
    destruct (Z.le_gt_cases 0 length) as [Hpos | Hnegative].
    + rewrite slice_nonneg by lia. do 3 f_equal. lia.
    + rewrite slice_nonneg by lia.
      replace (Z.to_nat (block_length - start
                         - (block_length - start - length))) with 0%nat by lia.
      replace (Z.to_nat (start + length - start)) with 0%nat by lia.
      reflexivity.
  - unfold ret, bind. cbv beta iota. unfold bytes_join.
    cbn [List.concat]. rewrite app_nil_r.
    rewrite slice_nonneg by lia.
    replace (Z.to_nat (start + length - start))
      with (List.length (skipn (Z.to_nat start) block))
      by (rewrite length_skipn; unfold len in Hlen; lia).
    now rewrite firstn_all.
Qed.

End Edges.

Lemma write_of_nothing_does_nothing_witness :
  write no_answers 0 256 [] (fresh ps1_adapter)
  = (Ok tt, card_type_read ps1_adapter).
Proof.
  apply (write_of_nothing_does_nothing no_answers 0 256 1 FRAME_LENGTH
           PS1_CARD_SIZE).
  - reflexivity.
  - left. repeat split.
  - reflexivity.
  - vm_compute. discriminate.
Defined.

Lemma negative_offset_raises_struct_error_witness :
  read no_answers 1 (-1) 1 (fresh ps1_adapter)
  = (Raise StructError, card_type_read ps1_adapter).
Proof.
  refine (proj1 (negative_offset_raises_struct_error no_answers 1 (-1) 1
                   (fresh ps1_adapter) (card_type_read ps1_adapter) _ _)
            _ _ _).
  - lia.
  - lia.
  - reflexivity.
  - vm_compute. reflexivity.
  - vm_compute. discriminate.
Defined.

(** ** Reads as slices of the card *)

Lemma block_range_app (blk : Z -> bytes) (m k : nat) :
  forall first : Z,
    block_range blk first (m + k)
    = block_range blk first m ++ block_range blk (first + Z.of_nat m) k.
Proof.
  induction m as [ | m IH]; intros first.
  - cbn [Nat.add]. change (block_range blk first 0) with (@nil bytes).
    cbn [app]. f_equal. lia.
  - change (S m + k)%nat with (S (m + k)).
    rewrite !block_range_S, IH. cbn [app]. do 3 f_equal. lia.
Qed.

Lemma firstn_then {A : Type} (a b : nat) (t : list A) :
  firstn a t ++ firstn b (skipn a t) = firstn (a + b) t.
Proof.
  revert t. induction a as [ | a IH]; intros t; [reflexivity | ].
  destruct t as [ | x t]; [now rewrite !firstn_nil | ].
  cbn [Nat.add firstn skipn app]. now rewrite IH.
Qed.

(** Two slices that touch make one. *)
Lemma slice_join {A : Type} (s : list A) (i j k : Z) :
  0 <= i <= j -> j <= k -> s.[i : j] ++ s.[j : k] = s.[i : k].
Proof.
  intros Hij Hjk. rewrite !slice_range by lia.
  replace (Z.to_nat j) with (Z.to_nat (j - i) + Z.to_nat i)%nat by lia.
  rewrite <- skipn_skipn, firstn_then. f_equal. lia.
Qed.

(** The bytes a read gathers from the blocks it touches are a slice of the
    card. *)
Lemma blocks_slice (blk : Z -> bytes) (size : Z) (count : nat)
    (first : Z) (m : nat) (start length : Z) :
  (forall i, 0 <= i < Z.of_nat count -> len (blk i) = size) ->
  0 < size -> 0 <= first -> first + Z.of_nat m <= Z.of_nat count ->
  0 <= start -> 0 <= length -> start + length <= size * Z.of_nat m ->
  firstn (Z.to_nat length)
    (skipn (Z.to_nat start) (List.concat (block_range blk first m)))
  = (List.concat (block_range blk 0 count))
      .[size * first + start : size * first + start + length].
Proof.
  intros Hsize Hpos Hfirst Hlast Hstart Hlength Hfits.
  replace count
    with (Z.to_nat first + (m + (count - Z.to_nat first - m)))%nat by lia.
  rewrite !block_range_app, !concat_app.
  replace (0 + Z.of_nat (Z.to_nat first)) with first by lia.
  set (before := List.concat (block_range blk 0 (Z.to_nat first))).
  set (here := List.concat (block_range blk first m)).
  set (after := List.concat (block_range blk _ _)).
  assert (Hall : forall lo n,
             0 <= lo -> lo + Z.of_nat n <= Z.of_nat count ->
             Forall (fun b => len b = size) (block_range blk lo n)).
  { intros lo n Hlo Hhi. unfold block_range. apply Forall_forall.
    intros b Hin. apply in_map_iff in Hin as (j & <- & Hj).
    apply in_seq in Hj. apply Hsize. lia. }
  assert (Hbefore : len before = size * first).
  { unfold before. rewrite (len_concat_blocks size) by (apply Hall; lia).
    rewrite block_range_length. lia. }
  assert (Hhere : len here = size * Z.of_nat m).
  { unfold here. rewrite (len_concat_blocks size) by (apply Hall; lia).
    now rewrite block_range_length. }
  rewrite <- Hbefore. pose proof (len_nonneg before) as Hnonneg.
  rewrite slice_range by lia.
  replace (len before + start + length - (len before + start))
    with length by lia.
  replace (Z.to_nat (len before + start))
    with (List.length before + Z.to_nat start)%nat
    by (unfold len; lia).
  rewrite skipn_app.
  replace (List.length before + Z.to_nat start - List.length before)%nat
    with (Z.to_nat start) by lia.
  rewrite (skipn_all2 before) by lia. cbn [app].
  rewrite skipn_app.
  replace (Z.to_nat start - List.length here)%nat with 0%nat
    by (unfold len in Hhere; lia).
  change (skipn 0 after) with after. rewrite firstn_app.
  replace (Z.to_nat length - List.length (skipn (Z.to_nat start) here))%nat
    with 0%nat by (rewrite length_skipn; unfold len in Hhere; lia).
  cbn [firstn]. now rewrite app_nil_r.
Qed.

Lemma blocks_touched_fit (size start length : Z) :
  0 < size -> 0 <= start -> 0 < length ->
  start + length <= size * Z.of_nat (blocks_touched size start length).
Proof.
  intros Hsize Hstart Hlength.
  destruct (blocks_touched_bounds size start length Hsize Hstart Hlength)
    as (_ & H & _). lia.
Qed.

(** A request inside a card of [count] blocks touches at most [count]
    blocks. *)
Lemma blocks_touched_in_card (size offset length : Z) (count : nat) :
  0 < size -> 0 <= offset -> 0 < length ->
  offset + length <= size * Z.of_nat count ->
  offset / size
  + Z.of_nat (blocks_touched size (offset mod size) length)
  <= Z.of_nat count.
Proof.
  intros Hsize Hoffset Hlength Hfits.
  pose proof (Z.mod_pos_bound offset size Hsize) as Hstart.
  pose proof (Z.div_mod offset size ltac:(lia)) as Hdm.
  destruct (blocks_touched_bounds size (offset mod size) length Hsize
              ltac:(lia) Hlength) as (_ & _ & H).
  assert (Hfirst : 0 <= offset / size) by (apply Z.div_pos; lia).
  nia.
Qed.

Section Slices.

Variable authenticator : bytes -> list bytes.
Variable fuel : nat.
Variable blocks : nat -> option bytes.
Variables (ack : patience) (grants : bool).

Lemma read_ps1_slice (authenticated : bool) (offset length : Z)
    (l : list event) :
  let a := Adapter x01 blocks authenticated ack grants [] in
  card_of blocks 1024 FRAME_LENGTH ->
  0 <= offset -> 0 < length -> offset + length <= PS1_CARD_SIZE ->
  (2 <= fuel)%nat ->
  (blocks_touched FRAME_LENGTH (offset mod FRAME_LENGTH) length <= fuel)%nat ->
  exists l' : list event,
    read authenticator fuel offset length (World a l)
    = (Ok (card_image blocks 1024).[offset : offset + length], World a l').
Proof.
  intros a Hcard Hoffset Hlength Hrange Hfuel Hm.
  destruct (read_ps1_blocks authenticator fuel blocks ack grants
              authenticated offset length l Hcard Hoffset Hlength Hrange
              Hfuel Hm) as (r & l' & Hread & _ & ->).
  exists l'. subst a. rewrite Hread. do 2 f_equal.
  unfold FRAME_LENGTH, PS1_CARD_SIZE in *.
  pose proof (Z.mod_pos_bound offset 128 ltac:(lia)) as Hstart.
  pose proof (Z.div_mod offset 128 ltac:(lia)) as Hdm.
  rewrite (blocks_slice (block_of blocks) 128 1024).
  - unfold card_image. now rewrite <- Hdm.
  - intros i Hi. apply (block_of_length blocks 1024 128 i Hcard). lia.
  - lia.
  - apply Z.div_pos; lia.
  - apply (blocks_touched_in_card 128 offset length 1024); lia.
  - lia.
  - lia.
  - apply blocks_touched_fit; lia.
Qed.

(** X20.  On a PS1 card in the simulated adapter, [read] returns the bytes
    [offset] to [offset + length] of the card, the frames of the card taken
    as one string of bytes, and leaves the adapter as it was. *)
Theorem read_ps1_returns_a_slice_of_the_card (authenticated : bool)
    (offset length : Z) (l : list event) :
  let a := Adapter x01 blocks authenticated ack grants [] in
  card_of blocks 1024 FRAME_LENGTH ->
  0 <= offset -> 0 < length -> offset + length <= PS1_CARD_SIZE ->
  (2 <= fuel)%nat ->
  (blocks_touched FRAME_LENGTH (offset mod FRAME_LENGTH) length <= fuel)%nat ->
  exists l' : list event,
    read authenticator fuel offset length (World a l)
    = (Ok (card_image blocks 1024).[offset : offset + length], World a l').
Proof. exact (read_ps1_slice authenticated offset length l). Qed.

(** X21.  Two reads of a PS1 card that follow each other return the two
    parts of what one read of the whole range returns. *)
Theorem consecutive_reads_join (authenticated : bool)
    (offset length1 length2 : Z) (l : list event) :
  let a := Adapter x01 blocks authenticated ack grants [] in
  card_of blocks 1024 FRAME_LENGTH ->
  0 <= offset -> 0 < length1 -> 0 < length2 ->
  offset + length1 + length2 <= PS1_CARD_SIZE ->
  (1024 <= fuel)%nat ->
  exists (r1 r2 : bytes) (l1 l2 l12 : list event),
    read authenticator fuel offset length1 (World a l) = (Ok r1, World a l1)
    /\ read authenticator fuel (offset + length1) length2 (World a l1)
       = (Ok r2, World a l2)
    /\ read authenticator fuel offset (length1 + length2) (World a l)
       = (Ok (r1 ++ r2), World a l12).
Proof.
  intros a Hcard Hoffset Hlength1 Hlength2 Hrange Hfuel.
  assert (Htouched : forall o n,
             0 <= o -> 0 < n -> o + n <= PS1_CARD_SIZE ->
             (blocks_touched FRAME_LENGTH (o mod FRAME_LENGTH) n
              <= fuel)%nat).
  { intros o n Ho Hn Hfits. unfold FRAME_LENGTH, PS1_CARD_SIZE in *.
    pose proof (blocks_touched_in_card 128 o n 1024 ltac:(lia) Ho Hn
                  ltac:(lia)).
    assert (0 <= o / 128) by (apply Z.div_pos; lia). lia. }
  assert (Hrange1 : offset + length1 <= PS1_CARD_SIZE)
    by (unfold PS1_CARD_SIZE in *; lia).
  assert (Hrange2 : offset + length1 + length2 <= PS1_CARD_SIZE)
    by exact Hrange.
  assert (Hrange12 : offset + (length1 + length2) <= PS1_CARD_SIZE)
    by (unfold PS1_CARD_SIZE in *; lia).
  assert (Hfuel2 : (2 <= fuel)%nat) by lia.
  assert (Hoffset2 : 0 <= offset + length1) by lia.
  assert (Hlength12 : 0 < length1 + length2) by lia.
  destruct (read_ps1_slice authenticated offset length1 l Hcard
              Hoffset Hlength1 Hrange1 Hfuel2
              (Htouched _ _ Hoffset Hlength1 Hrange1))
    as (l1 & Hread1).
  destruct (read_ps1_slice authenticated (offset + length1) length2 l1 Hcard
              Hoffset2 Hlength2 Hrange2 Hfuel2
              (Htouched _ _ Hoffset2 Hlength2 Hrange2))
    as (l2 & Hread2).
  destruct (read_ps1_slice authenticated offset (length1 + length2) l Hcard
              Hoffset Hlength12 Hrange12 Hfuel2
              (Htouched _ _ Hoffset Hlength12 Hrange12))
    as (l12 & Hread12).
  subst a. eexists _, _, l1, l2, l12. split; [exact Hread1 | ].
  split; [exact Hread2 | ].
  rewrite Hread12. do 2 f_equal.
  rewrite slice_join by lia. now rewrite Z.add_assoc.
Qed.

End Slices.

Section LockedAdapter.

Variable authenticator : bytes -> list bytes.
Variables (a1 a2 a3 : bytes).
Hypothesis answers : authenticator sim_seed = [a1; a2; a3].
Hypothesis answer1_length : len a1 = 9.
Hypothesis answer2_length : len a2 = 9.
Hypothesis answer3_length : len a3 = 9.

Variable fuel : nat.
Variable blocks : nat -> option bytes.

(** The first page read from an adapter that is not authenticated yet runs
    the handshake and leaves the adapter authenticated. *)
Lemma sim_readPage_locked (k : nat) (i : Z) (block : bytes)
    (l : list event) :
  (8 <= fuel)%nat -> (k < fuel)%nat ->
  0 <= i <= 4294967295 ->
  blocks (Z.to_nat i) = Some block ->
  len block = PAGE_LENGTH ->
  exists l',
    readPage authenticator fuel i
      (World (locked_adapter x02 blocks (Timeouts k) true) l)
    = (Ok block, World (unlocked_adapter x02 blocks true) l').
Proof.
  intros Hfuel Hk Hi Hblock Hlen.
  apply (sim_readPage_authenticated authenticator fuel blocks (Timeouts 0)
           true i block _
           (complete_log true a1 a2 a3
            ++ List.concat (repeat timeout_log k) ++ l));
    trivial.
  unfold authenticate.
  exact (timeouts_then_pass authenticator a1 a2 a3 answers answer1_length
           answer2_length answer3_length x02 blocks fuel k true fuel l Hk).
Qed.

(** X22.  A read of a PS2 card through an adapter that is not authenticated
    yet: the first page read runs the handshake, through the [k] timeouts
    of the adapter, and the read returns the bytes [offset] to
    [offset + length] of the card and leaves the adapter authenticated. *)
Theorem read_ps2_authenticates_first (k : nat) (offset length : Z)
    (l : list event) :
  card_of blocks (Z.to_nat 16385) PAGE_LENGTH ->
  0 <= offset -> 0 < length -> offset + length <= PS2_CARD_SIZE ->
  (8 <= fuel)%nat -> (k < fuel)%nat ->
  (blocks_touched PAGE_LENGTH (offset mod PAGE_LENGTH) length <= fuel)%nat ->
  exists l' : list event,
    read authenticator fuel offset length
      (World (locked_adapter x02 blocks (Timeouts k) true) l)
    = (Ok (card_image blocks (Z.to_nat 16385)).[offset : offset + length],
       World (unlocked_adapter x02 blocks true) l').
Proof.
  intros Hcard Hoffset Hlength Hrange Hfuel Hk Hm.
  destruct (read_ps2_blocks authenticator fuel blocks (Timeouts 0) true
              false (Timeouts k) true offset length l)
    as (r & l' & Hread & _ & ->); trivial.
  { intros i l0 Hi.
    destruct (block_of_length blocks (Z.to_nat 16385) PAGE_LENGTH i Hcard
                ltac:(lia)) as [Hblock Hlen].
    apply sim_readPage_locked; trivial. lia. }
  exists l'. unfold locked_adapter, unlocked_adapter. rewrite Hread.
  do 2 f_equal.
  unfold PAGE_LENGTH, PS2_CARD_SIZE in *.
  pose proof (Z.mod_pos_bound offset 528 ltac:(lia)) as Hstart.
  pose proof (Z.div_mod offset 528 ltac:(lia)) as Hdm.
  rewrite (blocks_slice (block_of blocks) 528 (Z.to_nat 16385)).
  - unfold card_image. now rewrite <- Hdm.
  - intros i Hi.
    apply (block_of_length blocks (Z.to_nat 16385) 528 i Hcard). lia.
  - lia.
  - apply Z.div_pos; lia.
  - apply (blocks_touched_in_card 528 offset length (Z.to_nat 16385)); lia.
  - lia.
  - lia.
  - apply blocks_touched_fit; lia.
Qed.

End LockedAdapter.

(** ** The answers of the authenticator *)

Section Answers.

Variable authenticator : bytes -> list bytes.
Variable t : byte.
Variable blocks : nat -> option bytes.
Variable grants : bool.

(** The pass in which the adapter acknowledges, when the authenticator
    gave no answer. *)
Lemma pass_without_answers (fuel n : nat) (l : list event) :
  authenticator sim_seed = [] ->
  authenticate_loop authenticator fuel (S n)
    (World (locked_adapter t blocks (Timeouts 0) grants) l)
  = (Raise IndexError,
     World (locked_adapter t blocks (Timeouts 0) grants)
           (acknowledged_log ++ l)).
Proof.
  intros Hanswers. unfold sim_seed in Hanswers.
  rewrite authenticate_loop_unfold.
  destruct fuel; step; cbv beta iota delta [negb];
    apply bind_Raise; unfold authenticate_body; do 7 step;
    cbv zeta; rewrite Hanswers; vm_compute; reflexivity.
Qed.

(** The same pass when the first answer is not 9 bytes long. *)
Lemma pass_with_a_wrong_answer (fuel n : nat) (l : list event)
    (a : bytes) (rest : list bytes) :
  authenticator sim_seed = a :: rest -> len a <> 9 ->
  authenticate_loop authenticator fuel (S n)
    (World (locked_adapter t blocks (Timeouts 0) grants) l)
  = (Raise AssertionError,
     World (locked_adapter t blocks (Timeouts 0) grants)
           (acknowledged_log ++ l)).
Proof.
  intros Hanswers Hlen. unfold sim_seed in Hanswers.
  rewrite authenticate_loop_unfold.
  apply Z.eqb_neq in Hlen.
  destruct fuel; step; cbv beta iota delta [negb];
    apply bind_Raise; unfold authenticate_body; do 7 step;
    cbv zeta; rewrite Hanswers; step; cbv beta iota delta [negb];
    rewrite getitem_first; unfold from_option at 1; rewrite bind_ret;
    apply bind_Raise; unfold sendAuthPart1, __send_81f0;
    rewrite Hlen; reflexivity.
Qed.

Lemma timeouts_then (fuel k : nat) (r : outcome unit * world adapter) :
  (forall (n : nat) (l : list event),
      authenticate_loop authenticator fuel (S n)
        (World (locked_adapter t blocks (Timeouts 0) grants) l)
      = (fst r,
         World (locked_adapter t blocks (Timeouts 0) grants)
               (acknowledged_log ++ l))) ->
  forall (n : nat) (l : list event),
    (k < n)%nat ->
    authenticate_loop authenticator fuel n
      (World (locked_adapter t blocks (Timeouts k) grants) l)
    = (fst r,
       World (locked_adapter t blocks (Timeouts 0) grants)
             (acknowledged_log ++ List.concat (repeat timeout_log k) ++ l)).
Proof.
  intros Hlast.
  induction k as [ | k IH]; intros n l Hn;
    (destruct n as [ | n]; [lia | ]).
  - apply Hlast.
  - rewrite pass_with_timeout, IH by lia.
    change (List.concat (repeat timeout_log (S k)))
      with (timeout_log ++ List.concat (repeat timeout_log k)).
    now rewrite (app_assoc (List.concat _) timeout_log l),
      concat_repeat_comm, <- app_assoc.
Qed.

(** X23.  The answers of the authenticator are looked at only once the
    adapter acknowledged.  The passes that time out go through without
    them; in the pass that is acknowledged, a list without a first answer
    raises IndexError and a first answer that is not 9 bytes long fails
    the assertion of [__send_81f0]; in both cases nothing is sent after the
    acknowledgement request, and the loop is left at once. *)
Theorem answers_are_used_after_the_acknowledgement (fuel k : nat)
    (l : list event) :
  (k < fuel)%nat ->
  let w := World (locked_adapter t blocks (Timeouts k) grants) l in
  let w' := World (locked_adapter t blocks (Timeouts 0) grants)
              (acknowledged_log ++ List.concat (repeat timeout_log k) ++ l) in
  (authenticator sim_seed = [] ->
   authenticate authenticator fuel w = (Raise IndexError, w'))
  /\ (forall (a : bytes) (rest : list bytes),
         authenticator sim_seed = a :: rest -> len a <> 9 ->
         authenticate authenticator fuel w = (Raise AssertionError, w'))
  /\ commands_of (trace w')
     = commands_of (trace w)
       ++ List.concat (repeat attempt_until_ack k) ++ attempt_until_ack
  /\ printed (trace w')
     = printed (trace w) ++ repeat "Auth timeout, retrying..."%string k.
Proof.
  intros Hk w w'. split; [ | split; [ | split]].
  - intros Hanswers. unfold authenticate.
    apply (timeouts_then fuel k (Raise IndexError, w)); [ | exact Hk].
    intros n l0. now apply pass_without_answers.
  - intros a rest Hanswers Hlen. unfold authenticate.
    apply (timeouts_then fuel k (Raise AssertionError, w)); [ | exact Hk].
    intros n l0. now apply (pass_with_a_wrong_answer fuel n l0 a rest).
  - unfold w, w', trace. cbn [log].
    rewrite !rev_app_distr, !commands_of_app, commands_of_timeouts.
    change (commands_of (rev acknowledged_log)) with attempt_until_ack.
    now rewrite <- !app_assoc.
  - unfold w, w', trace. cbn [log].
    rewrite !rev_app_distr, !printed_app, printed_timeouts.
    change (printed (rev acknowledged_log)) with (@nil string).
    now rewrite app_nil_r.
Qed.

End Answers.

Lemma answers_are_used_after_the_acknowledgement_witness :
  fst (authenticate no_answers 3
         (fresh (locked_adapter x02 (sample_blocks 4 528) (Timeouts 2) true)))
  = Raise IndexError.
Proof.
  unfold fresh.
  rewrite (proj1 (answers_are_used_after_the_acknowledgement no_answers x02
                    (sample_blocks 4 528) true 3 2 [] (le_n 3)) eq_refl).
  reflexivity.
Defined.

(** ** Reads of the simulated cards *)

Lemma read_within_one_block_witness :
  exists l' : list event,
    read no_answers 2 5 0 (fresh ps1_adapter) = (Ok [], World ps1_adapter l').
Proof.
  destruct (sim_readFrame 2 (sample_blocks 1024 128) (Timeouts 0) true false
              0 (repeat x00 128) (log (card_type_read ps1_adapter)))
    as (l' & Hread).
  - lia.
  - lia.
  - reflexivity.
  - reflexivity.
  - exists l'.
    apply (read_within_one_block no_answers 2 5 0 1 FRAME_LENGTH
             PS1_CARD_SIZE (repeat x00 128) (fresh ps1_adapter)
             (card_type_read ps1_adapter) (World ps1_adapter l')).
    + reflexivity.
    + left. repeat split.
    + exact Hread.
    + vm_compute. split; [reflexivity | discriminate].
    + vm_compute. discriminate.
    + lia.
Defined.

Lemma read_ps1_returns_a_slice_of_the_card_witness :
  exists l' : list event,
    read no_answers 2 126 4 (fresh ps1_adapter)
    = (Ok (card_image (sample_blocks 1024 128) 1024).[126 : 126 + 4],
       World ps1_adapter l').
Proof.
  apply (read_ps1_returns_a_slice_of_the_card no_answers 2
           (sample_blocks 1024 128) (Timeouts 0) true false 126 4 []).
  - apply (sample_blocks_card 1024 128).
  - lia.
  - lia.
  - vm_compute. discriminate.
  - lia.
  - vm_compute. lia.
Defined.

Lemma consecutive_reads_join_witness :
  exists (r1 r2 : bytes) (l1 l2 l12 : list event),
    read no_answers 1024 126 4 (fresh ps1_adapter)
    = (Ok r1, World ps1_adapter l1)
    /\ read no_answers 1024 (126 + 4) 300 (World ps1_adapter l1)
       = (Ok r2, World ps1_adapter l2)
    /\ read no_answers 1024 126 (4 + 300) (fresh ps1_adapter)
       = (Ok (r1 ++ r2), World ps1_adapter l12).
Proof.
  apply (consecutive_reads_join no_answers 1024 (sample_blocks 1024 128)
           (Timeouts 0) true false 126 4 300 []).
  - apply (sample_blocks_card 1024 128).
  - lia.
  - lia.
  - lia.
  - vm_compute. discriminate.
  - lia.
Defined.

Lemma read_ps2_authenticates_first_witness :
  exists l' : list event,
    read echo_seed 8 527 3
      (fresh (locked_adapter x02 (sample_blocks (Z.to_nat 16385) 528)
                (Timeouts 2) true))
    = (Ok (card_image (sample_blocks (Z.to_nat 16385) 528) (Z.to_nat 16385))
            .[527 : 527 + 3],
       World (unlocked_adapter x02 (sample_blocks (Z.to_nat 16385) 528) true)
             l').
Proof.
  apply (read_ps2_authenticates_first echo_seed sim_seed sim_seed sim_seed
           eq_refl eq_refl eq_refl eq_refl 8
           (sample_blocks (Z.to_nat 16385) 528) 2 527 3 []).
  - apply (sample_blocks_card (Z.to_nat 16385) 528).
  - lia.
  - lia.
  - vm_compute. discriminate.
  - lia.
  - lia.
  - vm_compute. lia.
Defined.

(** ** The dump of the error messages *)

Lemma hex_digits_differ :
  NoDup (list_ascii_of_string "0123456789abcdef").
Proof.
  cbn. repeat (constructor; [cbn; intuition discriminate | ]). constructor.
Qed.

Lemma hex_digit_inj (n m : Z) :
  0 <= n < 16 -> 0 <= m < 16 -> hex_digit n = hex_digit m -> n = m.
Proof.
  intros Hn Hm H. unfold hex_digit in H.
  apply (proj1 (NoDup_nth _ _) hex_digits_differ) in H;
    [lia | cbn; lia | cbn; lia].
Qed.

Lemma Z_of_byte_inj (x y : byte) : Z_of_byte x = Z_of_byte y -> x = y.
Proof.
  unfold Z_of_byte. intros H. apply N2Z.inj in H.
  pose proof (Byte.of_to_N x) as Hx. pose proof (Byte.of_to_N y) as Hy.
  rewrite H in Hx. congruence.
Qed.

Lemma format_02x_inj (x y : byte) : format_02x x = format_02x y -> x = y.
Proof.
  unfold format_02x. intros H. injection H as Hhigh Hlow.
  pose proof (Z_of_byte_range x) as Hx. pose proof (Z_of_byte_range y) as Hy.
  apply hex_digit_inj in Hhigh;
    [ | split; [apply Z.div_pos | apply Z.div_lt_upper_bound]; lia
      | split; [apply Z.div_pos | apply Z.div_lt_upper_bound]; lia].
  apply hex_digit_inj in Hlow; [ | apply Z.mod_pos_bound; lia
                                 | apply Z.mod_pos_bound; lia].
  apply Z_of_byte_inj.
  rewrite (Z.div_mod (Z_of_byte x) 16), (Z.div_mod (Z_of_byte y) 16) by lia.
  now rewrite Hhigh, Hlow.
Qed.

Lemma hexdump_one (x : byte) : hexdump [x] = format_02x x.
Proof. reflexivity. Qed.

Lemma hexdump_more (x y : byte) (rest : bytes) :
  hexdump (x :: y :: rest)
  = String (hex_digit (Z_of_byte x / 16))
      (String (hex_digit (Z_of_byte x mod 16))
         (String " " (hexdump (y :: rest)))).
Proof. reflexivity. Qed.

Lemma hexdump_length (data : bytes) :
  String.length (hexdump data) = (3 * List.length data - 1)%nat.
Proof.
  induction data as [ | x [ | y rest] IH]; [reflexivity | reflexivity | ].
  rewrite hexdump_more. cbn [String.length]. rewrite IH.
  cbn [List.length]. lia.
Qed.

Lemma hexdump_inj (a : bytes) : forall b : bytes, hexdump a = hexdump b -> a = b.
Proof.
  induction a as [ | x [ | x' a'] IH]; intros [ | y [ | y' b']] H;
    try reflexivity;
    rewrite ?hexdump_one, ?hexdump_more in H; unfold format_02x in H;
    try discriminate H.
  - f_equal. now apply format_02x_inj.
  - injection H as Hhigh Hlow Hrest.
    f_equal.
    + apply format_02x_inj. unfold format_02x. now rewrite Hhigh, Hlow.
    + now apply IH.
Qed.

(** X24.  [hexdump] writes every byte as two lowercase hexadecimal digits
    and puts one space between two bytes: the dump of [n > 0] bytes has
    [3 n - 1] characters, the dump of no bytes is empty, and two dumps are
    equal only when the data are. *)
Theorem hexdump_is_faithful (a b : bytes) :
  String.length (hexdump a) = (3 * List.length a - 1)%nat
  /\ (hexdump a = hexdump b -> a = b).
Proof.
  split.
  - apply hexdump_length.
  - apply hexdump_inj.
Qed.

Lemma hexdump_is_faithful_witness :
  hexdump [x5a; x00; xff] = "5a 00 ff"%string
  /\ String.length (hexdump [x5a; x00; xff]) = 8%nat.
Proof.
  split; [reflexivity | ].
  exact (proj1 (hexdump_is_faithful [x5a; x00; xff] [])).
Defined.

(** ** What a read returns, whatever the device *)

Section ReadLoopInversion.

Context {D : Type}.
Variable read_block : Z -> M D bytes.
Variable block_length : Z.

(** What the loop of [read] has gathered when it ends. *)
Lemma read_loop_gathered (n : nat) :
  forall (length result_len current_block : Z) (result : list bytes)
         (w w' : world D) (result_len' : Z) (result' : list bytes),
    read_loop n read_block block_length length result_len current_block
      result w = (Ok (result_len', result'), w') ->
    exists gathered : list bytes,
      result' = result ++ gathered
      /\ Forall (fun b => len b = block_length) gathered
      /\ result_len' = result_len + block_length * len gathered
      /\ length <= result_len'
      /\ (gathered <> [] -> result_len' - block_length < length).
Proof.
  induction n as [ | n IH];
    intros length result_len current_block result w w' result_len' result' H;
    cbn [read_loop] in H;
    destruct (Z.ltb_spec result_len length) as [Hlt | Hge].
  - discriminate H.
  - injection H as <- <- _. exists []. rewrite app_nil_r.
    change (len (@nil bytes)) with 0.
    repeat split; [constructor | lia | lia | congruence].
  - apply bind_Ok_inv in H as (data & w1 & _ & H).
    apply bind_Ok_inv in H as ([] & w2 & Hlen & H).
    apply assert_Ok_inv, Z.eqb_eq in Hlen.
    apply IH in H as (gathered & -> & Hall & -> & Henough & Hlast).
    exists (data :: gathered). rewrite <- app_assoc, len_cons.
    repeat split; [now constructor | lia | lia | ].
    intros _. destruct gathered as [ | b gathered].
    + change (len (@nil bytes)) with 0. lia.
    + specialize (Hlast ltac:(discriminate)). lia.
  - injection H as <- <- _. exists []. rewrite app_nil_r.
    change (len (@nil bytes)) with 0.
    repeat split; [constructor | lia | lia | congruence].
Qed.

End ReadLoopInversion.

Section Returned.

Context {D : Type} {usb_device : UsbDevice D}.
Variable authenticator : bytes -> list bytes.
Variable fuel : nat.

Lemma select_block_io_Ok (card_type : Z) (w w' : world D)
    (io : (Z -> M D bytes) * (Z -> bytes -> M D unit)) :
  select_block_io authenticator fuel card_type w = (Ok io, w') ->
  card_type = 1 \/ card_type = 2.
Proof.
  unfold select_block_io.
  destruct (Z.eqb_spec card_type 1); [now left | ].
  destruct (Z.eqb_spec card_type 2); [now right | discriminate].
Qed.

(** X25.  [read] never returns fewer or more bytes than it was asked for:
    whatever the device answers, a read of [length > 0] bytes that returns
    has returned exactly [length] bytes. *)
Theorem read_returns_exactly_length (offset length : Z) (w w' : world D)
    (r : bytes) :
  0 < length ->
  read authenticator fuel offset length w = (Ok r, w') ->
  len r = length.
Proof.
  intros Hlength H.
  pose proof H as Hread. unfold read in Hread.
  apply bind_Ok_inv in Hread as (card_type & w1 & Htype & Hread).
  apply bind_Ok_inv in Hread as (io & w2 & Hio & _).
  apply select_block_io_Ok in Hio.
  set (block_length := if card_type =? 1 then FRAME_LENGTH else PAGE_LENGTH).
  set (max_length := if card_type =? 1 then PS1_CARD_SIZE else PS2_CARD_SIZE).
  assert (Hcard : (card_type = 1 /\ block_length = FRAME_LENGTH
                   /\ max_length = PS1_CARD_SIZE)
                  \/ (card_type = 2 /\ block_length = PAGE_LENGTH
                      /\ max_length = PS2_CARD_SIZE)).
  { destruct Hio as [-> | ->]; [left | right]; repeat split. }
  assert (Hblock : 0 < block_length)
    by (destruct Hcard as [(_ & -> & _) | (_ & -> & _)]; reflexivity).
  rewrite (read_prologue authenticator fuel offset length card_type
             block_length max_length w w1 Htype Hcard) in H.
  destruct (offset + length >? max_length); [discriminate H | ].
  cbv zeta in H.
  pose proof (Z.mod_pos_bound offset block_length Hblock) as Hstart.
  set (start := offset mod block_length) in *.
  apply bind_Ok_inv in H as ([result_len result] & w3 & Hloop & H).
  apply read_loop_gathered in Hloop
    as (gathered & -> & Hall & -> & Henough & Hlast).
  cbn [app] in H.
  destruct gathered as [ | b gathered]; [discriminate H | ].
  specialize (Hlast ltac:(discriminate)).
  change (trim_result start length
            (- start + block_length * len (b :: gathered)) (b :: gathered) w3
          = (Ok r, w')) in H.
  rewrite (trim_result_spec block_length start length (b :: gathered) w3)
    in H; try lia; try assumption; try discriminate.
  injection H as <- _.
  pose proof (len_concat_blocks block_length _ Hall) as Hconcat.
  change (b ++ List.concat gathered) with (List.concat (b :: gathered)).
  rewrite len_firstn; [reflexivity | ].
  rewrite len_skipn; lia.
Qed.

(** X26.  [writePage] checks the length of the data before anything else,
    authenticates, and stops after that: at the packing of a page number
    that does not fit 32 bits, and at the join of its command otherwise.
    No page is sent, but the handshake of [authenticate] has taken place. *)
Theorem writePage_stops_after_the_authentication (page_number : Z)
    (data : bytes) (w : world D) :
  (len data <> PAGE_LENGTH ->
   writePage authenticator fuel page_number data w
   = (Raise AssertionError, w))
  /\ (len data = PAGE_LENGTH ->
      forall w1 : world D,
        authenticate authenticator fuel w = (Ok tt, w1) ->
        (0 <= page_number <= 4294967295 ->
         writePage authenticator fuel page_number data w
         = (Raise TypeError, w1))
        /\ (page_number < 0 \/ 4294967295 < page_number ->
            writePage authenticator fuel page_number data w
            = (Raise StructError, w1))).
Proof.
  split.
  - intros Hlen. unfold writePage. apply Z.eqb_neq in Hlen.
    now rewrite Hlen.
  - intros Hlen w1 Hauth. unfold writePage.
    rewrite Hlen, Z.eqb_refl, bind_assert_true.
    rewrite (bind_Ok _ _ _ _ _ Hauth). split.
    + intros Hpage. now rewrite (pack_I_in_range _ Hpage).
    + intros Hpage. now rewrite (pack_I_out_of_range _ Hpage).
Qed.

End Returned.

Lemma read_returns_exactly_length_witness :
  fst (read no_answers 2 126 4 (fresh ps1_adapter)) = Ok [x00; x00; x01; x01]
  /\ len [x00; x00; x01; x01] = 4.
Proof.
  assert (Hread : fst (read no_answers 2 126 4 (fresh ps1_adapter))
                  = Ok [x00; x00; x01; x01])
    by (vm_compute; reflexivity).
  split; [exact Hread | ].
  apply (read_returns_exactly_length no_answers 2 126 4 (fresh ps1_adapter)
           (snd (read no_answers 2 126 4 (fresh ps1_adapter)))).
  - lia.
  - destruct (read no_answers 2 126 4 (fresh ps1_adapter)) as [o w'].
    cbn [fst snd] in *. now subst o.
Defined.

Lemma writePage_stops_after_the_authentication_witness :
  fst (writePage echo_seed 8 3 (repeat xff 528)
         (fresh (locked_adapter x02 (sample_blocks 4 528) (Timeouts 0) true)))
  = Raise TypeError.
Proof.
  pose (w := fresh (locked_adapter x02 (sample_blocks 4 528) (Timeouts 0)
                      true)).
  pose (w1 := snd (authenticate echo_seed 8 w)).
  assert (Hauth : fst (authenticate echo_seed 8 w) = Ok tt)
    by (vm_compute; reflexivity).
  assert (Hauth' : authenticate echo_seed 8 w = (Ok tt, w1)).
  { unfold w1. destruct (authenticate echo_seed 8 w) as [o w2].
    cbn [fst snd] in *. now subst o. }
  fold w.
  rewrite (proj1 (proj2 (writePage_stops_after_the_authentication echo_seed 8
                           3 (repeat xff 528) w)
                    eq_refl w1 Hauth') ltac:(lia)).
  reflexivity.
Defined.
